(** * Trello user provisioning: a shallow embedding of the two scripts

    The repository drives a browser through Selenium.  Everything the
    program does is a sequence of calls to the outside (the WebDriver, the
    process environment, the clock, the operator's keyboard), interleaved
    with Python control flow: [try]/[except]/[finally], [for] loops with
    [break], [continue] and [return].

    The embedding keeps that shape.  A computation is a function from a
    state to a result and a new state; the result is either a value or a
    raised exception, and the state survives a raise (as the fields of
    [self] and the effects already performed do in Python).  The outside
    is an oracle [Env] that answers each call from the history of all the
    calls made so far, so a page may change under the program's feet.

    What is taken for granted:
    - an exception is an instance of Python's [Exception], as all those of
      Selenium and of the scripts are; signals that derive from
      [BaseException] only (a keyboard interrupt) are outside the model;
    - [logging] calls and [time.sleep] always return; they are recorded in
      the history like every other call;
    - [WebDriverWait.until] is one call, which the world answers with an
      element or with an exception;
    - [main] of script.py is embedded from the parsed arguments on, its
      value being the status handed to [sys.exit]; the argument parser
      itself is not;
    - of part_000, [setup_browser], [login_to_trello] and the block that
      chains the steps are not embedded (the first runs a script on no
      element, the second reads the clock): no property below concerns
      them. *)

From Stdlib Require Import String List Bool Arith ZArith Lia.
From Stdlib Require Import DecimalString.
Import ListNotations.
Open Scope list_scope.
Open Scope string_scope.

Set Implicit Arguments.

(* Messages stay as written when goals are simplified. *)
Arguments String.append : simpl never.
Arguments Nat.pow : simpl never.
Arguments Nat.mul : simpl never.

(** ** Exceptions *)

(** The exception classes the two scripts name, raise or catch.  All of
    them derive from Python's [Exception]; [Exception_] stands for an
    instance of [Exception] itself (part_000 raises one) and for any other
    subclass the scripts do not single out. *)
Inductive exn_class : Type :=
| Exception_
| AttributeError
| ValueError
| WebDriverException
| NoSuchElementException
| TimeoutException
| StaleElementReferenceException
| ElementClickInterceptedException
| TrelloProvisioningError
| CaptchaDetectedException.

Definition exn_class_eqb (a b : exn_class) : bool :=
  match a, b with
  | Exception_, Exception_
  | AttributeError, AttributeError
  | ValueError, ValueError
  | WebDriverException, WebDriverException
  | NoSuchElementException, NoSuchElementException
  | TimeoutException, TimeoutException
  | StaleElementReferenceException, StaleElementReferenceException
  | ElementClickInterceptedException, ElementClickInterceptedException
  | TrelloProvisioningError, TrelloProvisioningError
  | CaptchaDetectedException, CaptchaDetectedException => true
  | _, _ => false
  end.

(** The direct base class, as declared in the scripts and in Selenium. *)
Definition base_class (c : exn_class) : option exn_class :=
  match c with
  | Exception_ => None
  | AttributeError | ValueError | WebDriverException
  | TrelloProvisioningError => Some Exception_
  | NoSuchElementException | TimeoutException
  | StaleElementReferenceException
  | ElementClickInterceptedException => Some WebDriverException
  | CaptchaDetectedException => Some TrelloProvisioningError
  end.

(** [issubclass c d]: the hierarchy is three levels deep. *)
Definition issubclass (c d : exn_class) : bool :=
  exn_class_eqb c d ||
  match base_class c with
  | None => false
  | Some c1 =>
      exn_class_eqb c1 d ||
      match base_class c1 with
      | None => false
      | Some c2 => exn_class_eqb c2 d
      end
  end.

Record exn : Type := mk_exn { exn_type : exn_class; exn_msg : string }.

(** [str(e)] *)
Definition str (e : exn) : string := exn_msg e.

Definition isinstance (e : exn) (c : exn_class) : bool :=
  issubclass (exn_type e) c.

Inductive result (A : Type) : Type :=
| Ok (a : A)
| Raise (e : exn).
Arguments Ok {A} a.
Arguments Raise {A} e.

(** ** Calls to the outside *)

Definition element := nat.

Inductive level : Type := DEBUG | INFO | WARNING | ERROR.

Inductive By : Type := By_ID | By_XPATH | By_CSS_SELECTOR.

(** What [WebDriverWait.until] is asked to wait for. *)
Inductive condition : Type :=
| presence_of_element_located (b : By) (value : string)
| element_to_be_clickable (b : By) (value : string)
| login_landed.   (* the lambda of [login]: a boards/home URL or a board tile *)

Inductive event : Type :=
| Log (l : level) (message : string)
| LoadDotenv
| Getenv (name : string)
| InstallChromeDriver
| NewChrome (headless : bool)
| SetPageLoadTimeout (seconds : nat)
| ImplicitlyWait (seconds : nat)
| MaximizeWindow
| Get (url : string)
| FindElement (b : By) (value : string)
| FindElements (b : By) (value : string)
| WaitUntil (timeout : Z) (c : condition)
| Click (e : element)
| ExecuteScript (script : string) (e : element)
| Clear (e : element)
| SendKeys (e : element) (text : string)
| ElementText (e : element)
| CurrentUrl
| Sleep (seconds : nat)
| Input (prompt : string)
| Quit.

(** Calls that reach the browser or its driver. *)
Definition is_browser_call (ev : event) : bool :=
  match ev with
  | Log _ _ | LoadDotenv | Getenv _ | Sleep _ | Input _ => false
  | _ => true
  end.

Definition is_quit (ev : event) : bool :=
  match ev with Quit => true | _ => false end.

Definition is_sleep (ev : event) : bool :=
  match ev with Sleep _ => true | _ => false end.

(** The outside world.  Each oracle sees the calls made so far (oldest
    first) and the call being made.  [env_getenv] is the process
    environment once the [.env] file has been loaded into it. *)
Record Env : Type := mk_env {
  env_unit : list event -> event -> option exn;       (* [None]: returns *)
  env_element : list event -> event -> result element;
  env_elements : list event -> event -> result (list element);
  env_string : list event -> event -> result string;
  env_getenv : string -> option string;               (* [os.getenv] *)
}.

(** ** State and the monad *)

(** A [webdriver.Chrome] instance, with the mode it was started in, and a
    [WebDriverWait] with its timeout in seconds. *)
Record webdriver : Type := Chrome { chrome_headless : bool }.
Record WebDriverWait : Type := mk_wait { wait_seconds : Z }.

(** [driver] and [wait] are the two fields of the object that are assigned
    after construction; [trace] is the history of calls. *)
Record state : Type := mk_state {
  driver : option webdriver;
  wait : option WebDriverWait;
  trace : list event;
}.

Definition M (A : Type) : Type := state -> result A * state.

Definition ret {A} (a : A) : M A := fun st => (Ok a, st).

Definition raise {A} (e : exn) : M A := fun st => (Raise e, st).

Definition bind {A B} (m : M A) (k : A -> M B) : M B :=
  fun st =>
    match m st with
    | (Ok a, st') => k a st'
    | (Raise e, st') => (Raise e, st')
    end.

Notation "x <- c ;; k" := (bind c (fun x => k))
  (at level 61, c at next level, right associativity).
Notation "c ;; k" := (bind c (fun _ => k))
  (at level 61, right associativity).

(** One [except C as e: h] clause. *)
Definition clause (A : Type) : Type := (exn_class * (exn -> M A))%type.

Fixpoint select_clause {A} (e : exn) (cs : list (clause A)) : option (M A) :=
  match cs with
  | [] => None
  | (c, h) :: cs' => if isinstance e c then Some (h e) else select_clause e cs'
  end.

(** [try: body  except C1 as e: h1  except C2 as e: h2 ...]: the first
    clause whose class the exception is an instance of handles it; with no
    such clause the exception propagates. *)
Definition try_except {A} (body : M A) (cs : list (clause A)) : M A :=
  fun st =>
    match body st with
    | (Ok a, st') => (Ok a, st')
    | (Raise e, st') =>
        match select_clause e cs with
        | Some h => h st'
        | None => (Raise e, st')
        end
    end.

(** [try: body  finally: fin]: [fin] always runs; an exception of [fin]
    replaces the outcome of [body]. *)
Definition try_finally {A} (body : M A) (fin : M unit) : M A :=
  fun st =>
    match body st with
    | (r, st') =>
        match fin st' with
        | (Ok _, st'') => (r, st'')
        | (Raise e, st'') => (Raise e, st'')
        end
    end.

Definition emit (ev : event) (st : state) : state :=
  mk_state (driver st) (wait st) (trace st ++ [ev])%list.

Definition set_driver (d : option webdriver) : M unit :=
  fun st => (Ok tt, mk_state d (wait st) (trace st)).

Definition set_wait (w : option WebDriverWait) : M unit :=
  fun st => (Ok tt, mk_state (driver st) w (trace st)).

(** [logging.<level>(message)] and [time.sleep(seconds)] always return. *)
Definition log (l : level) (message : string) : M unit :=
  fun st => (Ok tt, emit (Log l message) st).

Definition sleep (seconds : nat) : M unit :=
  fun st => (Ok tt, emit (Sleep seconds) st).

Definition none_has_no_attribute (attr : string) : exn :=
  mk_exn AttributeError
         ("'NoneType' object has no attribute '" ++ attr ++ "'").

(** Decimal rendering of a number inside an f-string. *)
Definition str_of_nat (n : nat) : string :=
  NilEmpty.string_of_uint (Nat.to_uint n).

Fixpoint string_repeat (s : string) (n : nat) : string :=
  match n with
  | 0 => ""
  | S n' => s ++ string_repeat s n'
  end.

Arguments str_of_nat : simpl never.
Arguments string_repeat : simpl never.

Section Calls.

Variable env : Env.

Definition call_unit (ev : event) : M unit :=
  fun st =>
    match env_unit env (trace st) ev with
    | None => (Ok tt, emit ev st)
    | Some e => (Raise e, emit ev st)
    end.

Definition call_element (ev : event) : M element :=
  fun st => (env_element env (trace st) ev, emit ev st).

Definition call_elements (ev : event) : M (list element) :=
  fun st => (env_elements env (trace st) ev, emit ev st).

Definition call_string (ev : event) : M string :=
  fun st => (env_string env (trace st) ev, emit ev st).

(** [os.getenv(name)] *)
Definition getenv (name : string) : M (option string) :=
  fun st => (Ok (env_getenv env name), emit (Getenv name) st).

(** [load_dotenv()] *)
Definition load_dotenv : M unit :=
  fun st => (Ok tt, emit LoadDotenv st).

(** [self.driver.<attr>...]: with [self.driver] still [None] the
    attribute access raises [AttributeError] and nothing is called. *)
Definition on_driver {A} (attr : string) (m : M A) : M A :=
  fun st =>
    match driver st with
    | Some _ => m st
    | None => (Raise (none_has_no_attribute attr), st)
    end.

Definition driver_get (url : string) : M unit :=
  on_driver "get" (call_unit (Get url)).

Definition find_element (b : By) (value : string) : M element :=
  on_driver "find_element" (call_element (FindElement b value)).

Definition find_elements (b : By) (value : string) : M (list element) :=
  on_driver "find_elements" (call_elements (FindElements b value)).

Definition execute_script (script : string) (e : element) : M unit :=
  on_driver "execute_script" (call_unit (ExecuteScript script e)).

Definition current_url : M string :=
  on_driver "current_url" (call_string CurrentUrl).

Definition driver_quit : M unit :=
  on_driver "quit" (call_unit Quit).

(** Methods of a [WebElement]. *)
Definition click (e : element) : M unit := call_unit (Click e).
Definition clear (e : element) : M unit := call_unit (Clear e).
Definition send_keys (e : element) (text : string) : M unit :=
  call_unit (SendKeys e text).
Definition text_of (e : element) : M string := call_string (ElementText e).

(** [input(prompt)] *)
Definition input (prompt : string) : M string := call_string (Input prompt).

(** [self.wait.until(c)], an element expected back. *)
Definition wait_until_element (c : condition) : M element :=
  fun st =>
    match wait st with
    | Some w => call_element (WaitUntil (wait_seconds w) c) st
    | None => (Raise (none_has_no_attribute "until"), st)
    end.

(** [self.wait.until(c)], the value ignored. *)
Definition wait_until (c : condition) : M unit :=
  fun st =>
    match wait st with
    | Some w => call_unit (WaitUntil (wait_seconds w) c) st
    | None => (Raise (none_has_no_attribute "until"), st)
    end.

End Calls.

(** [sub in s] on strings. *)
Definition contains (sub s : string) : bool :=
  match index 0 sub s with
  | Some _ => true
  | None => false
  end.

(** An [Optional[str]] tested for truth: [None] and the empty string are
    false; a true one is a non-empty string. *)
Definition truthy (o : option string) : option string :=
  match o with
  | None => None
  | Some s => if String.eqb s "" then None else Some s
  end.

(** [s.lower()], on the ASCII letters. *)
Definition ascii_lower (c : Ascii.ascii) : Ascii.ascii :=
  let n := Ascii.nat_of_ascii c in
  if Nat.leb 65 n && Nat.leb n 90 then Ascii.ascii_of_nat (n + 32) else c.

Fixpoint lower (s : string) : string :=
  match s with
  | EmptyString => EmptyString
  | String c s' => String (ascii_lower c) (lower s')
  end.

(** [Keys.ENTER] is the private-use code point U+E007; its UTF-8 bytes. *)
Definition Keys_ENTER : string :=
  String (Ascii.ascii_of_nat 238)
    (String (Ascii.ascii_of_nat 128) (String (Ascii.ascii_of_nat 135) "")).

(** * script.py: class [TrelloProvisioning] *)

Module TrelloProvisioning.

Record TrelloCredentials : Type := mk_credentials {
  username : string;
  password : string;
}.

(** The fields [__init__] assigns once and no method changes. *)
Record self_t : Type := mk_self {
  headless : bool;
  wait_timeout : Z;
  max_retries : nat;
  retry_delay_base : nat;
  credentials : TrelloCredentials;
}.

Section Methods.

Variable env : Env.

Definition _setup_logging : M unit :=
  log INFO (string_repeat "=" 60) ;;
  log INFO "CloudEagle AutoPilot - Trello Provisioning Started" ;;
  log INFO (string_repeat "=" 60).

Definition _load_credentials : M TrelloCredentials :=
  username <- getenv env "TRELLO_USERNAME" ;;
  password <- getenv env "TRELLO_PASSWORD" ;;
  match truthy username, truthy password with
  | Some username, Some password =>
      log INFO ("Credentials loaded for user: " ++ username) ;;
      ret (mk_credentials username password)
  | _, _ =>     (* [if not username or not password] *)
      let error_msg :=
        "TRELLO_USERNAME and TRELLO_PASSWORD must be set in .env file" in
      log ERROR error_msg ;;
      raise (mk_exn TrelloProvisioningError error_msg)
  end.

Definition __init__ (headless : bool) (wait_timeout : Z) : M self_t :=
  set_driver None ;;
  set_wait None ;;
  _setup_logging ;;
  load_dotenv ;;
  credentials <- _load_credentials ;;
  log INFO "TrelloProvisioning initialized successfully" ;;
  ret (mk_self headless wait_timeout 3 1 credentials).

Variable self : self_t.

(** The [Options] object is built without touching the outside; the
    calls that do are the driver download, the browser start and the
    three settings on the new driver. *)
Definition _setup_driver : M unit :=
  try_except
    ((if headless self then log INFO "Running in headless mode"
      else log INFO "Running in visible mode") ;;
     _ <- call_string env InstallChromeDriver ;;
     call_unit env (NewChrome (headless self)) ;;
     set_driver (Some (Chrome (headless self))) ;;
     on_driver "set_page_load_timeout"
               (call_unit env (SetPageLoadTimeout 30)) ;;
     on_driver "implicitly_wait" (call_unit env (ImplicitlyWait 5)) ;;
     set_wait (Some (mk_wait (wait_timeout self))) ;;
     (if negb (headless self)
      then on_driver "maximize_window" (call_unit env MaximizeWindow)
      else ret tt) ;;
     log INFO "WebDriver setup completed successfully")
    [(Exception_, fun e =>
        let error_msg := "Failed to setup WebDriver: " ++ str e in
        log ERROR error_msg ;;
        raise (mk_exn TrelloProvisioningError error_msg))].

(** [str(last_exception)], which is [None] before any failure. *)
Definition str_last (last_exception : option exn) : string :=
  match last_exception with
  | None => "None"
  | Some e => str e
  end.

(** The [for attempt in range(self.max_retries)] loop of
    [_retry_operation] over the attempts still to make. *)
Fixpoint retry_loop {A} (name : string) (operation : M A)
         (attempts : list nat) (last_exception : option exn) : M A :=
  match attempts with
  | [] =>
      let error_msg :=
        "Operation " ++ name ++ " failed after "
          ++ str_of_nat (max_retries self) ++ " attempts" in
      log ERROR error_msg ;;
      raise (mk_exn TrelloProvisioningError
                    (error_msg ++ ". Last error: "
                       ++ str_last last_exception))
  | attempt :: rest =>
      r <- try_except
             (log DEBUG ("Attempt " ++ str_of_nat (attempt + 1) ++ "/"
                           ++ str_of_nat (max_retries self) ++ " for "
                           ++ name) ;;
              a <- operation ;;
              ret (inl a))
             [(Exception_, fun e =>
                 let delay := retry_delay_base self * 2 ^ attempt in
                 log WARNING ("Attempt " ++ str_of_nat (attempt + 1)
                                ++ " failed: " ++ str e
                                ++ ". Retrying in " ++ str_of_nat delay
                                ++ "s...") ;;
                 sleep delay ;;
                 ret (inr e))] ;;
      match r with
      | inl a => ret a
      | inr e => retry_loop name operation rest (Some e)
      end
  end.

(** [name] is [operation.__name__]. *)
Definition _retry_operation {A} (name : string) (operation : M A) : M A :=
  retry_loop name operation (seq 0 (max_retries self)) None.

Definition _wait_and_find_element (b : By) (value : string)
           (timeout : option Z) : M element :=
  let wait_time :=
    match timeout with
    | Some t => if Z.eqb t 0 then wait_timeout self else t
    | None => wait_timeout self
    end in
  on_driver "find_element"
    (call_element env
       (WaitUntil wait_time (presence_of_element_located b value))).

Definition click_operation (element : element) : M unit :=
  try_except
    (click env element)
    [(ElementClickInterceptedException, fun _ =>
        execute_script env "arguments[0].click();" element)].

Definition _safe_click (element : element) : M unit :=
  _retry_operation "click_operation" (click_operation element).

Definition captcha_selectors : list string :=
  [ "iframe[src*='recaptcha']";
    ".g-recaptcha";
    "#recaptcha";
    ".captcha";
    "iframe[title*='captcha']";
    "iframe[title*='challenge']" ].

Fixpoint check_for_captcha_loop (selectors : list string) : M bool :=
  match selectors with
  | [] => ret false
  | selector :: rest =>
      detected <-
        try_except
          (elements <- find_elements env By_CSS_SELECTOR selector ;;
           match elements with
           | [] => ret false
           | _ :: _ =>
               log WARNING
                   ("CAPTCHA detected using selector: " ++ selector) ;;
               ret true
           end)
          [(Exception_, fun _ => ret false)] ;;
      if detected then ret true else check_for_captcha_loop rest
  end.

Definition _check_for_captcha : M bool :=
  check_for_captcha_loop captcha_selectors.

Definition _handle_captcha_if_present : M unit :=
  detected <- _check_for_captcha ;;
  if detected then
    log WARNING "CAPTCHA detected! Manual intervention required." ;;
    if negb (headless self) then
      log INFO "Please solve the CAPTCHA manually in the browser window." ;;
      _ <- input env "Press Enter after solving the CAPTCHA to continue..." ;;
      ret tt
    else
      raise (mk_exn CaptchaDetectedException
               "CAPTCHA detected in headless mode. Please run with --no-headless flag.")
  else ret tt.

Definition login_url : string := "https://trello.com/login".

(** The body of [login]'s [try], in the order of the source: open the
    page and check for a challenge; user name, continue button and
    password; check again; submit and wait for the landing page. *)
Definition login_open : M unit :=
  log INFO "Starting Trello login process" ;;
  driver_get env login_url ;;
  log INFO "Navigated to Trello login page".

Definition login_enter_credentials : M unit :=
  username_input <- _wait_and_find_element By_ID "username" None ;;
  clear env username_input ;;
  send_keys env username_input (username (credentials self)) ;;
  log INFO "Username entered successfully" ;;
  try_except
    (continue_btn <- find_element env By_ID "login-submit" ;;
     _safe_click continue_btn ;;
     sleep 2)
    [(NoSuchElementException, fun _ =>
        log DEBUG "Continue button not found, proceeding with password")] ;;
  password_input <- _wait_and_find_element By_ID "password" None ;;
  clear env password_input ;;
  send_keys env password_input (password (credentials self)) ;;
  log INFO "Password entered successfully".

Definition login_submit : M unit :=
  login_button <- _wait_and_find_element By_ID "login-submit" None ;;
  _safe_click login_button ;;
  try_except
    (wait_until env login_landed ;;
     log INFO "Login successful!")
    [(TimeoutException, fun _ =>
        url <- current_url env ;;
        if contains "login" url then
          let error_msg :=
            "Login appears to have failed - still on login page" in
          log ERROR error_msg ;;
          raise (mk_exn TrelloProvisioningError error_msg)
        else
          log INFO "Login appears successful (page changed)")].

Definition login_body : M unit :=
  login_open ;;
  _handle_captcha_if_present ;;
  login_enter_credentials ;;
  _handle_captcha_if_present ;;
  login_submit.

Definition login : M unit :=
  try_except login_body
    [(CaptchaDetectedException, fun e => raise e);
     (Exception_, fun e =>
        let error_msg := "Login failed: " ++ str e in
        log ERROR error_msg ;;
        raise (mk_exn TrelloProvisioningError error_msg))].

(** The ordered-fallback loop that the source writes out four times:
<<
    for selector in selectors:
        try:
            el = self.driver.find_element(By.XPATH, selector)
            act(el); found = True; logging.info(...); break
        except NoSuchElementException:
            continue
>>
    [act] is [_safe_click] or clear-and-type, [found_msg] the message
    logged; [try_selector] is the body of the [try].  The result is
    the element acted on, [None] when [found] stays [False]. *)
Definition try_selector (act : element -> M unit)
           (found_msg : string -> string) (selector : string)
  : M (option element) :=
  el <- find_element env By_XPATH selector ;;
  act el ;;
  log INFO (found_msg selector) ;;
  ret (Some el).

Fixpoint fallback_search (act : element -> M unit)
         (found_msg : string -> string) (selectors : list string)
  : M (option element) :=
  match selectors with
  | [] => ret None
  | selector :: rest =>
      found <-
        try_except (try_selector act found_msg selector)
          [(NoSuchElementException, fun _ => ret None)] ;;
      match found with
      | Some el => ret (Some el)
      | None => fallback_search act found_msg rest
      end
  end.

Definition is_some {A} (o : option A) : bool :=
  match o with Some _ => true | None => false end.

Definition workspace_selectors (workspace_name : string) : list string :=
  [ "//a[contains(text(), '" ++ workspace_name ++ "')]";
    "//div[contains(text(), '" ++ workspace_name ++ "')]";
    "//span[contains(text(), '" ++ workspace_name ++ "')]";
    "//*[@data-testid='workspace-name'][contains(text(), '"
      ++ workspace_name ++ "')]";
    "//*[contains(@class, 'workspace')]//*[contains(text(), '"
      ++ workspace_name ++ "')]" ].

Definition boards_url : string := "https://trello.com/boards".

(** The search on the current page. *)
Definition workspace_search (workspace_name : string)
  : M (option element) :=
  fallback_search _safe_click
    (fun selector =>
       "Workspace '" ++ workspace_name
         ++ "' found and clicked using selector: " ++ selector)
    (workspace_selectors workspace_name).

(** The second [try] of [navigate_to_workspace]: the boards view. *)
Definition workspace_search_boards (workspace_name : string) : M bool :=
  try_except
    (driver_get env boards_url ;;
     sleep 3 ;;
     found <- fallback_search _safe_click
                (fun _ => "Workspace found in boards view")
                (workspace_selectors workspace_name) ;;
     ret (is_some found))
    [(Exception_, fun e =>
        log WARNING ("Failed to navigate to boards view: " ++ str e) ;;
        ret false)].

(** What follows the search on the current page. *)
Definition navigate_finish (workspace_name : string)
           (found : option element) : M unit :=
  workspace_found <-
    (if is_some found then ret true
     else workspace_search_boards workspace_name) ;;
  (if negb workspace_found then
     let error_msg :=
       "Workspace '" ++ workspace_name ++ "' not found" in
     log ERROR error_msg ;;
     raise (mk_exn TrelloProvisioningError error_msg)
   else ret tt) ;;
  sleep 3 ;;
  log INFO ("Successfully navigated to workspace: " ++ workspace_name).

Definition navigate_to_workspace (workspace_name : string) : M unit :=
  try_except
    (log INFO ("Navigating to workspace: " ++ workspace_name) ;;
     found <- workspace_search workspace_name ;;
     navigate_finish workspace_name found)
    [(Exception_, fun e =>
        let error_msg :=
          "Failed to navigate to workspace '" ++ workspace_name
            ++ "': " ++ str e in
        log ERROR error_msg ;;
        raise (mk_exn TrelloProvisioningError error_msg))].

Definition invite_selectors : list string :=
  [ "//button[contains(text(), 'Invite')]";
    "//button[contains(text(), 'Members')]";
    "//a[contains(text(), 'Invite')]";
    "//*[@data-testid='invite-button']";
    "//*[@data-testid='members-button']";
    "//button[contains(@class, 'invite')]";
    "//button[contains(@title, 'Invite')]";
    "//*[contains(@class, 'workspace-header')]//*[contains(text(), 'Invite')]" ].

Definition email_selectors : list string :=
  [ "//input[@placeholder*='email']";
    "//input[@id*='email']";
    "//input[@name*='email']";
    "//input[@type='email']";
    "//*[@data-testid='invite-email-input']";
    "//textarea[contains(@placeholder, 'email')]" ].

Definition submit_selectors : list string :=
  [ "//button[contains(text(), 'Send')]";
    "//button[contains(text(), 'Invite')]";
    "//button[@type='submit']";
    "//*[@data-testid='send-invite-button']";
    "//input[@type='submit']" ].

Definition invite_search : M (option element) :=
  fallback_search _safe_click
    (fun selector => "Invite button clicked using selector: " ++ selector)
    invite_selectors.

(** What the second loop does with a located element. *)
Definition fill_email (email : string) (email_input : element) : M unit :=
  clear env email_input ;;
  send_keys env email_input email.

Definition email_search (email : string) : M (option element) :=
  fallback_search (fill_email email)
    (fun selector => "Email entered using selector: " ++ selector)
    email_selectors.

Definition submit_search : M (option element) :=
  fallback_search _safe_click
    (fun selector => "Invite sent using submit button: " ++ selector)
    submit_selectors.

(** [raise TrelloProvisioningError(error_msg)] after logging it. *)
Definition fail_with (error_msg : string) : M unit :=
  log ERROR error_msg ;;
  raise (mk_exn TrelloProvisioningError error_msg).

Definition add_new_user_body (email : string) : M unit :=
  log INFO ("Adding new user: " ++ email) ;;
  invite_button <- invite_search ;;
  (if negb (is_some invite_button)
   then fail_with "Could not find invite/members button"
   else ret tt) ;;
  sleep 2 ;;
  found_input <- email_search email ;;
  match found_input with
  | None => fail_with "Could not find email input field"
  | Some email_input =>
      submit_button <- submit_search ;;
      submit_button_found <-
        (if is_some submit_button then ret true
         else
           try_except
             (send_keys env email_input Keys_ENTER ;;
              log INFO "Invite sent using Enter key" ;;
              ret true)
             [(Exception_, fun _ => ret false)]) ;;
      (if negb submit_button_found
       then fail_with "Could not find submit button to send invitation"
       else ret tt) ;;
      sleep 3 ;;
      log INFO ("User invitation sent successfully for: " ++ email)
  end.

Definition add_new_user (email : string) : M unit :=
  try_except (add_new_user_body email)
    [(Exception_, fun e =>
        let error_msg :=
          "Failed to add user '" ++ email ++ "': " ++ str e in
        log ERROR error_msg ;;
        raise (mk_exn TrelloProvisioningError error_msg))].

Definition user_verification_selectors (email : string) : list string :=
  [ "//*[contains(text(), '" ++ email ++ "')]";
    "//span[contains(@title, '" ++ email ++ "')]";
    "//*[@data-testid='member'][contains(., '" ++ email ++ "')]";
    "//*[contains(@class, 'member')][contains(., '" ++ email ++ "')]" ].

Definition success_selectors : list string :=
  [ "//*[contains(text(), 'invited')]";
    "//*[contains(text(), 'sent')]";
    "//*[contains(text(), 'added')]";
    "//*[contains(@class, 'success')]" ].

(** First loop of [verify_user_added]: [true] is its [return True]. *)
Fixpoint verify_user_loop (email : string) (selectors : list string)
  : M bool :=
  match selectors with
  | [] => ret false
  | selector :: rest =>
      verified <-
        try_except
          (user_elements <- find_elements env By_XPATH selector ;;
           match user_elements with
           | [] => ret false
           | _ :: _ =>
               log INFO ("User '" ++ email
                           ++ "' verified successfully using selector: "
                           ++ selector) ;;
               ret true
           end)
          [(NoSuchElementException, fun _ => ret false)] ;;
      if verified then ret true else verify_user_loop email rest
  end.

(** Second loop: the success messages, under a bare [except]. *)
Fixpoint verify_success_loop (selectors : list string) : M bool :=
  match selectors with
  | [] => ret false
  | selector :: rest =>
      verified <-
        try_except
          (success_elements <- find_elements env By_XPATH selector ;;
           match success_elements with
           | [] => ret false
           | first :: _ =>
               text <- text_of env first ;;
               log INFO ("Success message found: " ++ text) ;;
               ret true
           end)
          [(Exception_, fun _ => ret false)] ;;
      if verified then ret true else verify_success_loop rest
  end.

Definition verify_user_added_body (email : string) : M bool :=
  log INFO ("Verifying user addition: " ++ email) ;;
  verified <- verify_user_loop email (user_verification_selectors email) ;;
  if verified then ret true
  else
    verified <- verify_success_loop success_selectors ;;
    if verified then ret true
    else
      log WARNING ("Could not verify user '" ++ email ++ "' was added") ;;
      ret false.

Definition verify_user_added (email : string) : M bool :=
  try_except (verify_user_added_body email)
    [(Exception_, fun e =>
        log ERROR ("Error during user verification: " ++ str e) ;;
        ret false)].

Definition cleanup : M unit :=
  fun st =>
    match driver st with
    | Some _ =>
        try_except
          (driver_quit env ;;
           log INFO "WebDriver closed successfully")
          [(Exception_, fun e =>
              log WARNING ("Error closing WebDriver: " ++ str e))] st
    | None => (Ok tt, st)
    end.

(** The five steps inside the [try] of [run_provisioning]. *)
Definition workflow (email workspace : string) : M bool :=
  _setup_driver ;;
  login ;;
  navigate_to_workspace workspace ;;
  add_new_user email ;;
  success <- verify_user_added email ;;
  (if success then
     log INFO (string_repeat "=" 60) ;;
     log INFO "PROVISIONING COMPLETED SUCCESSFULLY!" ;;
     log INFO ("User '" ++ email ++ "' has been invited to workspace '"
                 ++ workspace ++ "'") ;;
     log INFO (string_repeat "=" 60)
   else
     log WARNING "Provisioning completed but user verification failed") ;;
  ret success.

Definition run_provisioning (email workspace : string) : M bool :=
  try_finally
    (try_except (workflow email workspace)
       [(CaptchaDetectedException, fun e =>
           log ERROR ("CAPTCHA intervention required: " ++ str e) ;;
           ret false);
        (TrelloProvisioningError, fun e =>
           log ERROR ("Provisioning failed: " ++ str e) ;;
           ret false);
        (Exception_, fun e =>
           log ERROR ("Unexpected error during provisioning: " ++ str e) ;;
           ret false)])
    cleanup.

End Methods.

(** What [parser.parse_args()] hands to [main]: the four options, with
    their defaults when not given. *)
Record Namespace : Type := mk_args {
  no_headless : bool;
  email : string;
  workspace : string;
  timeout : Z;
}.

Definition default_args : Namespace :=
  mk_args false "newuser@example.com" "Project X" 10.

(** [main], from the parsed arguments on.  The value is the status it
    passes to [sys.exit]; an exception of the constructor is not caught
    and leaves [main]. *)
Definition main (env : Env) (args : Namespace) : M nat :=
  provisioning <- __init__ env (negb (no_headless args)) (timeout args) ;;
  success <- run_provisioning env provisioning (email args) (workspace args) ;;
  ret (if success then 0 else 1).

End TrelloProvisioning.

(** * part_000: class [TrelloUserProvisioning] *)

Module TrelloUserProvisioning.

(** The fields [__init__] assigns once.  The module itself, before any
    object is built, insists on a [.env] file and loads it. *)
Record self_t : Type := mk_self {
  headless : bool;
  timeout : Z;
  base_url : string;
  login_url : string;
  username : string;
  password : string;
  workspace_name : string;
  new_user_email : string;
  new_user_role : string;
}.

Section Methods.

Variable env : Env.

Definition __init__ (headless : bool) (timeout : Z) : M self_t :=
  set_driver None ;;
  set_wait None ;;
  let base_url := "https://trello.com" in
  let login_url := base_url ++ "/login" in
  username <- getenv env "TRELL_USERNAME" ;;
  password <- getenv env "TRELL_PASSWORD" ;;
  match truthy username, truthy password with
  | Some username, Some password =>
      ret (mk_self headless timeout base_url login_url username password
                   "Project X" "newuser@example.com" "Member")
  | _, _ =>     (* [if not self.username or not self.password] *)
      raise (mk_exn ValueError
               "TRELL_USERNAME or TRELL_PASSWORD missing in .env file.")
  end.

Variable self : self_t.

(** The [for attempt in range(max_attempts)] loop of [retry_action]. *)
Fixpoint retry_action_loop {A} (action : M A) (max_attempts delay : nat)
         (attempts : list nat) : M A :=
  match attempts with
  | [] =>
      raise (mk_exn Exception_
               ("Failed after " ++ str_of_nat max_attempts ++ " attempts"))
  | attempt :: rest =>
      let handler (e : exn) : M (option A) :=
        log WARNING ("Attempt " ++ str_of_nat (attempt + 1)
                       ++ " failed: " ++ str e) ;;
        sleep (delay * 2 ^ attempt) ;;
        ret None in
      r <- try_except
             (a <- action ;; ret (Some a))
             [(TimeoutException, handler);
              (StaleElementReferenceException, handler);
              (ElementClickInterceptedException, handler)] ;;
      match r with
      | Some a => ret a
      | None => retry_action_loop action max_attempts delay rest
      end
  end.

Definition retry_action {A} (action : M A) (max_attempts delay : nat)
  : M A :=
  retry_action_loop action max_attempts delay (seq 0 max_attempts).

Definition click_script : string := "arguments[0].click();".

(** [retry_action(lambda: self.wait.until(EC.element_to_be_clickable(
    (By.CSS_SELECTOR, value))))] with the default 3 attempts, delay 2. *)
Definition await_clickable (value : string) : M element :=
  retry_action
    (wait_until_element env (element_to_be_clickable By_CSS_SELECTOR value))
    3 2.

Definition add_new_user : M bool :=
  log INFO ("Adding user: " ++ new_user_email self) ;;
  try_except
    (invite_button <-
       await_clickable "[data-testid='invite-to-workspace-button']" ;;
     execute_script env click_script invite_button ;;
     email_input <-
       await_clickable "[data-testid='invite-to-workspace-email-input']" ;;
     clear env email_input ;;
     send_keys env email_input (new_user_email self) ;;
     submit_button <-
       await_clickable "[data-testid='invite-to-workspace-submit']" ;;
     execute_script env click_script submit_button ;;
     log INFO "User invitation sent" ;;
     ret true)
    [(Exception_, fun e =>
        log ERROR ("Failed to add user: " ++ str e) ;;
        ret false)].

Definition member_xpath : string :=
  "//div[contains(@class, 'member-list')]//span[contains(translate(text(), 'ABCDEFGHIJKLMNOPQRSTUVWXYZ', 'abcdefghijklmnopqrstuvwxyz'), '"
    ++ lower (new_user_email self) ++ "')]".

(** The [for _ in range(3)] loop of [verify_user_addition]; [true] is
    its [return True]. *)
Fixpoint verify_loop (attempts : nat) : M bool :=
  match attempts with
  | 0 => ret false
  | S rest =>
      verified <-
        try_except
          (_ <- wait_until_element env
                  (presence_of_element_located By_XPATH member_xpath) ;;
           log INFO ("User " ++ new_user_email self
                       ++ " verified in member list") ;;
           ret true)
          [(TimeoutException, fun _ => sleep 2 ;; ret false)] ;;
      if verified then ret true else verify_loop rest
  end.

Definition verify_user_addition : M bool :=
  log INFO ("Verifying user: " ++ new_user_email self) ;;
  try_except
    (verified <- verify_loop 3 ;;
     if verified then ret true
     else
       log WARNING ("Could not verify " ++ new_user_email self
                      ++ " in member list") ;;
       ret false)
    [(Exception_, fun e =>
        log ERROR ("Verification failed: " ++ str e) ;;
        ret false)].

Definition workspace_xpath : string :=
  "//span[contains(translate(text(), 'ABCDEFGHIJKLMNOPQRSTUVWXYZ', 'abcdefghijklmnopqrstuvwxyz'), '"
    ++ lower (workspace_name self) ++ "')]".

(** [self.wait.until(EC.element_to_be_clickable((by, value)))] followed by
    the JavaScript click on what it returns. *)
Definition await_and_click (b : By) (value : string) : M unit :=
  button <- wait_until_element env (element_to_be_clickable b value) ;;
  execute_script env click_script button.

Definition navigate_to_workspace_settings : M bool :=
  log INFO ("Navigating to '" ++ workspace_name self ++ "' settings...") ;;
  try_except
    (_ <- wait_until_element env
            (presence_of_element_located By_CSS_SELECTOR
               "[data-testid='header']") ;;
     await_and_click By_CSS_SELECTOR
       "[data-testid='header-workspace-switcher-button']" ;;
     await_and_click By_XPATH workspace_xpath ;;
     await_and_click By_CSS_SELECTOR
       "[data-testid='workspace-navigation-members-tab']" ;;
     log INFO "Reached workspace members section" ;;
     ret true)
    [(TimeoutException, fun _ =>
        log ERROR "Timeout during workspace navigation" ;;
        ret false);
     (Exception_, fun e =>
        log ERROR ("Navigation failed: " ++ str e) ;;
        ret false)].

Definition cleanup : M unit :=
  log INFO "Cleaning up..." ;;
  try_finally
    (try_except
       (fun st =>
          match driver st with
          | Some _ =>
              (driver_quit env ;; log INFO "Browser closed") st
          | None => (Ok tt, st)
          end)
       [(Exception_, fun e => log ERROR ("Cleanup failed: " ++ str e))])
    (set_driver None ;; set_wait None).

End Methods.

End TrelloUserProvisioning.

(** * Vocabulary of the properties *)

(** A computation that returns a value from every state. *)
Definition never_raises {A} (m : M A) : Prop :=
  forall st, exists a st', m st = (Ok a, st').

(** [quiet ok st st']: from [st] to [st'] the two fields are untouched and
    only calls accepted by [ok] were made. *)
Definition quiet (ok : event -> bool) (st st' : state) : Prop :=
  driver st' = driver st /\ wait st' = wait st /\
  exists evs, trace st' = (trace st ++ evs)%list /\ forallb ok evs = true.

Definition respects {A} (R : state -> state -> Prop) (m : M A) : Prop :=
  forall st, R st (snd (m st)).

(** ** The retry helpers *)

(** The numbers slept for, in order. *)
Definition sleeps (evs : list event) : list nat :=
  flat_map (fun ev => match ev with Sleep n => [n] | _ => [] end) evs.

Definition not_sleep (ev : event) : bool := negb (is_sleep ev).

(** [_retry_operation]: the state in which attempt [attempt] invokes the
    operation (the debug line is out), and the state once its failure [e]
    has been logged and slept on. *)
Definition tp_before_attempt (self : TrelloProvisioning.self_t)
           (name : string) (attempt : nat) (st : state) : state :=
  emit (Log DEBUG ("Attempt " ++ str_of_nat (attempt + 1) ++ "/"
                     ++ str_of_nat (TrelloProvisioning.max_retries self)
                     ++ " for " ++ name)) st.

Definition tp_after_failure (self : TrelloProvisioning.self_t)
           (attempt : nat) (e : exn) (st : state) : state :=
  let delay := TrelloProvisioning.retry_delay_base self * 2 ^ attempt in
  emit (Sleep delay)
    (emit (Log WARNING ("Attempt " ++ str_of_nat (attempt + 1)
                          ++ " failed: " ++ str e ++ ". Retrying in "
                          ++ str_of_nat delay ++ "s...")) st).

(** [tp_fails self name operation attempt st es st']: from attempt number
    [attempt] in state [st], the operation fails [length es] times in a
    row, raising [es] in that order, whatever their classes; [st'] is the
    state after the last failure was slept on. *)
Inductive tp_fails {A} (self : TrelloProvisioning.self_t) (name : string)
          (operation : M A) : nat -> state -> list exn -> state -> Prop :=
| tp_fails_nil attempt st : tp_fails self name operation attempt st [] st
| tp_fails_cons attempt st e st1 es st2 :
    operation (tp_before_attempt self name attempt st) = (Raise e, st1) ->
    tp_fails self name operation (S attempt)
             (tp_after_failure self attempt e st1) es st2 ->
    tp_fails self name operation attempt st (e :: es) st2.

(** The last exception of a run of failures, [d] when there is none. *)
Definition last_exception (es : list exn) (d : option exn) : option exn :=
  fold_left (fun _ e => Some e) es d.

Definition tp_error_msg (self : TrelloProvisioning.self_t) (name : string)
  : string :=
  "Operation " ++ name ++ " failed after "
    ++ str_of_nat (TrelloProvisioning.max_retries self) ++ " attempts".

(** The classes [retry_action] of part_000 retries on. *)
Definition is_transient (e : exn) : bool :=
  isinstance e TimeoutException
  || isinstance e StaleElementReferenceException
  || isinstance e ElementClickInterceptedException.

Definition tup_after_failure (delay attempt : nat) (e : exn) (st : state)
  : state :=
  emit (Sleep (delay * 2 ^ attempt))
    (emit (Log WARNING ("Attempt " ++ str_of_nat (attempt + 1)
                          ++ " failed: " ++ str e)) st).

(** The same for [retry_action], every failure being a transient one. *)
Inductive tup_fails {A} (action : M A) (delay : nat)
  : nat -> state -> list exn -> state -> Prop :=
| tup_fails_nil attempt st : tup_fails action delay attempt st [] st
| tup_fails_cons attempt st e st1 es st2 :
    action st = (Raise e, st1) ->
    is_transient e = true ->
    tup_fails action delay (S attempt)
              (tup_after_failure delay attempt e st1) es st2 ->
    tup_fails action delay attempt st (e :: es) st2.

(** The backoff after failure [i] is [base * 2 ^ i]. *)
Definition backoff (base first count : nat) : list nat :=
  map (fun i => base * 2 ^ i) (seq first count).

(** ** Concrete worlds and objects used in the examples *)

Definition count_calls (p : event -> bool) (tr : list event) : nat :=
  length (filter p tr).

Definition is_click (ev : event) : bool :=
  match ev with Click _ => true | _ => false end.

Definition is_wait_until (ev : event) : bool :=
  match ev with WaitUntil _ _ => true | _ => false end.

Definition no_such_element : exn :=
  mk_exn NoSuchElementException "no such element".

(** A page with nothing on it and a browser that obeys. *)
Definition empty_page : Env :=
  mk_env (fun _ _ => None)
         (fun _ _ => Raise no_such_element)
         (fun _ _ => Ok [])
         (fun _ _ => Ok "")
         (fun _ => None).

(** An object as [__init__] leaves it, and a session as [_setup_driver]
    leaves it. *)
Definition example_self : TrelloProvisioning.self_t :=
  TrelloProvisioning.mk_self true 10 3 1
    (TrelloProvisioning.mk_credentials "admin@example.com" "secret").

Definition example_user : TrelloUserProvisioning.self_t :=
  TrelloUserProvisioning.mk_self true 30 "https://trello.com"
    "https://trello.com/login" "admin@example.com" "secret"
    "Project X" "newuser@example.com" "Member".

Definition started : state :=
  mk_state (Some (Chrome true)) (Some (mk_wait 10)) [].

Definition fresh : state := mk_state None None [].

(** Clicking fails with [e] as long as fewer than [n] clicks were tried. *)
Definition click_fails (n : nat) (e : exn) : Env :=
  mk_env (fun tr ev =>
            if is_click ev && Nat.ltb (count_calls is_click tr) n
            then Some e else None)
         (fun _ _ => Raise no_such_element)
         (fun _ _ => Ok [])
         (fun _ _ => Ok "")
         (fun _ => None).

(** Waiting times out with [e] as long as fewer than [n] waits were tried;
    then element 7 is there. *)
Definition wait_fails (n : nat) (e : exn) : Env :=
  mk_env (fun _ _ => None)
         (fun tr ev =>
            if is_wait_until ev
            then if Nat.ltb (count_calls is_wait_until tr) n then Raise e else Ok 7
            else Raise no_such_element)
         (fun _ _ => Ok [])
         (fun _ _ => Ok "")
         (fun _ => None).

Definition stale : exn :=
  mk_exn StaleElementReferenceException "stale element reference".

Definition invalid_session : exn :=
  mk_exn WebDriverException "invalid session id".

Definition timed_out : exn :=
  mk_exn TimeoutException "element not clickable in time".

Definition invite_button_clickable : condition :=
  element_to_be_clickable By_CSS_SELECTOR
    "[data-testid='invite-to-workspace-button']".

(** The member never shows: every wait times out. *)
Definition never_there : Env :=
  mk_env (fun _ _ => None)
         (fun _ _ => Raise timed_out)
         (fun _ _ => Ok [])
         (fun _ _ => Ok "")
         (fun _ => None).

(** A browser that refuses to quit. *)
Definition quit_fails : Env :=
  mk_env (fun _ ev => if is_quit ev then Some invalid_session else None)
         (fun _ _ => Raise no_such_element)
         (fun _ _ => Ok [])
         (fun _ _ => Ok "")
         (fun _ => None).

(** Only the user name is set; and the password is set but empty. *)
Definition only_username : Env :=
  mk_env (fun _ _ => None)
         (fun _ _ => Raise no_such_element)
         (fun _ _ => Ok [])
         (fun _ _ => Ok "")
         (fun name =>
            if String.eqb name "TRELLO_USERNAME" then Some "admin@example.com"
            else if String.eqb name "TRELL_USERNAME" then Some "admin@example.com"
            else if String.eqb name "TRELLO_PASSWORD" then Some ""
            else None).

Definition not_browser_call (ev : event) : bool := negb (is_browser_call ev).

Definition credentials_error : exn :=
  mk_exn TrelloProvisioningError
         "TRELLO_USERNAME and TRELLO_PASSWORD must be set in .env file".

Definition credentials_value_error : exn :=
  mk_exn ValueError "TRELL_USERNAME or TRELL_PASSWORD missing in .env file.".

(** ** The ordered-fallback searches *)

(** [st] after the calls [evs], in order. *)
Definition extend (evs : list event) (st : state) : state :=
  mk_state (driver st) (wait st) (trace st ++ evs)%list.

Definition lookups (selectors : list string) : list event :=
  map (FindElement By_XPATH) selectors.

(** [find_element] answered element-not-found. *)
Definition is_miss (r : result element) : bool :=
  match r with
  | Raise e => isinstance e NoSuchElementException
  | Ok _ => false
  end.

(** [misses env tr selectors]: looked up one after the other from history
    [tr], none of [selectors] matches: each lookup raises
    [NoSuchElementException]. *)
Fixpoint misses (env : Env) (tr : list event) (selectors : list string)
  : bool :=
  match selectors with
  | [] => true
  | selector :: rest =>
      is_miss (env_element env tr (FindElement By_XPATH selector))
      && misses env (tr ++ [FindElement By_XPATH selector])%list rest
  end.

Definition not_find_element (ev : event) : bool :=
  match ev with FindElement _ _ => false | _ => true end.

(** The call returned, or raised something other than element-not-found. *)
Definition not_missing (r : option exn) : bool :=
  match r with
  | Some e => negb (isinstance e NoSuchElementException)
  | None => true
  end.

(** Clearing [el] and typing [email] into it from history [tr] does not
    end in element-not-found. *)
Definition fill_not_missing (env : Env) (tr : list event) (el : element)
           (email : string) : bool :=
  match env_unit env tr (Clear el) with
  | Some e => negb (isinstance e NoSuchElementException)
  | None => not_missing (env_unit env (tr ++ [Clear el])%list (SendKeys el email))
  end.

(** The fill returned. *)
Definition fill_returns (env : Env) (tr : list event) (el : element)
           (email : string) : bool :=
  match env_unit env tr (Clear el) with
  | Some _ => false
  | None =>
      match env_unit env (tr ++ [Clear el])%list (SendKeys el email) with
      | Some _ => false
      | None => true
      end
  end.

(** A fake DOM in which exactly the XPath [selector] matches, element
    [el]; every call on an element returns. *)
Definition only_selector (selector : string) (el : element) : Env :=
  mk_env (fun _ _ => None)
         (fun _ ev =>
            match ev with
            | FindElement By_XPATH v =>
                if String.eqb v selector then Ok el
                else Raise no_such_element
            | _ => Raise no_such_element
            end)
         (fun _ _ => Ok [])
         (fun _ _ => Ok "")
         (fun _ => None).

Definition third_invite_selector : string := "//a[contains(text(), 'Invite')]".

(** [starts_at ok pfx m st]: the calls [m] makes from [st] begin with
    [pfx], and those that follow are accepted by [ok]; [starts_with]:
    whatever the state. *)
Definition starts_at {A} (ok : event -> bool) (pfx : list event) (m : M A)
           (st : state) : Prop :=
  exists evs,
    trace (snd (m st)) = (trace st ++ pfx ++ evs)%list
    /\ forallb ok evs = true.

Definition starts_with {A} (ok : event -> bool) (pfx : list event) (m : M A)
  : Prop :=
  forall st, starts_at ok pfx m st.

Definition not_quit (ev : event) : bool := negb (is_quit ev).


(** The debug line before the first attempt of [_safe_click]. *)
Definition first_click_attempt (self : TrelloProvisioning.self_t) : event :=
  Log DEBUG ("Attempt 1/" ++ str_of_nat (TrelloProvisioning.max_retries self)
               ++ " for click_operation").

Definition third_email_selector : string := "//input[@name*='email']".

Definition invite_found_msg (selector : string) : string :=
  "Invite button clicked using selector: " ++ selector.

Definition email_found_msg (selector : string) : string :=
  "Email entered using selector: " ++ selector.

(** The first email selector matches element 7 and the second element 8,
    but clearing element 7 answers element-not-found. *)
Definition clear_not_found : Env :=
  mk_env (fun _ ev => match ev with
                      | Clear 7 => Some no_such_element
                      | _ => None
                      end)
         (fun _ ev => match ev with
                      | FindElement By_XPATH "//input[@placeholder*='email']"
                        => Ok 7
                      | FindElement By_XPATH "//input[@id*='email']" => Ok 8
                      | _ => Raise no_such_element
                      end)
         (fun _ _ => Ok [])
         (fun _ _ => Ok "")
         (fun _ => None).

Definition is_find_element (ev : event) : bool :=
  match ev with FindElement _ _ => true | _ => false end.

(** The first [n] lookups miss; the next ones fail with [e]. *)
Definition lookup_breaks (n : nat) (e : exn) : Env :=
  mk_env (fun _ _ => None)
         (fun tr ev =>
            if Nat.ltb (count_calls is_find_element tr) n
            then Raise no_such_element else Raise e)
         (fun _ _ => Ok [])
         (fun _ _ => Ok "")
         (fun _ => None).

(** The error a step raises for what went wrong inside it. *)
Definition navigate_error (workspace_name : string) (e : exn) : exn :=
  mk_exn TrelloProvisioningError
         ("Failed to navigate to workspace '" ++ workspace_name ++ "': "
            ++ str e).

Definition add_user_error (email : string) (e : exn) : exn :=
  mk_exn TrelloProvisioningError
         ("Failed to add user '" ++ email ++ "': " ++ str e).

Definition workspace_not_found (workspace_name : string) : exn :=
  mk_exn TrelloProvisioningError
         ("Workspace '" ++ workspace_name ++ "' not found").

(** [st] once the error [e] of a step has been logged. *)
Definition logged_error (e : exn) (st : state) : state :=
  emit (Log ERROR (str e)) st.

(** Logging in works, no challenge is shown, and no workspace selector
    ever matches. *)
Definition no_workspace : Env :=
  mk_env (fun _ _ => None)
         (fun _ ev =>
            match ev with
            | WaitUntil _ _ => Ok 1
            | FindElement By_ID _ => Ok 2
            | _ => Raise no_such_element
            end)
         (fun _ _ => Ok [])
         (fun _ _ => Ok "")
         (fun _ => None).

(** The line [run_provisioning] logs for an exception of the workflow:
    its three [except] clauses, in order. *)
Definition report (e : exn) : string :=
  if isinstance e CaptchaDetectedException
  then "CAPTCHA intervention required: " ++ str e
  else if isinstance e TrelloProvisioningError
       then "Provisioning failed: " ++ str e
       else "Unexpected error during provisioning: " ++ str e.

Definition always (ev : event) : bool := true.

(** The state [run_provisioning] reaches in world [no_workspace] once the
    driver is set up, and once logged in. *)
Definition after_setup : state :=
  snd (TrelloProvisioning._setup_driver no_workspace example_self fresh).

Definition after_login : state :=
  snd (TrelloProvisioning.login no_workspace example_self after_setup).

(** ** Challenges *)

Definition captcha_blocked : exn :=
  mk_exn CaptchaDetectedException
         "CAPTCHA detected in headless mode. Please run with --no-headless flag.".

Definition captcha_warning : event :=
  Log WARNING "CAPTCHA detected! Manual intervention required.".

Definition captcha_instructions : event :=
  Log INFO "Please solve the CAPTCHA manually in the browser window.".

Definition captcha_prompt : string :=
  "Press Enter after solving the CAPTCHA to continue...".

(** Like [no_workspace], with a reCAPTCHA widget on every page. *)
Definition captcha_page : Env :=
  mk_env (fun _ _ => None)
         (fun _ ev =>
            match ev with
            | WaitUntil _ _ => Ok 1
            | FindElement By_ID _ => Ok 2
            | _ => Raise no_such_element
            end)
         (fun _ ev =>
            match ev with
            | FindElements By_CSS_SELECTOR ".g-recaptcha" => Ok [9]
            | _ => Ok []
            end)
         (fun _ _ => Ok "")
         (fun _ => None).

Definition example_visible : TrelloProvisioning.self_t :=
  TrelloProvisioning.mk_self false 10 3 1
    (TrelloProvisioning.mk_credentials "admin@example.com" "secret").

Definition is_password_entry (ev : event) : bool :=
  match ev with
  | SendKeys _ text => String.eqb text "secret"
  | _ => false
  end.

(** The widget shows up only once the password has been typed. *)
Definition captcha_after_password : Env :=
  mk_env (fun _ _ => None)
         (fun _ ev =>
            match ev with
            | WaitUntil _ _ => Ok 1
            | FindElement By_ID _ => Ok 2
            | _ => Raise no_such_element
            end)
         (fun tr ev =>
            match ev with
            | FindElements By_CSS_SELECTOR ".g-recaptcha" =>
                if existsb is_password_entry tr then Ok [9] else Ok []
            | _ => Ok []
            end)
         (fun _ _ => Ok "")
         (fun _ => None).

Definition is_submission (ev : event) : bool :=
  match ev with
  | WaitUntil _ (presence_of_element_located By_ID "login-submit") => true
  | _ => false
  end.

(** Calls made while there is no browser yet: log lines, the driver
    download and the attempt to start Chrome. *)
Definition before_session (ev : event) : bool :=
  match ev with
  | Log _ _ | InstallChromeDriver | NewChrome _ => true
  | _ => false
  end.


(** ** What the verifiers look at *)

Definition is_find_elements (ev : event) : bool :=
  match ev with FindElements _ _ => true | _ => false end.

(** The calls of a single pass over a page: lookups by XPath and the text
    of what they find, besides log lines; in particular no sleep. *)
Definition single_pass (ev : event) : bool :=
  match ev with
  | Log _ _ | FindElements By_XPATH _ | ElementText _ => true
  | _ => false
  end.

Definition by_eqb (a b : By) : bool :=
  match a, b with
  | By_ID, By_ID | By_XPATH, By_XPATH | By_CSS_SELECTOR, By_CSS_SELECTOR => true
  | _, _ => false
  end.

(** The calls of part_000's poll: waits for the member in the member
    list, sleeps of two seconds and log lines. *)
Definition member_poll (user : TrelloUserProvisioning.self_t) (ev : event)
  : bool :=
  match ev with
  | Log _ _ => true
  | Sleep n => Nat.eqb n 2
  | WaitUntil _ (presence_of_element_located b value) =>
      by_eqb b By_XPATH
      && String.eqb value (TrelloUserProvisioning.member_xpath user)
  | _ => false
  end.

Definition find_all (selectors : list string) : list event :=
  map (FindElements By_XPATH) selectors.

(** One timed-out attempt of the poll. *)
Definition timed_out_attempt (user : TrelloUserProvisioning.self_t)
           (w : WebDriverWait) : list event :=
  [WaitUntil (wait_seconds w)
     (presence_of_element_located By_XPATH
        (TrelloUserProvisioning.member_xpath user));
   Sleep 2].

(** The member list never shows the new user, but the page says
    "invited". *)
Definition invited_banner : Env :=
  mk_env (fun _ _ => None)
         (fun _ _ => Raise timed_out)
         (fun _ ev =>
            match ev with
            | FindElements By_XPATH "//*[contains(text(), 'invited')]" => Ok [5]
            | _ => Ok []
            end)
         (fun _ _ => Ok "Invitation sent: user invited")
         (fun _ => None).

(** ** Vocabulary of the further properties *)

(** Both credentials set; and the same for part_000. *)
Definition with_credentials : Env :=
  mk_env (fun _ _ => None)
         (fun _ _ => Raise no_such_element)
         (fun _ _ => Ok [])
         (fun _ _ => Ok "")
         (fun name =>
            if String.eqb name "TRELLO_USERNAME" then Some "admin@example.com"
            else if String.eqb name "TRELL_USERNAME" then Some "admin@example.com"
            else if String.eqb name "TRELLO_PASSWORD" then Some "secret"
            else if String.eqb name "TRELL_PASSWORD" then Some "secret"
            else None).




(** The calls of the challenge check. *)
Definition captcha_lookup (ev : event) : bool :=
  match ev with
  | Log WARNING _ | FindElements By_CSS_SELECTOR _ => true
  | _ => false
  end.

(** A lookup that shows nothing: an empty list, or an exception. *)
Definition shows_nothing (r : result (list element)) : bool :=
  match r with
  | Ok (_ :: _) => false
  | _ => true
  end.

Definition css_lookups (selectors : list string) : list event :=
  map (FindElements By_CSS_SELECTOR) selectors.

(** A browser whose every lookup fails. *)
Definition broken_lookups : Env :=
  mk_env (fun _ _ => None)
         (fun _ _ => Raise invalid_session)
         (fun _ _ => Raise invalid_session)
         (fun _ _ => Ok "")
         (fun _ => None).

Definition login_error (cause : exn) : exn :=
  mk_exn TrelloProvisioningError ("Login failed: " ++ str cause).

Definition still_on_login_page : exn :=
  mk_exn TrelloProvisioningError
         "Login appears to have failed - still on login page".

(** The landing page never shows within the wait; the address bar reads
    [url]. *)
Definition never_lands (url : string) : Env :=
  mk_env (fun _ ev => match ev with
                      | WaitUntil _ login_landed => Some timed_out
                      | _ => None
                      end)
         (fun _ ev =>
            match ev with
            | WaitUntil _ _ => Ok 1
            | FindElement By_ID _ => Ok 2
            | _ => Raise no_such_element
            end)
         (fun _ _ => Ok [])
         (fun _ _ => Ok url)
         (fun _ => None).

Definition intercepted : exn :=
  mk_exn ElementClickInterceptedException "element click intercepted".

(** A banner covers every element: plain clicks are intercepted, clicks by
    script go through. *)
Definition covered_page : Env :=
  mk_env (fun _ ev => match ev with
                      | Click _ => Some intercepted
                      | _ => None
                      end)
         (fun _ _ => Raise no_such_element)
         (fun _ _ => Ok [])
         (fun _ _ => Ok "")
         (fun _ => None).

Definition is_execute_script (ev : event) : bool :=
  match ev with ExecuteScript _ _ => true | _ => false end.

(** [at_most p n st st']: from [st] to [st'] at most [n] calls accepted by
    [p] were made. *)
Definition at_most (p : event -> bool) (n : nat) (st st' : state) : Prop :=
  exists evs, trace st' = (trace st ++ evs)%list /\ count_calls p evs <= n.

Definition no_invite_button : exn :=
  mk_exn TrelloProvisioningError "Could not find invite/members button".

Definition no_email_input : exn :=
  mk_exn TrelloProvisioningError "Could not find email input field".

Definition no_submit_button : exn :=
  mk_exn TrelloProvisioningError
         "Could not find submit button to send invitation".

(** An invite button (element 3) and an email field (element 4), but no
    submit control; pressing the commit key fails with [enter] if given. *)
Definition form_without_submit (enter : option exn) : Env :=
  mk_env (fun _ ev =>
            match ev with
            | SendKeys _ text =>
                if String.eqb text Keys_ENTER then enter else None
            | _ => None
            end)
         (fun _ ev =>
            match ev with
            | FindElement By_XPATH "//*[@data-testid='invite-button']" => Ok 3
            | FindElement By_XPATH "//input[@type='email']" => Ok 4
            | _ => Raise no_such_element
            end)
         (fun _ _ => Ok [])
         (fun _ _ => Ok "")
         (fun _ => None).

(** Everything is there: the login goes through, the first selector of
    every search matches and the new member shows in the lists. *)
Definition happy_path : Env :=
  mk_env (fun _ _ => None)
         (fun _ _ => Ok 1)
         (fun _ ev =>
            match ev with
            | FindElements By_XPATH _ => Ok [6]
            | _ => Ok []
            end)
         (fun _ _ => Ok "https://trello.com/boards")
         (fun name =>
            if String.eqb name "TRELLO_USERNAME" then Some "admin@example.com"
            else if String.eqb name "TRELLO_PASSWORD" then Some "secret"
            else None).

(** The calls of part_000's navigation when everything shows: the header,
    then the switcher, the workspace link and the members tab, each waited
    for and clicked by script. *)
Definition settings_calls (user : TrelloUserProvisioning.self_t)
           (w : WebDriverWait) (switcher link tab : element) : list event :=
  [WaitUntil (wait_seconds w)
     (presence_of_element_located By_CSS_SELECTOR "[data-testid='header']");
   WaitUntil (wait_seconds w)
     (element_to_be_clickable By_CSS_SELECTOR
        "[data-testid='header-workspace-switcher-button']");
   ExecuteScript TrelloUserProvisioning.click_script switcher;
   WaitUntil (wait_seconds w)
     (element_to_be_clickable By_XPATH
        (TrelloUserProvisioning.workspace_xpath user));
   ExecuteScript TrelloUserProvisioning.click_script link;
   WaitUntil (wait_seconds w)
     (element_to_be_clickable By_CSS_SELECTOR
        "[data-testid='workspace-navigation-members-tab']");
   ExecuteScript TrelloUserProvisioning.click_script tab].

(** What part_000's navigation logs about the failure [e]. *)
Definition settings_error_msg (e : exn) : string :=
  if isinstance e TimeoutException
  then "Timeout during workspace navigation"
  else "Navigation failed: " ++ str e.

(** The header and the switcher show; the workspace is not in the list. *)
Definition workspace_not_listed : Env :=
  mk_env (fun _ _ => None)
         (fun _ ev =>
            match ev with
            | WaitUntil _ (element_to_be_clickable By_XPATH _) =>
                Raise timed_out
            | _ => Ok 1
            end)
         (fun _ _ => Ok [])
         (fun _ _ => Ok "")
         (fun _ => None).

(** What [retry_action] around the wait for the control [value] does:
    waits for that control to be clickable, sleeps and log lines. *)
Definition waiting_for (value : string) (ev : event) : bool :=
  match ev with
  | Log _ _ | Sleep _ => true
  | WaitUntil _ (element_to_be_clickable By_CSS_SELECTOR v) =>
      String.eqb v value
  | _ => false
  end.

(** The wait of part_000 for the control [value] to be clickable. *)
Definition clickable_wait (w : WebDriverWait) (value : string) : event :=
  WaitUntil (wait_seconds w) (element_to_be_clickable By_CSS_SELECTOR value).

Definition invite_control : string :=
  "[data-testid='invite-to-workspace-button']".
Definition email_control : string :=
  "[data-testid='invite-to-workspace-email-input']".
Definition submit_control : string :=
  "[data-testid='invite-to-workspace-submit']".

(** The calls of part_000's [add_new_user] when the invitation goes out:
    for each control the waiting that was in vain ([w1], [w2], [w3]), the
    wait that returned it, and what is done with it. *)
Definition invite_calls (user : TrelloUserProvisioning.self_t)
           (w : WebDriverWait) (w1 : list event) (button : element)
  : list event :=
  ([Log INFO ("Adding user: " ++ TrelloUserProvisioning.new_user_email user)]
     ++ w1
     ++ [clickable_wait w invite_control;
         ExecuteScript TrelloUserProvisioning.click_script button])%list.

Definition email_calls (user : TrelloUserProvisioning.self_t)
           (w : WebDriverWait) (w1 : list event) (button : element)
           (w2 : list event) (input : element) : list event :=
  (invite_calls user w w1 button
     ++ w2
     ++ [clickable_wait w email_control; Clear input;
         SendKeys input (TrelloUserProvisioning.new_user_email user)])%list.

Definition invitation_calls (user : TrelloUserProvisioning.self_t)
           (w : WebDriverWait) (w1 w2 w3 : list event)
           (button input submit : element) : list event :=
  (email_calls user w w1 button w2 input
     ++ w3
     ++ [clickable_wait w submit_control;
         ExecuteScript TrelloUserProvisioning.click_script submit;
         Log INFO "User invitation sent"])%list.

(** What the page raised when part_000 made the call [ev] after the
    history [tr], if anything. *)
Definition page_call_raised (env : Env) (tr : list event) (ev : event)
  : option exn :=
  match ev with
  | WaitUntil _ _ =>
      match env_element env tr ev with
      | Raise e => Some e
      | Ok _ => None
      end
  | _ => env_unit env tr ev
  end.

(** Why part_000's [add_new_user] gave up with [e] after the calls [evs]
    made from the history [tr]: three attempts were used up, the object
    had no wait or no driver, or the last call made raised [e]. *)
Definition invitation_failure (env : Env) (tr evs : list event) (e : exn)
  : Prop :=
  e = mk_exn Exception_ "Failed after 3 attempts"
  \/ (exists attr, e = none_has_no_attribute attr)
  \/ exists before call,
      evs = (before ++ [call])%list
      /\ page_call_raised env (tr ++ before)%list call = Some e.

(** The invite button shows at the second wait, the email field and the
    submit control at once; elements are numbered by the waits made. *)
Definition slow_invite_button : Env :=
  mk_env (fun _ _ => None)
         (fun tr ev =>
            if is_wait_until ev
            then if Nat.eqb (count_calls is_wait_until tr) 0
                 then Raise timed_out
                 else Ok (count_calls is_wait_until tr)
            else Raise no_such_element)
         (fun _ _ => Ok [])
         (fun _ _ => Ok "")
         (fun _ => None).

(** [cost weight evs]: the calls [evs] weighed one by one; and a run that
    costs at most [n]. *)
Definition cost (weight : event -> nat) (evs : list event) : nat :=
  list_sum (map weight evs).

Definition within (weight : event -> nat) (n : nat) (st st' : state) : Prop :=
  exists evs, trace st' = (trace st ++ evs)%list /\ cost weight evs <= n.

Definition costs {A} (weight : event -> nat) (n : nat) (m : M A) : Prop :=
  forall st, within weight n st (snd (m st)).

(** Weights: one per call accepted by [p]; the seconds of a sleep. *)
Definition one_per (p : event -> bool) (ev : event) : nat :=
  if p ev then 1 else 0.

Definition seconds_slept (ev : event) : nat :=
  match ev with Sleep n => n | _ => 0 end.

Definition is_send_keys (ev : event) : bool :=
  match ev with SendKeys _ _ => true | _ => false end.

(** What the member loop of [verify_user_added] takes for "not there": an
    empty list, or element-not-found. *)
Definition not_there (r : result (list element)) : bool :=
  match r with
  | Ok [] => true
  | Ok (_ :: _) => false
  | Raise e => isinstance e NoSuchElementException
  end.

(** [all_lookups miss env tr selectors]: looked up by XPath one after the
    other from history [tr], every selector gives an answer that [miss]
    accepts. *)
Fixpoint all_lookups (miss : result (list element) -> bool) (env : Env)
         (tr : list event) (selectors : list string) : bool :=
  match selectors with
  | [] => true
  | selector :: rest =>
      miss (env_elements env tr (FindElements By_XPATH selector))
      && all_lookups miss env (tr ++ [FindElements By_XPATH selector])%list
                     rest
  end.

(** The member is listed under the second member selector only. *)
Definition listed_by_title : Env :=
  mk_env (fun _ _ => None)
         (fun _ _ => Raise no_such_element)
         (fun _ ev =>
            match ev with
            | FindElements By_XPATH
                "//span[contains(@title, 'newuser@example.com')]" => Ok [8]
            | _ => Ok []
            end)
         (fun _ _ => Ok "")
         (fun _ => None).

(** The session dies at the second member lookup. *)
Definition session_lost : Env :=
  mk_env (fun _ _ => None)
         (fun _ _ => Raise no_such_element)
         (fun _ ev =>
            match ev with
            | FindElements By_XPATH
                "//span[contains(@title, 'newuser@example.com')]" =>
                Raise invalid_session
            | _ => Ok []
            end)
         (fun _ _ => Ok "")
         (fun _ => None).

(** The page says "sent", in an element whose text can be read; and in one
    whose text cannot. *)
Definition sent_banner (text : result string) : Env :=
  mk_env (fun _ _ => None)
         (fun _ _ => Raise no_such_element)
         (fun _ ev =>
            match ev with
            | FindElements By_XPATH "//*[contains(text(), 'sent')]" => Ok [9]
            | _ => Ok []
            end)
         (fun _ _ => text)
         (fun _ => None).

(** The calls addressed to the page and to the log; asking the operator
    counts only in an [interactive] run. *)
Definition page_call (interactive : bool) (ev : event) : bool :=
  match ev with
  | Log _ _ | Sleep _ | Get _ | FindElement _ _ | FindElements _ _
  | WaitUntil _ _ | Click _ | ExecuteScript _ _ | Clear _ | SendKeys _ _
  | ElementText _ | CurrentUrl => true
  | Input _ => interactive
  | _ => false
  end.

(** The calls of a clicking search that finds [el] under [selector] after
    the selectors [pre] missed, the click landing at once. *)
Definition found_and_clicked (self : TrelloProvisioning.self_t)
           (pre : list string) (selector : string) (el : element)
  : list event :=
  (lookups pre
     ++ [FindElement By_XPATH selector; first_click_attempt self; Click el])%list.

(** The workspace link shows in the boards view only: nothing matches
    until the boards listing was opened. *)
Definition listed_in_boards_view : Env :=
  mk_env (fun _ _ => None)
         (fun tr ev =>
            match ev with
            | FindElement By_XPATH "//div[contains(text(), 'Project X')]" =>
                if existsb (fun c => match c with Get _ => true | _ => false end)
                           tr
                then Ok 2 else Raise no_such_element
            | _ => Raise no_such_element
            end)
         (fun _ _ => Ok [])
         (fun _ _ => Ok "")
         (fun _ => None).

(** What [_safe_click] raises once every attempt has failed with [e]. *)
Definition click_error (self : TrelloProvisioning.self_t) (e : exn) : exn :=
  mk_exn TrelloProvisioningError
         (tp_error_msg self "click_operation" ++ ". Last error: " ++ str e).

(** The first email selector matches element 7, which cannot be cleared:
    the page has gone stale. *)
Definition clear_breaks : Env :=
  mk_env (fun _ ev => match ev with
                      | Clear _ => Some stale
                      | _ => None
                      end)
         (fun _ ev => match ev with
                      | FindElement By_XPATH "//input[@placeholder*='email']"
                        => Ok 7
                      | _ => Raise no_such_element
                      end)
         (fun _ _ => Ok [])
         (fun _ _ => Ok "")
         (fun _ => None).

(** The second invite selector matches element 3, and no click on it ever
    lands: the session is gone. *)
Definition dead_button : Env :=
  mk_env (fun _ ev => match ev with
                      | Click _ => Some invalid_session
                      | _ => None
                      end)
         (fun _ ev => match ev with
                      | FindElement By_XPATH
                          "//button[contains(text(), 'Members')]" => Ok 3
                      | _ => Raise no_such_element
                      end)
         (fun _ _ => Ok [])
         (fun _ _ => Ok "")
         (fun _ => None).


(** * General facts *)

Lemma isinstance_Exception (e : exn) : isinstance e Exception_ = true.
Proof. destruct e as [c m]; destruct c; reflexivity. Qed.

Lemma attribute_error_isinstance (attr : string) (c : exn_class) :
  isinstance (none_has_no_attribute attr) c
  = match c with
    | Exception_ | AttributeError => true
    | _ => false
    end.
Proof. destruct c; reflexivity. Qed.

Lemma bind_ok {A B} (m : M A) (k : A -> M B) st a st' :
  m st = (Ok a, st') -> bind m k st = k a st'.
Proof. intros H; unfold bind; now rewrite H. Qed.

Lemma bind_raise {A B} (m : M A) (k : A -> M B) st e st' :
  m st = (Raise e, st') -> bind m k st = (Raise e, st').
Proof. intros H; unfold bind; now rewrite H. Qed.

Lemma try_except_ok {A} (m : M A) cs st a st' :
  m st = (Ok a, st') -> try_except m cs st = (Ok a, st').
Proof. intros H; unfold try_except; now rewrite H. Qed.

Lemma try_except_caught {A} (m : M A) cs st e st' h :
  m st = (Raise e, st') -> select_clause e cs = Some h ->
  try_except m cs st = h st'.
Proof. intros H Hs; unfold try_except; now rewrite H, Hs. Qed.

Lemma try_except_uncaught {A} (m : M A) cs st e st' :
  m st = (Raise e, st') -> select_clause e cs = None ->
  try_except m cs st = (Raise e, st').
Proof. intros H Hs; unfold try_except; now rewrite H, Hs. Qed.

(** A [try] whose last clause is [except Exception] (or a bare [except])
    with handlers that return lets nothing out. *)
Lemma catch_all_never_raises {A} (m : M A) (h : exn -> M A) :
  (forall e, never_raises (h e)) ->
  never_raises (try_except m [(Exception_, h)]).
Proof.
  intros Hh st. unfold try_except.
  destruct (m st) as [[a | e] st'].
  - now exists a, st'.
  - simpl. rewrite isinstance_Exception. apply Hh.
Qed.

Section Quiet.

Variable ok : event -> bool.

Lemma quiet_refl st : quiet ok st st.
Proof.
  repeat split. exists []. now rewrite app_nil_r.
Qed.

Lemma quiet_trans a b c : quiet ok a b -> quiet ok b c -> quiet ok a c.
Proof.
  intros (Hd1 & Hw1 & e1 & Ht1 & Ho1) (Hd2 & Hw2 & e2 & Ht2 & Ho2).
  repeat split; try congruence.
  exists (e1 ++ e2)%list. split.
  - now rewrite Ht2, Ht1, app_assoc.
  - now rewrite forallb_app, Ho1, Ho2.
Qed.

Lemma quiet_emit ev st : ok ev = true -> quiet ok st (emit ev st).
Proof.
  intros H. repeat split. exists [ev]. simpl. now rewrite H.
Qed.

Lemma respects_ret {A} (a : A) : respects (quiet ok) (ret a).
Proof. intros st. apply quiet_refl. Qed.

Lemma respects_raise {A} (e : exn) : respects (quiet ok) (@raise A e).
Proof. intros st. apply quiet_refl. Qed.

Lemma respects_bind {A B} (m : M A) (k : A -> M B) :
  respects (quiet ok) m -> (forall a, respects (quiet ok) (k a)) ->
  respects (quiet ok) (bind m k).
Proof.
  intros Hm Hk st. unfold bind. specialize (Hm st).
  destruct (m st) as [[a | e] st']; simpl in *; auto.
  eapply quiet_trans; [exact Hm | apply Hk].
Qed.

Lemma respects_try_except {A} (m : M A) (cs : list (clause A)) :
  respects (quiet ok) m ->
  Forall (fun c => forall e, respects (quiet ok) (snd c e)) cs ->
  respects (quiet ok) (try_except m cs).
Proof.
  intros Hm Hcs st. unfold try_except. specialize (Hm st).
  destruct (m st) as [[a | e] st']; simpl in *; auto.
  destruct (select_clause e cs) as [h |] eqn:Hs; simpl; auto.
  eapply quiet_trans; [exact Hm |].
  clear Hm. induction Hcs as [| [c hc] cs' Hc _ IH]; simpl in Hs.
  - discriminate.
  - destruct (isinstance e c).
    + injection Hs as <-. apply Hc.
    + auto.
Qed.

Lemma respects_log l m : ok (Log l m) = true -> respects (quiet ok) (log l m).
Proof. intros H st. now apply quiet_emit. Qed.

Lemma respects_sleep n : ok (Sleep n) = true -> respects (quiet ok) (sleep n).
Proof. intros H st. now apply quiet_emit. Qed.

Variable env : Env.

Lemma respects_call_unit ev :
  ok ev = true -> respects (quiet ok) (call_unit env ev).
Proof.
  intros H st. unfold call_unit.
  destruct (env_unit env (trace st) ev); now apply quiet_emit.
Qed.

Lemma respects_call_element ev :
  ok ev = true -> respects (quiet ok) (call_element env ev).
Proof. intros H st. now apply quiet_emit. Qed.

Lemma respects_call_elements ev :
  ok ev = true -> respects (quiet ok) (call_elements env ev).
Proof. intros H st. now apply quiet_emit. Qed.

Lemma respects_call_string ev :
  ok ev = true -> respects (quiet ok) (call_string env ev).
Proof. intros H st. now apply quiet_emit. Qed.

Lemma respects_on_driver {A} attr (m : M A) :
  respects (quiet ok) m -> respects (quiet ok) (on_driver attr m).
Proof.
  intros H st. unfold on_driver.
  destruct (driver st); [apply H | apply quiet_refl].
Qed.

Lemma respects_wait_until c :
  (forall t, ok (WaitUntil t c) = true) ->
  respects (quiet ok) (wait_until env c).
Proof.
  intros H st. unfold wait_until.
  destruct (wait st); [now apply respects_call_unit | apply quiet_refl].
Qed.

Lemma respects_wait_until_element c :
  (forall t, ok (WaitUntil t c) = true) ->
  respects (quiet ok) (wait_until_element env c).
Proof.
  intros H st. unfold wait_until_element.
  destruct (wait st); [now apply respects_call_element | apply quiet_refl].
Qed.

End Quiet.

(** * The retry helpers *)

Lemma sleeps_app (a b : list event) :
  sleeps (a ++ b) = (sleeps a ++ sleeps b)%list.
Proof. unfold sleeps. apply flat_map_app. Qed.

Lemma sleeps_quiet (evs : list event) :
  forallb not_sleep evs = true -> sleeps evs = [].
Proof.
  induction evs as [| ev evs IH]; simpl; auto.
  intros H. apply andb_prop in H as [H1 H2].
  destruct ev; simpl in *; try discriminate; auto.
Qed.

Section RetryOperation.

Variable A : Type.
Variable self : TrelloProvisioning.self_t.
Variable name : string.
Variable operation : M A.

Lemma retry_loop_failed attempt rest last st e st1 :
  operation (tp_before_attempt self name attempt st) = (Raise e, st1) ->
  TrelloProvisioning.retry_loop self name operation (attempt :: rest) last st
  = TrelloProvisioning.retry_loop self name operation rest (Some e)
      (tp_after_failure self attempt e st1).
Proof.
  intros H. simpl. unfold bind at 1, try_except, bind at 1.
  unfold log at 1. fold (tp_before_attempt self name attempt st).
  unfold bind at 1. rewrite H. simpl. rewrite isinstance_Exception.
  reflexivity.
Qed.

Lemma retry_loop_succeeded attempt rest last st v st1 :
  operation (tp_before_attempt self name attempt st) = (Ok v, st1) ->
  TrelloProvisioning.retry_loop self name operation (attempt :: rest) last st
  = (Ok v, st1).
Proof.
  intros H. simpl. unfold bind at 1, try_except, bind at 1.
  unfold log at 1. fold (tp_before_attempt self name attempt st).
  unfold bind at 1. rewrite H. reflexivity.
Qed.

Lemma retry_loop_fails attempt st es st' :
  tp_fails self name operation attempt st es st' ->
  forall rest last,
    TrelloProvisioning.retry_loop self name operation
      (seq attempt (length es) ++ rest) last st
    = TrelloProvisioning.retry_loop self name operation rest
        (last_exception es last) st'.
Proof.
  induction 1 as [| attempt st e st1 es st2 Hop _ IH]; intros rest last.
  - reflexivity.
  - cbn [length seq app]. rewrite (retry_loop_failed _ _ Hop).
    apply IH.
Qed.

Lemma seq_split_at (n k : nat) :
  k < n -> seq 0 n = (seq 0 k ++ k :: seq (S k) (n - S k))%list.
Proof.
  intros H. replace n with (k + S (n - S k)) at 1 by lia.
  rewrite seq_app. reflexivity.
Qed.

Lemma retry_operation_succeeds st es st' v st'' :
  tp_fails self name operation 0 st es st' ->
  length es < TrelloProvisioning.max_retries self ->
  operation (tp_before_attempt self name (length es) st') = (Ok v, st'') ->
  TrelloProvisioning._retry_operation self name operation st = (Ok v, st'').
Proof.
  intros Hf Hlt Hop. unfold TrelloProvisioning._retry_operation.
  rewrite (seq_split_at Hlt), (retry_loop_fails Hf).
  now apply retry_loop_succeeded.
Qed.

Lemma retry_operation_exhausted st es st' :
  tp_fails self name operation 0 st es st' ->
  length es = TrelloProvisioning.max_retries self ->
  TrelloProvisioning._retry_operation self name operation st
  = (Raise (mk_exn TrelloProvisioningError
              (tp_error_msg self name ++ ". Last error: "
                 ++ TrelloProvisioning.str_last (last_exception es None))),
     emit (Log ERROR (tp_error_msg self name)) st').
Proof.
  intros Hf Hlen. unfold TrelloProvisioning._retry_operation.
  rewrite <- Hlen, <- (app_nil_r (seq 0 (length es))).
  rewrite (retry_loop_fails Hf). reflexivity.
Qed.

Lemma retry_operation_backoff attempt st es st' :
  tp_fails self name operation attempt st es st' ->
  respects (quiet not_sleep) operation ->
  exists evs,
    trace st' = (trace st ++ evs)%list /\
    sleeps evs
    = backoff (TrelloProvisioning.retry_delay_base self) attempt (length es).
Proof.
  intros Hf Hq.
  induction Hf as [| attempt st e st1 es st2 Hop _ IH].
  - exists []. now rewrite app_nil_r.
  - destruct IH as (evs & Ht & Hs).
    pose proof (Hq (tp_before_attempt self name attempt st)) as Hq1.
    rewrite Hop in Hq1. destruct Hq1 as (_ & _ & evs1 & Ht1 & Hok1).
    simpl in Ht1. eexists. split.
    + rewrite Ht. simpl. rewrite Ht1. rewrite <- !app_assoc. reflexivity.
    + rewrite !sleeps_app, (sleeps_quiet _ Hok1), Hs. reflexivity.
Qed.

End RetryOperation.

Section RetryAction.

Variable A : Type.
Variable action : M A.
Variables max_attempts delay : nat.

Lemma retry_action_loop_failed attempt rest st e st1 :
  action st = (Raise e, st1) ->
  is_transient e = true ->
  TrelloUserProvisioning.retry_action_loop action max_attempts delay
    (attempt :: rest) st
  = TrelloUserProvisioning.retry_action_loop action max_attempts delay rest
      (tup_after_failure delay attempt e st1).
Proof.
  intros H Ht. simpl. unfold bind at 1, try_except, bind at 1.
  rewrite H. unfold is_transient in Ht. simpl.
  destruct (isinstance e TimeoutException); [reflexivity |].
  destruct (isinstance e StaleElementReferenceException); [reflexivity |].
  destruct (isinstance e ElementClickInterceptedException);
    [reflexivity | discriminate].
Qed.

Lemma retry_action_loop_succeeded attempt rest st v st1 :
  action st = (Ok v, st1) ->
  TrelloUserProvisioning.retry_action_loop action max_attempts delay
    (attempt :: rest) st
  = (Ok v, st1).
Proof.
  intros H. simpl. unfold bind at 1, try_except, bind at 1.
  rewrite H. reflexivity.
Qed.

Lemma retry_action_loop_propagates attempt rest st e st1 :
  action st = (Raise e, st1) ->
  is_transient e = false ->
  TrelloUserProvisioning.retry_action_loop action max_attempts delay
    (attempt :: rest) st
  = (Raise e, st1).
Proof.
  intros H Ht. simpl. unfold bind at 1, try_except, bind at 1.
  rewrite H. unfold is_transient in Ht. simpl.
  apply orb_false_elim in Ht as [Ht H3].
  apply orb_false_elim in Ht as [H1 H2].
  rewrite H1, H2, H3. reflexivity.
Qed.

Lemma retry_action_loop_fails attempt st es st' :
  tup_fails action delay attempt st es st' ->
  forall rest,
    TrelloUserProvisioning.retry_action_loop action max_attempts delay
      (seq attempt (length es) ++ rest) st
    = TrelloUserProvisioning.retry_action_loop action max_attempts delay
        rest st'.
Proof.
  induction 1 as [| attempt st e st1 es st2 Hop Ht _ IH]; intros rest.
  - reflexivity.
  - cbn [length seq app]. rewrite (retry_action_loop_failed _ _ Hop Ht).
    apply IH.
Qed.

Lemma retry_action_succeeds st es st' v st'' :
  tup_fails action delay 0 st es st' ->
  length es < max_attempts ->
  action st' = (Ok v, st'') ->
  TrelloUserProvisioning.retry_action action max_attempts delay st
  = (Ok v, st'').
Proof.
  intros Hf Hlt Hop. unfold TrelloUserProvisioning.retry_action.
  rewrite (seq_split_at Hlt), (retry_action_loop_fails Hf).
  now apply retry_action_loop_succeeded.
Qed.

Lemma retry_action_propagates st es st' e st'' :
  tup_fails action delay 0 st es st' ->
  length es < max_attempts ->
  action st' = (Raise e, st'') ->
  is_transient e = false ->
  TrelloUserProvisioning.retry_action action max_attempts delay st
  = (Raise e, st'').
Proof.
  intros Hf Hlt Hop Ht. unfold TrelloUserProvisioning.retry_action.
  rewrite (seq_split_at Hlt), (retry_action_loop_fails Hf).
  now apply retry_action_loop_propagates.
Qed.

Lemma retry_action_exhausted st es st' :
  tup_fails action delay 0 st es st' ->
  length es = max_attempts ->
  TrelloUserProvisioning.retry_action action max_attempts delay st
  = (Raise (mk_exn Exception_
              ("Failed after " ++ str_of_nat max_attempts ++ " attempts")),
     st').
Proof.
  intros Hf Hlen. unfold TrelloUserProvisioning.retry_action.
  rewrite <- Hlen at 2. rewrite <- (app_nil_r (seq 0 (length es))).
  rewrite (retry_action_loop_fails Hf). reflexivity.
Qed.

Lemma retry_action_backoff attempt st es st' :
  tup_fails action delay attempt st es st' ->
  respects (quiet not_sleep) action ->
  exists evs,
    trace st' = (trace st ++ evs)%list /\
    sleeps evs = backoff delay attempt (length es).
Proof.
  intros Hf Hq.
  induction Hf as [| attempt st e st1 es st2 Hop Ht _ IH].
  - exists []. now rewrite app_nil_r.
  - destruct IH as (evs & Htr & Hs).
    pose proof (Hq st) as Hq1.
    rewrite Hop in Hq1. destruct Hq1 as (_ & _ & evs1 & Ht1 & Hok1).
    simpl in Ht1. eexists. split.
    + rewrite Htr. simpl. rewrite Ht1. rewrite <- !app_assoc. reflexivity.
    + rewrite !sleeps_app, (sleeps_quiet _ Hok1), Hs. reflexivity.
Qed.

End RetryAction.

(** C1 (as amended).  [_retry_operation] of script.py invokes the
    operation up to [max_retries] times and retries after a failure of any
    exception class; it sleeps [retry_delay_base * 2 ^ attempt] after every
    failed attempt; a success after fewer than [max_retries] failures is
    returned; after [max_retries] failures it raises a
    [TrelloProvisioningError] whose message ends with [str] of the last
    exception.  [retry_action] of part_000 invokes the action up to
    [max_attempts] times and retries only after a timeout, stale-element
    or click-intercepted failure, sleeping [delay * 2 ^ attempt] after
    each; a success is returned, any other exception propagates at once,
    and after [max_attempts] failures it raises a plain [Exception] with
    the message "Failed after N attempts", which carries no cause. *)
Theorem retry_helpers_behaviour (A : Type)
        (self : TrelloProvisioning.self_t) (name : string)
        (operation : M A) (max_attempts delay : nat)
        (st st' : state) (es : list exn) :
  (tp_fails self name operation 0 st es st' ->
   (forall v st'',
       length es < TrelloProvisioning.max_retries self ->
       operation (tp_before_attempt self name (length es) st') = (Ok v, st'') ->
       TrelloProvisioning._retry_operation self name operation st
       = (Ok v, st''))
   /\ (length es = TrelloProvisioning.max_retries self ->
       TrelloProvisioning._retry_operation self name operation st
       = (Raise (mk_exn TrelloProvisioningError
                   (tp_error_msg self name ++ ". Last error: "
                      ++ TrelloProvisioning.str_last (last_exception es None))),
          emit (Log ERROR (tp_error_msg self name)) st'))
   /\ (respects (quiet not_sleep) operation ->
       exists evs,
         trace st' = (trace st ++ evs)%list /\
         sleeps evs
         = backoff (TrelloProvisioning.retry_delay_base self) 0 (length es)))
  /\
  (tup_fails operation delay 0 st es st' ->
   (forall v st'',
       length es < max_attempts ->
       operation st' = (Ok v, st'') ->
       TrelloUserProvisioning.retry_action operation max_attempts delay st
       = (Ok v, st''))
   /\ (forall e st'',
       length es < max_attempts ->
       operation st' = (Raise e, st'') ->
       is_transient e = false ->
       TrelloUserProvisioning.retry_action operation max_attempts delay st
       = (Raise e, st''))
   /\ (length es = max_attempts ->
       TrelloUserProvisioning.retry_action operation max_attempts delay st
       = (Raise (mk_exn Exception_
                   ("Failed after " ++ str_of_nat max_attempts ++ " attempts")),
          st'))
   /\ (respects (quiet not_sleep) operation ->
       exists evs,
         trace st' = (trace st ++ evs)%list /\
         sleeps evs = backoff delay 0 (length es))).
Proof.
  split; intros Hf.
  - split; [| split].
    + intros v st'' Hlt Hop. exact (retry_operation_succeeds Hf Hlt Hop).
    + intros Hlen. exact (retry_operation_exhausted Hf Hlen).
    + intros Hq. exact (retry_operation_backoff Hf Hq).
  - split; [| split; [| split]].
    + intros v st'' Hlt Hop. exact (retry_action_succeeds Hf Hlt Hop).
    + intros e st'' Hlt Hop Ht. exact (retry_action_propagates Hf Hlt Hop Ht).
    + intros Hlen. exact (retry_action_exhausted Hf Hlen).
    + intros Hq. exact (retry_action_backoff Hf Hq).
Qed.

(** A click that goes stale twice and then lands, under three attempts:
    both helpers return the success, having slept 1 and 2 seconds
    (script.py) and 2 and 4 seconds (part_000). *)
Lemma retry_helpers_behaviour_witness :
  (exists st'',
      TrelloProvisioning._retry_operation example_self "click_operation"
        (click (click_fails 2 stale) 7) started = (Ok tt, st'')
      /\ sleeps (trace st'') = [1; 2])
  /\
  (exists st'',
      TrelloUserProvisioning.retry_action
        (click (click_fails 2 stale) 7) 3 2 started = (Ok tt, st'')
      /\ sleeps (trace st'') = [2; 4]).
Proof.
  split.
  - eexists. split.
    + refine (proj1 (proj1 (@retry_helpers_behaviour unit example_self
                "click_operation" (click (click_fails 2 stale) 7) 3 2
                started _ [stale; stale]) _) tt _ _ _).
      * eapply tp_fails_cons; [reflexivity |].
        eapply tp_fails_cons; [reflexivity |].
        apply tp_fails_nil.
      * simpl. lia.
      * reflexivity.
    + reflexivity.
  - eexists. split.
    + refine (proj1 (proj2 (@retry_helpers_behaviour unit example_self
                "click_operation" (click (click_fails 2 stale) 7) 3 2
                started _ [stale; stale]) _) tt _ _ _).
      * eapply tup_fails_cons; [reflexivity | reflexivity |].
        eapply tup_fails_cons; [reflexivity | reflexivity |].
        apply tup_fails_nil.
      * simpl. lia.
      * reflexivity.
    + reflexivity.
Defined.

(** C1 as stated does not hold of either helper.  [_retry_operation]
    retries a failure that is not transient: with the browser session gone
    for good, the click is still made three times, with sleeps of 1, 2 and
    4 seconds.  [retry_action] keeps no cause: after three timeouts the
    error raised is a plain [Exception] whose message is "Failed after 3
    attempts", with nothing of the timeout in it. *)
Lemma retry_claim_counterexample :
  (is_transient invalid_session = false /\
   let st := snd (TrelloProvisioning._retry_operation example_self
                    "click_operation"
                    (click (click_fails 3 invalid_session) 7) started) in
   count_calls is_click (trace st) = 3 /\ sleeps (trace st) = [1; 2; 4])
  /\
  (let r := fst (TrelloUserProvisioning.retry_action
                   (wait_until_element (wait_fails 3 timed_out)
                                       invite_button_clickable)
                   3 2 started) in
   r = Raise (mk_exn Exception_ "Failed after 3 attempts") /\
   contains (str timed_out) "Failed after 3 attempts" = false).
Proof. repeat split; reflexivity. Qed.

(** * The verifiers *)

Section Verifiers.

Variable env : Env.

Lemma verify_user_added_total email :
  never_raises (TrelloProvisioning.verify_user_added env email).
Proof.
  apply catch_all_never_raises. intros e st.
  now exists false, (emit (Log ERROR ("Error during user verification: "
                                        ++ str e)) st).
Qed.

Lemma verify_user_addition_total user :
  never_raises (TrelloUserProvisioning.verify_user_addition env user).
Proof.
  intros st. unfold TrelloUserProvisioning.verify_user_addition, bind at 1.
  unfold log at 1.
  apply catch_all_never_raises. intros e st1.
  now exists false, (emit (Log ERROR ("Verification failed: " ++ str e)) st1).
Qed.

Hypothesis nothing_found :
  forall tr v, env_elements env tr (FindElements By_XPATH v) = Ok [].

Lemma verify_user_loop_not_true email selectors st :
  fst (TrelloProvisioning.verify_user_loop env email selectors st) <> Ok true.
Proof.
  revert st. induction selectors as [| selector rest IH]; intros st.
  - discriminate.
  - simpl. unfold bind at 1, try_except, bind at 1.
    unfold find_elements, on_driver, call_elements.
    destruct (driver st).
    + rewrite nothing_found. simpl. apply IH.
    + simpl. discriminate.
Qed.

Lemma verify_success_loop_not_true selectors st :
  fst (TrelloProvisioning.verify_success_loop env selectors st) <> Ok true.
Proof.
  revert st. induction selectors as [| selector rest IH]; intros st.
  - discriminate.
  - simpl. unfold bind at 1, try_except, bind at 1.
    unfold find_elements, on_driver, call_elements.
    destruct (driver st).
    + rewrite nothing_found. simpl. apply IH.
    + simpl. apply IH.
Qed.

Lemma verify_user_added_unverified email st :
  fst (TrelloProvisioning.verify_user_added env email st) = Ok false.
Proof.
  unfold TrelloProvisioning.verify_user_added, try_except.
  unfold TrelloProvisioning.verify_user_added_body, bind at 1.
  unfold log at 1. unfold bind at 1.
  pose proof (verify_user_loop_not_true email
                (TrelloProvisioning.user_verification_selectors email)
                (emit (Log INFO ("Verifying user addition: " ++ email)) st))
    as H1.
  destruct (TrelloProvisioning.verify_user_loop _ _ _ _)
    as [[[|] | e] st1]; cbn [fst] in H1.
  - congruence.
  - unfold bind at 1.
    pose proof (verify_success_loop_not_true
                  TrelloProvisioning.success_selectors st1) as H2.
    destruct (TrelloProvisioning.verify_success_loop _ _ _)
      as [[[|] | e] st2]; cbn [fst] in H2.
    + congruence.
    + reflexivity.
    + cbn [select_clause]. rewrite isinstance_Exception. reflexivity.
  - cbn [select_clause]. rewrite isinstance_Exception. reflexivity.
Qed.

End Verifiers.

Section VerifierTimeouts.

Variable env : Env.
Variable user : TrelloUserProvisioning.self_t.

Hypothesis always_times_out :
  forall tr t v, exists e,
      env_element env tr
                  (WaitUntil t (presence_of_element_located By_XPATH v))
      = Raise e
      /\ isinstance e TimeoutException = true.

Lemma verify_loop_not_true attempts st :
  fst (TrelloUserProvisioning.verify_loop env user attempts st) <> Ok true.
Proof.
  revert st. induction attempts as [| rest IH]; intros st.
  - discriminate.
  - simpl. unfold bind at 1, try_except, bind at 1.
    unfold wait_until_element, call_element.
    destruct (wait st) as [w |].
    + destruct (always_times_out (trace st) (wait_seconds w)
                  (TrelloUserProvisioning.member_xpath user))
        as (e & -> & Hto).
      simpl. rewrite Hto. simpl. apply IH.
    + simpl. discriminate.
Qed.

Lemma verify_user_addition_unverified st :
  fst (TrelloUserProvisioning.verify_user_addition env user st) = Ok false.
Proof.
  unfold TrelloUserProvisioning.verify_user_addition, bind at 1.
  unfold log at 1. unfold try_except, bind at 1.
  pose proof (verify_loop_not_true 3
                (emit (Log INFO ("Verifying user: "
                                   ++ TrelloUserProvisioning.new_user_email user))
                      st)) as H1.
  destruct (TrelloUserProvisioning.verify_loop _ _ _ _)
    as [[[|] | e] st1]; cbn [fst] in H1.
  - congruence.
  - reflexivity.
  - cbn [select_clause]. rewrite isinstance_Exception. reflexivity.
Qed.

End VerifierTimeouts.

(** C2.  Both verifiers return a boolean from every state of every world,
    whatever the email: no exception leaves them.  When no lookup ever
    finds an element (script.py), or every wait for the member times out
    (part_000), the boolean is [False]. *)
Theorem verifiers_return_a_boolean (env : Env)
        (user : TrelloUserProvisioning.self_t) (email : string) (st : state) :
  (exists b st',
      TrelloProvisioning.verify_user_added env email st = (Ok b, st'))
  /\ (exists b st',
         TrelloUserProvisioning.verify_user_addition env user st = (Ok b, st'))
  /\ ((forall tr v, env_elements env tr (FindElements By_XPATH v) = Ok []) ->
      fst (TrelloProvisioning.verify_user_added env email st) = Ok false)
  /\ ((forall tr t v, exists e,
          env_element env tr
                      (WaitUntil t (presence_of_element_located By_XPATH v))
          = Raise e
          /\ isinstance e TimeoutException = true) ->
      fst (TrelloUserProvisioning.verify_user_addition env user st) = Ok false).
Proof.
  split; [apply verify_user_added_total |].
  split; [apply verify_user_addition_total |].
  split; intros H.
  - now apply verify_user_added_unverified.
  - now apply verify_user_addition_unverified.
Qed.

(** On a page with nothing on it, and on one where the member never shows,
    the verifiers answer [False]. *)
Lemma verifiers_return_a_boolean_witness :
  fst (TrelloProvisioning.verify_user_added empty_page "newuser@example.com"
         started) = Ok false
  /\ fst (TrelloUserProvisioning.verify_user_addition never_there example_user
            started) = Ok false.
Proof.
  split.
  - apply (proj1 (proj2 (proj2
             (verifiers_return_a_boolean empty_page example_user
                "newuser@example.com" started)))).
    intros tr v. reflexivity.
  - apply (proj2 (proj2 (proj2
             (verifiers_return_a_boolean never_there example_user
                "newuser@example.com" started)))).
    intros tr t v. exists timed_out. split; reflexivity.
Defined.

(** * Cleanup *)

(** C10.  Neither [cleanup] lets an exception out.  With no driver (none
    was created) the one of script.py changes nothing at all, and the one
    of part_000 only writes its log line; when [quit] itself fails the
    failure is logged and not raised.  The one of part_000 leaves [driver]
    and [wait] at [None], so that a second call makes no browser call. *)
Theorem cleanup_never_raises (env : Env) (st : state) :
  (exists st',
      TrelloProvisioning.cleanup env st = (Ok tt, st')
      /\ (driver st = None -> st' = st)
      /\ (forall e,
             driver st <> None ->
             env_unit env (trace st) Quit = Some e ->
             trace st'
             = (trace st
                  ++ [Quit; Log WARNING ("Error closing WebDriver: " ++ str e)])%list))
  /\
  (exists st',
      TrelloUserProvisioning.cleanup env st = (Ok tt, st')
      /\ driver st' = None /\ wait st' = None
      /\ (driver st = None ->
          trace st' = (trace st ++ [Log INFO "Cleaning up..."])%list)
      /\ (forall e,
             driver st <> None ->
             env_unit env (trace st ++ [Log INFO "Cleaning up..."])%list Quit
             = Some e ->
             trace st'
             = (trace st
                  ++ [Log INFO "Cleaning up..."; Quit;
                      Log ERROR ("Cleanup failed: " ++ str e)])%list)
      /\ exists st'',
          TrelloUserProvisioning.cleanup env st' = (Ok tt, st'')
          /\ trace st'' = (trace st' ++ [Log INFO "Cleaning up..."])%list).
Proof.
  split.
  - unfold TrelloProvisioning.cleanup.
    destruct (driver st) as [d |] eqn:Hd.
    + unfold try_except, bind at 1, driver_quit, on_driver, call_unit.
      rewrite Hd.
      destruct (env_unit env (trace st) Quit) as [e |] eqn:Hq.
      * cbn [select_clause]. rewrite isinstance_Exception.
        eexists. split; [reflexivity |]. split; [discriminate |].
        intros e' _ [= <-]. simpl. now rewrite <- app_assoc.
      * eexists. split; [reflexivity |]. split; discriminate.
    + exists st. split; [reflexivity |]. split; [reflexivity |].
      intros e H. now destruct H.
  - unfold TrelloUserProvisioning.cleanup, bind at 1, log at 1.
    unfold try_finally, try_except. cbn [driver emit].
    destruct (driver st) as [d |] eqn:Hd.
    + unfold bind at 1, driver_quit, on_driver, call_unit.
      cbn [driver emit trace]. rewrite Hd.
      destruct (env_unit env (trace st ++ [Log INFO "Cleaning up..."]) Quit)
        as [e |] eqn:Hq.
      * cbn [select_clause]. rewrite isinstance_Exception.
        eexists. split; [reflexivity |].
        split; [reflexivity |]. split; [reflexivity |].
        split; [discriminate |]. split.
        -- intros e' _ [= <-]. simpl. now rewrite <- !app_assoc.
        -- eexists. split; reflexivity.
      * eexists. split; [reflexivity |].
        split; [reflexivity |]. split; [reflexivity |].
        split; [discriminate |]. split; [discriminate |].
        eexists. split; reflexivity.
    + eexists. split; [reflexivity |].
      split; [reflexivity |]. split; [reflexivity |].
      split; [reflexivity |]. split.
      * intros e H. now destruct H.
      * eexists. split; reflexivity.
Qed.

(** With a browser that refuses to quit, both clean up without raising and
    log the refusal. *)
Lemma cleanup_never_raises_witness :
  (exists st',
      TrelloProvisioning.cleanup quit_fails started = (Ok tt, st')
      /\ trace st'
         = [Quit; Log WARNING "Error closing WebDriver: invalid session id"])
  /\
  (exists st',
      TrelloUserProvisioning.cleanup quit_fails started = (Ok tt, st')
      /\ trace st'
         = [Log INFO "Cleaning up..."; Quit;
            Log ERROR "Cleanup failed: invalid session id"]).
Proof.
  destruct (cleanup_never_raises quit_fails started)
    as [(st1 & Hr1 & _ & Hq1) (st2 & Hr2 & _ & _ & _ & Hq2 & _)].
  split.
  - exists st1. split; [exact Hr1 |].
    apply (Hq1 invalid_session); [discriminate | reflexivity].
  - exists st2. split; [exact Hr2 |].
    apply (Hq2 invalid_session); [discriminate | reflexivity].
Defined.

(** * Construction *)

(** [truthy] fails exactly on an unset and on an empty variable. *)
Lemma truthy_none (o : option string) :
  truthy o = None <-> o = None \/ o = Some "".
Proof.
  destruct o as [s |]; cbn [truthy].
  - destruct (String.eqb_spec s "") as [-> | Hne].
    + split; auto.
    + split; [discriminate |]. intros [H | [= H]]; [discriminate | contradiction].
  - split; auto.
Qed.

(** C4.  When either credential variable is unset or empty, [__init__]
    raises the configuration error ([TrelloProvisioningError] in script.py,
    [ValueError] in part_000); up to that point no call reached the
    browser or its driver, and no driver exists. *)
Theorem missing_credentials_fail_before_browser
        (env : Env) (headless : bool) (timeout : Z) (st : state) :
  (truthy (env_getenv env "TRELLO_USERNAME") = None
   \/ truthy (env_getenv env "TRELLO_PASSWORD") = None ->
   exists st',
     TrelloProvisioning.__init__ env headless timeout st
     = (Raise credentials_error, st')
     /\ driver st' = None
     /\ exists evs,
         trace st' = (trace st ++ evs)%list
         /\ forallb not_browser_call evs = true)
  /\
  (truthy (env_getenv env "TRELL_USERNAME") = None
   \/ truthy (env_getenv env "TRELL_PASSWORD") = None ->
   exists st',
     TrelloUserProvisioning.__init__ env headless timeout st
     = (Raise credentials_value_error, st')
     /\ driver st' = None
     /\ exists evs,
         trace st' = (trace st ++ evs)%list
         /\ forallb not_browser_call evs = true).
Proof.
  split; intros H.
  - assert (Hm : match truthy (env_getenv env "TRELLO_USERNAME"),
                       truthy (env_getenv env "TRELLO_PASSWORD") with
                 | Some _, Some _ => False
                 | _, _ => True
                 end).
    { destruct H as [-> | ->]; [exact I |].
      now destruct (truthy (env_getenv env "TRELLO_USERNAME")). }
    unfold TrelloProvisioning.__init__, TrelloProvisioning._load_credentials,
      TrelloProvisioning._setup_logging, bind, set_driver, set_wait, log,
      load_dotenv, getenv, raise.
    cbn [driver wait trace emit].
    destruct (truthy (env_getenv env "TRELLO_USERNAME")) as [u |];
      [destruct (truthy (env_getenv env "TRELLO_PASSWORD")) as [p |];
       [contradiction |] |];
      (eexists; split; [reflexivity |]; split; [reflexivity |];
       eexists; split;
       [unfold emit; cbn [trace]; rewrite <- !app_assoc; reflexivity |];
       reflexivity).
  - assert (Hm : match truthy (env_getenv env "TRELL_USERNAME"),
                       truthy (env_getenv env "TRELL_PASSWORD") with
                 | Some _, Some _ => False
                 | _, _ => True
                 end).
    { destruct H as [-> | ->]; [exact I |].
      now destruct (truthy (env_getenv env "TRELL_USERNAME")). }
    unfold TrelloUserProvisioning.__init__, bind, set_driver, set_wait,
      getenv, raise.
    cbn [driver wait trace emit].
    destruct (truthy (env_getenv env "TRELL_USERNAME")) as [u |];
      [destruct (truthy (env_getenv env "TRELL_PASSWORD")) as [p |];
       [contradiction |] |];
      (eexists; split; [reflexivity |]; split; [reflexivity |];
       eexists; split;
       [unfold emit; cbn [trace]; rewrite <- !app_assoc; reflexivity |];
       reflexivity).
Qed.

(** With the password set but empty (script.py) or unset (part_000),
    construction fails with the configuration error. *)
Lemma missing_credentials_fail_before_browser_witness :
  fst (TrelloProvisioning.__init__ only_username true 10 fresh)
  = Raise credentials_error
  /\ fst (TrelloUserProvisioning.__init__ only_username true 30 fresh)
     = Raise credentials_value_error.
Proof.
  split.
  - destruct (proj1 (missing_credentials_fail_before_browser
                       only_username true 10 fresh))
      as (st' & Hr & _); [right; reflexivity |].
    now rewrite Hr.
  - destruct (proj2 (missing_credentials_fail_before_browser
                       only_username true 30 fresh))
      as (st' & Hr & _); [right; reflexivity |].
    now rewrite Hr.
Defined.

(** * The ordered-fallback searches *)

Unset Implicit Arguments.

Ltac trace_eq :=
  cbn [snd trace emit]; rewrite ?app_nil_r, <- ?app_assoc; cbn [app];
  reflexivity.

Ltac trace_ex :=
  cbn [snd trace emit]; rewrite <- ?app_assoc; cbn [app]; reflexivity.

Lemma trace_extend evs st : trace (extend evs st) = (trace st ++ evs)%list.
Proof. reflexivity. Qed.

Lemma extend_emit ev evs st :
  emit ev (extend evs st) = extend (evs ++ [ev]) st.
Proof. unfold emit, extend. simpl. now rewrite <- app_assoc. Qed.

Lemma extend_nil st : extend [] st = st.
Proof. destruct st. unfold extend. simpl. now rewrite app_nil_r. Qed.

Lemma extend_extend a b st : extend b (extend a st) = extend (a ++ b) st.
Proof. unfold extend. simpl. now rewrite <- app_assoc. Qed.

Lemma emit_as_extend ev st : emit ev st = extend [ev] st.
Proof. reflexivity. Qed.

Lemma not_instance_of_not_found (e : exn) :
  exn_type e = TrelloProvisioningError ->
  isinstance e NoSuchElementException = false.
Proof. unfold isinstance. now intros ->. Qed.

Section Search.

Variable env : Env.
Variable act : element -> M unit.
Variable found_msg : string -> string.

Lemma search_found selector rest st el st1 :
  TrelloProvisioning.try_selector env act found_msg selector st
  = (Ok (Some el), st1) ->
  TrelloProvisioning.fallback_search env act found_msg (selector :: rest) st
  = (Ok (Some el), st1).
Proof.
  intros H. cbn [TrelloProvisioning.fallback_search].
  unfold bind at 1, try_except. now rewrite H.
Qed.

Lemma search_advances selector rest st e st1 :
  TrelloProvisioning.try_selector env act found_msg selector st
  = (Raise e, st1) ->
  isinstance e NoSuchElementException = true ->
  TrelloProvisioning.fallback_search env act found_msg (selector :: rest) st
  = TrelloProvisioning.fallback_search env act found_msg rest st1.
Proof.
  intros H He. cbn [TrelloProvisioning.fallback_search].
  unfold bind at 1, try_except. rewrite H. cbn [select_clause].
  now rewrite He.
Qed.

Lemma search_aborts selector rest st e st1 :
  TrelloProvisioning.try_selector env act found_msg selector st
  = (Raise e, st1) ->
  isinstance e NoSuchElementException = false ->
  TrelloProvisioning.fallback_search env act found_msg (selector :: rest) st
  = (Raise e, st1).
Proof.
  intros H He. cbn [TrelloProvisioning.fallback_search].
  unfold bind at 1, try_except. rewrite H. cbn [select_clause].
  now rewrite He.
Qed.

(** A lookup that misses: the body of the [try] raises at once. *)
Lemma try_selector_miss selector st :
  driver st <> None ->
  is_miss (env_element env (trace st) (FindElement By_XPATH selector)) = true ->
  exists e,
    TrelloProvisioning.try_selector env act found_msg selector st
    = (Raise e, emit (FindElement By_XPATH selector) st)
    /\ isinstance e NoSuchElementException = true.
Proof.
  intros Hd Hm. unfold TrelloProvisioning.try_selector, bind at 1.
  unfold find_element, on_driver, call_element.
  destruct (driver st); [| contradiction].
  destruct (env_element env (trace st) (FindElement By_XPATH selector))
    as [el | e]; [discriminate |].
  now exists e.
Qed.

(** A lookup that matches: the element is acted on next. *)
Lemma try_selector_match selector st el :
  driver st <> None ->
  env_element env (trace st) (FindElement By_XPATH selector) = Ok el ->
  TrelloProvisioning.try_selector env act found_msg selector st
  = match act el (emit (FindElement By_XPATH selector) st) with
    | (Ok _, st1) => (Ok (Some el), emit (Log INFO (found_msg selector)) st1)
    | (Raise e, st1) => (Raise e, st1)
    end.
Proof.
  intros Hd Hm. unfold TrelloProvisioning.try_selector, bind at 1.
  unfold find_element, on_driver, call_element.
  destruct (driver st); [| contradiction].
  rewrite Hm. unfold bind at 1.
  destruct (act el _) as [[[] | e] st1]; reflexivity.
Qed.

(** Selectors that all miss are all looked up, in order, and nothing else
    happens. *)
Lemma search_misses pre rest st :
  driver st <> None ->
  misses env (trace st) pre = true ->
  TrelloProvisioning.fallback_search env act found_msg (pre ++ rest) st
  = TrelloProvisioning.fallback_search env act found_msg rest
      (extend (lookups pre) st).
Proof.
  revert st. induction pre as [| selector pre IH]; intros st Hd Hm.
  - now rewrite extend_nil.
  - cbn [misses] in Hm. apply andb_prop in Hm as [Hm1 Hm2].
    destruct (try_selector_miss selector st Hd Hm1) as (e & Hr & He).
    cbn [app]. rewrite (search_advances _ _ _ _ _ Hr He).
    rewrite IH; [| exact Hd | exact Hm2].
    unfold lookups. cbn [map]. rewrite emit_as_extend, extend_extend.
    reflexivity.
Qed.

Lemma search_exhausted selectors st :
  driver st <> None ->
  misses env (trace st) selectors = true ->
  TrelloProvisioning.fallback_search env act found_msg selectors st
  = (Ok None, extend (lookups selectors) st).
Proof.
  intros Hd Hm. rewrite <- (app_nil_r selectors) at 1.
  now rewrite search_misses.
Qed.

(** The first match: what the search does is what acting on it does. *)
Lemma search_first_match pre selector post el st :
  driver st <> None ->
  misses env (trace st) pre = true ->
  env_element env (trace st ++ lookups pre)%list (FindElement By_XPATH selector)
  = Ok el ->
  (forall st0 e st1,
      act el st0 = (Raise e, st1) ->
      isinstance e NoSuchElementException = false) ->
  TrelloProvisioning.fallback_search env act found_msg
    (pre ++ selector :: post) st
  = match act el (extend (lookups pre ++ [FindElement By_XPATH selector]) st)
    with
    | (Ok _, st1) => (Ok (Some el), emit (Log INFO (found_msg selector)) st1)
    | (Raise e, st1) => (Raise e, st1)
    end.
Proof.
  intros Hd Hm Hel Hact. rewrite search_misses by assumption.
  pose proof (try_selector_match selector (extend (lookups pre) st) el Hd Hel)
    as Ht.
  rewrite extend_emit in Ht.
  destruct (act el _) as [[[] | e] st1] eqn:Ha.
  - now apply search_found.
  - apply search_aborts; [exact Ht |]. eapply Hact. exact Ha.
Qed.

End Search.

(** * What the steps call *)

Ltac handlers :=
  repeat (apply Forall_cons; [intros ?; cbn [snd] |]); try apply Forall_nil.

Ltac respects_step :=
  match goal with
  | |- respects _ (bind _ _) => apply respects_bind; [| intros ?]
  | |- respects _ (try_except _ _) =>
      apply respects_try_except; [| handlers]
  | |- respects _ (ret _) => apply respects_ret
  | |- respects _ (raise _) => apply respects_raise
  | |- respects _ (log _ _) => apply respects_log
  | |- respects _ (sleep _) => apply respects_sleep
  | |- respects _ (driver_get _ _) => apply respects_on_driver
  | |- respects _ (find_element _ _ _) => apply respects_on_driver
  | |- respects _ (find_elements _ _ _) => apply respects_on_driver
  | |- respects _ (execute_script _ _ _) => apply respects_on_driver
  | |- respects _ (current_url _) => apply respects_on_driver
  | |- respects _ (on_driver _ _) => apply respects_on_driver
  | |- respects _ (click _ _) => apply respects_call_unit
  | |- respects _ (clear _ _) => apply respects_call_unit
  | |- respects _ (send_keys _ _ _) => apply respects_call_unit
  | |- respects _ (text_of _ _) => apply respects_call_string
  | |- respects _ (input _ _) => apply respects_call_string
  | |- respects _ (call_unit _ _) => apply respects_call_unit
  | |- respects _ (call_element _ _) => apply respects_call_element
  | |- respects _ (call_elements _ _) => apply respects_call_elements
  | |- respects _ (call_string _ _) => apply respects_call_string
  | |- respects _ (wait_until _ _) => apply respects_wait_until; intros ?
  | |- respects _ (wait_until_element _ _) =>
      apply respects_wait_until_element; intros ?
  | |- respects _ (if ?b then _ else _) => destruct b
  | |- respects _ (match ?x with _ => _ end) => destruct x
  end.

Ltac respects_all := repeat (respects_step; auto).

Section StepsCalls.

Variable ok : event -> bool.
Hypothesis ok_log : forall l m, ok (Log l m) = true.
Hypothesis ok_sleep : forall n, ok (Sleep n) = true.

Variable env : Env.
Variable self : TrelloProvisioning.self_t.

Lemma respects_retry_loop {A} name (operation : M A) attempts last :
  respects (quiet ok) operation ->
  respects (quiet ok)
           (TrelloProvisioning.retry_loop self name operation attempts last).
Proof.
  intros Hop. revert last.
  induction attempts as [| attempt rest IH]; intros last;
    cbn [TrelloProvisioning.retry_loop]; respects_all.
Qed.

Lemma respects_safe_click el :
  ok (Click el) = true ->
  (forall s, ok (ExecuteScript s el) = true) ->
  respects (quiet ok) (TrelloProvisioning._safe_click env self el).
Proof.
  intros Hc Hx. unfold TrelloProvisioning._safe_click,
    TrelloProvisioning._retry_operation.
  apply respects_retry_loop.
  unfold TrelloProvisioning.click_operation. respects_all.
Qed.

Lemma respects_fallback_search act found_msg selectors :
  (forall v, ok (FindElement By_XPATH v) = true) ->
  (forall el, respects (quiet ok) (act el)) ->
  respects (quiet ok)
           (TrelloProvisioning.fallback_search env act found_msg selectors).
Proof.
  intros Hf Hact.
  induction selectors as [| selector rest IH];
    cbn [TrelloProvisioning.fallback_search];
    unfold TrelloProvisioning.try_selector; respects_all.
Qed.

Lemma starts_bind_at {A B} pfx (m : M A) (k : A -> M B) st :
  starts_at ok pfx m st ->
  (forall a, respects (quiet ok) (k a)) ->
  starts_at ok pfx (bind m k) st.
Proof.
  intros (evs & Ht & Hok) Hk. unfold starts_at, bind.
  destruct (m st) as [[a | e] st1]; cbn [snd] in *.
  - destruct (Hk a st1) as (_ & _ & evs2 & Ht2 & Hok2).
    exists (evs ++ evs2)%list. split.
    + rewrite Ht2, Ht. now rewrite <- !app_assoc.
    + now rewrite forallb_app, Hok, Hok2.
  - now exists evs.
Qed.

Lemma select_clause_respects {A} (cs : list (clause A)) e h :
  Forall (fun c => forall e, respects (quiet ok) (snd c e)) cs ->
  select_clause e cs = Some h ->
  respects (quiet ok) h.
Proof.
  intros Hcs Hs. induction Hcs as [| [c hc] cs' Hc _ IH];
    cbn [select_clause] in Hs; [discriminate |].
  destruct (isinstance e c); [injection Hs as <-; apply Hc | auto].
Qed.

Lemma starts_try_except_at {A} pfx (m : M A) (cs : list (clause A)) st :
  starts_at ok pfx m st ->
  Forall (fun c => forall e, respects (quiet ok) (snd c e)) cs ->
  starts_at ok pfx (try_except m cs) st.
Proof.
  intros (evs & Ht & Hok) Hcs. unfold starts_at, try_except.
  destruct (m st) as [[a | e] st1]; cbn [snd] in *.
  - now exists evs.
  - destruct (select_clause e cs) as [h |] eqn:Hs; [| now exists evs].
    destruct (select_clause_respects cs e h Hcs Hs st1)
      as (_ & _ & evs2 & Ht2 & Hok2).
    exists (evs ++ evs2)%list. split.
    + rewrite Ht2, Ht. now rewrite <- !app_assoc.
    + now rewrite forallb_app, Hok, Hok2.
Qed.

Lemma starts_bind {A B} pfx (m : M A) (k : A -> M B) :
  starts_with ok pfx m ->
  (forall a, respects (quiet ok) (k a)) ->
  starts_with ok pfx (bind m k).
Proof. intros Hm Hk st. apply starts_bind_at; auto. Qed.

Lemma starts_try_except {A} pfx (m : M A) (cs : list (clause A)) :
  starts_with ok pfx m ->
  Forall (fun c => forall e, respects (quiet ok) (snd c e)) cs ->
  starts_with ok pfx (try_except m cs).
Proof. intros Hm Hcs st. apply starts_try_except_at; auto. Qed.

Lemma starts_driver_get_at url st :
  driver st <> None -> starts_at ok [Get url] (driver_get env url) st.
Proof.
  intros Hd. exists []. split; [| reflexivity].
  unfold driver_get, on_driver, call_unit.
  destruct (driver st); [| contradiction].
  now destruct (env_unit env (trace st) (Get url)).
Qed.

Lemma starts_log {A} l msg pfx (m : M A) :
  starts_with ok pfx m ->
  starts_with ok (Log l msg :: pfx) (bind (log l msg) (fun _ => m)).
Proof.
  intros Hm st. unfold starts_at, bind, log.
  destruct (Hm (emit (Log l msg) st)) as (evs & Ht & Hok).
  exists evs. split; [| exact Hok].
  rewrite Ht. cbn [trace emit]. now rewrite <- app_assoc.
Qed.

Lemma starts_call_unit ev : starts_with ok [ev] (call_unit env ev).
Proof.
  intros st. exists []. split; [| reflexivity].
  unfold call_unit. now destruct (env_unit env (trace st) ev).
Qed.

(** With at least one attempt allowed, [_safe_click] clicks the element
    first; nothing it does afterwards is a lookup. *)
Lemma safe_click_clicks_first el :
  0 < TrelloProvisioning.max_retries self ->
  ok (Click el) = true ->
  (forall s, ok (ExecuteScript s el) = true) ->
  starts_with ok [first_click_attempt self; Click el]
    (TrelloProvisioning._safe_click env self el).
Proof.
  intros Hn Hc Hx. unfold TrelloProvisioning._safe_click,
    TrelloProvisioning._retry_operation.
  change (first_click_attempt self)
    with (Log DEBUG ("Attempt " ++ str_of_nat (0 + 1) ++ "/"
                       ++ str_of_nat (TrelloProvisioning.max_retries self)
                       ++ " for click_operation")).
  destruct (TrelloProvisioning.max_retries self) as [| n] eqn:Hmax; [lia |].
  cbn [seq TrelloProvisioning.retry_loop]. rewrite Hmax.
  apply starts_bind.
  - apply starts_try_except.
    + apply starts_log. apply starts_bind.
      * unfold TrelloProvisioning.click_operation.
        apply starts_try_except; [apply starts_call_unit |].
        handlers. respects_all.
      * intros a. respects_all.
    + handlers. respects_all.
  - intros [a | e]; [respects_all |].
    apply respects_retry_loop.
    unfold TrelloProvisioning.click_operation. respects_all.
Qed.

End StepsCalls.

Lemma retry_loop_raises_provisioning_error {A}
      (self : TrelloProvisioning.self_t) name (operation : M A)
      attempts last st e st' :
  TrelloProvisioning.retry_loop self name operation attempts last st
  = (Raise e, st') ->
  exn_type e = TrelloProvisioningError.
Proof.
  revert last st. induction attempts as [| attempt rest IH]; intros last st.
  - cbn [TrelloProvisioning.retry_loop]. unfold bind, log, raise.
    now intros [= <- _].
  - cbn [TrelloProvisioning.retry_loop].
    unfold bind at 1, try_except, bind at 1, log at 1, bind at 1.
    destruct (operation _) as [[a | e0] st1].
    + discriminate.
    + cbn [select_clause]. rewrite isinstance_Exception.
      unfold bind, log, sleep, ret. apply IH.
Qed.

Lemma safe_click_raises_provisioning_error env self el st e st' :
  TrelloProvisioning._safe_click env self el st = (Raise e, st') ->
  isinstance e NoSuchElementException = false.
Proof.
  intros H. apply not_instance_of_not_found.
  eapply retry_loop_raises_provisioning_error. exact H.
Qed.

Lemma safe_click_returns env self el st :
  0 < TrelloProvisioning.max_retries self ->
  env_unit env (trace (tp_before_attempt self "click_operation" 0 st))
           (Click el) = None ->
  TrelloProvisioning._safe_click env self el st
  = (Ok tt, emit (Click el) (tp_before_attempt self "click_operation" 0 st)).
Proof.
  intros Hn Hc. unfold TrelloProvisioning._safe_click.
  apply (@retry_operation_succeeds unit self "click_operation" _ st [] st).
  - apply tp_fails_nil.
  - exact Hn.
  - cbn [length]. unfold TrelloProvisioning.click_operation, try_except,
      click, call_unit. now rewrite Hc.
Qed.

Lemma fill_email_run env email el st :
  TrelloProvisioning.fill_email env email el st
  = match env_unit env (trace st) (Clear el) with
    | Some e => (Raise e, emit (Clear el) st)
    | None =>
        match env_unit env (trace st ++ [Clear el])%list (SendKeys el email)
        with
        | Some e => (Raise e, emit (SendKeys el email) (emit (Clear el) st))
        | None => (Ok tt, emit (SendKeys el email) (emit (Clear el) st))
        end
    end.
Proof.
  unfold TrelloProvisioning.fill_email, bind, clear, send_keys, call_unit.
  destruct (env_unit env (trace st) (Clear el)); [reflexivity |].
  cbn [trace emit].
  now destruct (env_unit env (trace st ++ [Clear el]) (SendKeys el email)).
Qed.

Lemma fill_search_appends env email found_msg selectors st :
  exists evs,
    trace (snd (TrelloProvisioning.fallback_search env
                  (TrelloProvisioning.fill_email env email) found_msg
                  selectors st))
    = (trace st ++ evs)%list.
Proof.
  destruct (respects_fallback_search (fun _ => true) (fun _ _ => eq_refl)
              env (TrelloProvisioning.fill_email env email) found_msg
              selectors (fun _ => eq_refl)) with (st := st)
    as (_ & _ & evs & Hevs & _).
  - intros el. unfold TrelloProvisioning.fill_email. respects_all.
  - now exists evs.
Qed.

(** C3 (as amended).  Let the first [k-1] selectors of a locator list miss
    and the [k]-th match element [el].  A search that clicks (workspace,
    invite button, submit button) goes through exactly those [k] lookups
    and then clicks [el]; whatever follows, it makes no further lookup; it
    returns [el] when the click returns, and in every case it either
    returns [el] or fails with a [TrelloProvisioningError].  The search
    that fills (email input) goes through the same [k] lookups and then
    clears [el], and once the clearing returned types the email into it;
    when both return it returns [el], having done exactly that.  It makes
    no further lookup as long as clearing and typing do not answer
    element-not-found; when one of them does, the selector counts as a
    miss and the search goes on with the selector after the [k]-th. *)
Theorem first_match_is_acted_on
        (env : Env) (self : TrelloProvisioning.self_t)
        (found_msg : string -> string)
        (pre : list string) (selector : string) (post : list string)
        (el : element) (st : state) :
  driver st <> None ->
  0 < TrelloProvisioning.max_retries self ->
  misses env (trace st) pre = true ->
  env_element env (trace st ++ lookups pre)%list
              (FindElement By_XPATH selector) = Ok el ->
  let tr := (trace st ++ lookups pre ++ [FindElement By_XPATH selector])%list in
  let attempt_1 := first_click_attempt self in
  (let run :=
     TrelloProvisioning.fallback_search env
       (TrelloProvisioning._safe_click env self) found_msg
       (pre ++ selector :: post) st in
   (exists evs,
       trace (snd run) = (tr ++ [attempt_1; Click el] ++ evs)%list
       /\ forallb not_find_element evs = true)
   /\ (env_unit env (tr ++ [attempt_1])%list (Click el) = None ->
       fst run = Ok (Some el))
   /\ (fst run = Ok (Some el)
       \/ exists e, fst run = Raise e
                    /\ exn_type e = TrelloProvisioningError))
  /\
  (forall email,
      let run :=
        TrelloProvisioning.fallback_search env
          (TrelloProvisioning.fill_email env email) found_msg
          (pre ++ selector :: post) st in
      (exists evs,
          trace (snd run) = (tr ++ [Clear el] ++ evs)%list
          /\ (fill_not_missing env tr el email = true ->
              forallb not_find_element evs = true))
      /\ (env_unit env tr (Clear el) = None ->
          exists evs,
            trace (snd run)
            = (tr ++ [Clear el; SendKeys el email] ++ evs)%list)
      /\ (fill_returns env tr el email = true ->
          run = (Ok (Some el),
                 extend (lookups pre
                           ++ [FindElement By_XPATH selector; Clear el;
                               SendKeys el email;
                               Log INFO (found_msg selector)]) st))
      /\ (forall e,
             env_unit env tr (Clear el) = Some e ->
             isinstance e NoSuchElementException = true ->
             run = TrelloProvisioning.fallback_search env
                     (TrelloProvisioning.fill_email env email) found_msg post
                     (extend (lookups pre
                                ++ [FindElement By_XPATH selector; Clear el])
                             st))
      /\ (forall e,
             env_unit env tr (Clear el) = None ->
             env_unit env (tr ++ [Clear el])%list (SendKeys el email)
             = Some e ->
             isinstance e NoSuchElementException = true ->
             run = TrelloProvisioning.fallback_search env
                     (TrelloProvisioning.fill_email env email) found_msg post
                     (extend (lookups pre
                                ++ [FindElement By_XPATH selector; Clear el;
                                    SendKeys el email])
                             st))).
Proof.
  intros Hd Hn Hm Hel tr attempt_1.
  set (st_k := extend (lookups pre ++ [FindElement By_XPATH selector]) st).
  assert (Htr : trace st_k = tr).
  { unfold st_k, tr. rewrite trace_extend. reflexivity. }
  split.
  - intros run. unfold run.
    rewrite (search_first_match env _ found_msg pre selector post el st
               Hd Hm Hel (safe_click_raises_provisioning_error env self el)).
    fold st_k. split; [| split].
    + destruct (safe_click_clicks_first not_find_element
                  (fun _ _ => eq_refl) (fun _ => eq_refl) env self el Hn
                  eq_refl (fun _ => eq_refl) st_k) as (evs & Ht & Hok).
      fold attempt_1 in Ht. rewrite Htr in Ht.
      destruct (TrelloProvisioning._safe_click env self el st_k)
        as [[[] | e] st1]; cbn [snd] in *.
      * exists (evs ++ [Log INFO (found_msg selector)])%list. split.
        -- cbn [trace emit]. rewrite Ht. trace_eq.
        -- now rewrite forallb_app, Hok.
      * now exists evs.
    + intros Hc. rewrite safe_click_returns; [reflexivity | exact Hn |].
      unfold tp_before_attempt. cbn [trace emit]. rewrite Htr. exact Hc.
    + destruct (TrelloProvisioning._safe_click env self el st_k)
        as [[[] | e] st1] eqn:Hclick; [now left | right].
      exists e. split; [reflexivity |].
      eapply retry_loop_raises_provisioning_error. exact Hclick.
  - intros email run. unfold run.
    rewrite (search_misses env _ found_msg pre (selector :: post) st Hd Hm).
    pose proof (try_selector_match env (TrelloProvisioning.fill_email env email)
                  found_msg selector (extend (lookups pre) st) el Hd Hel)
      as Ht.
    rewrite extend_emit in Ht. fold st_k in Ht.
    rewrite fill_email_run, Htr in Ht.
    assert (Hk1 : extend (lookups pre
                            ++ [FindElement By_XPATH selector; Clear el]) st
                  = emit (Clear el) st_k).
    { unfold st_k. rewrite extend_emit, <- app_assoc. reflexivity. }
    assert (Hk2 : extend (lookups pre
                            ++ [FindElement By_XPATH selector; Clear el;
                                SendKeys el email]) st
                  = emit (SendKeys el email) (emit (Clear el) st_k)).
    { unfold st_k. rewrite !extend_emit, <- !app_assoc. reflexivity. }
    assert (Hk3 : extend (lookups pre
                            ++ [FindElement By_XPATH selector; Clear el;
                                SendKeys el email;
                                Log INFO (found_msg selector)]) st
                  = emit (Log INFO (found_msg selector))
                         (emit (SendKeys el email) (emit (Clear el) st_k))).
    { unfold st_k. rewrite !extend_emit, <- !app_assoc. reflexivity. }
    rewrite Hk1, Hk2, Hk3.
    unfold fill_not_missing, fill_returns.
    destruct (env_unit env tr (Clear el)) as [e1 |] eqn:Hc.
    + (* clearing fails *)
      destruct (isinstance e1 NoSuchElementException) eqn:He1.
      * rewrite (search_advances env _ found_msg selector post _ _ _ Ht He1).
        destruct (fill_search_appends env email found_msg post
                    (emit (Clear el) st_k)) as (evs & Hevs).
        split; [| split; [discriminate | split; [discriminate |]]].
        -- exists evs. split; [| discriminate].
           rewrite Hevs. cbn [trace emit]. rewrite Htr. trace_eq.
        -- split; [reflexivity | discriminate].
      * rewrite (search_aborts env _ found_msg selector post _ _ _ Ht He1).
        split; [| split; [discriminate | split; [discriminate |]]].
        -- exists []. split; [| reflexivity].
           cbn [snd trace emit]. rewrite Htr. trace_eq.
        -- split; [| discriminate].
           intros e [= <-]. congruence.
    + (* clearing returns *)
      destruct (env_unit env (tr ++ [Clear el]) (SendKeys el email))
        as [e2 |] eqn:Hs.
      * destruct (isinstance e2 NoSuchElementException) eqn:He2.
        -- rewrite (search_advances env _ found_msg selector post _ _ _ Ht He2).
           destruct (fill_search_appends env email found_msg post
                       (emit (SendKeys el email) (emit (Clear el) st_k)))
             as (evs & Hevs).
           split; [| split; [| split; [discriminate | split]]].
           ++ exists (SendKeys el email :: evs).
              split; [| unfold not_missing; rewrite He2; discriminate].
              rewrite Hevs. cbn [trace emit]. rewrite Htr. trace_eq.
           ++ intros _. exists evs.
              rewrite Hevs. cbn [trace emit]. rewrite Htr. trace_eq.
           ++ discriminate.
           ++ reflexivity.
        -- rewrite (search_aborts env _ found_msg selector post _ _ _ Ht He2).
           split; [| split; [| split; [discriminate | split]]].
           ++ exists [SendKeys el email]. split; [| reflexivity].
              cbn [snd trace emit]. rewrite Htr. trace_eq.
           ++ intros _. exists [].
              cbn [snd trace emit]. rewrite Htr. trace_eq.
           ++ discriminate.
           ++ intros e _ [= <-]. congruence.
      * rewrite (search_found env _ found_msg selector post _ _ _ Ht).
        split; [| split; [| split; [reflexivity | split; discriminate]]].
        -- exists [SendKeys el email; Log INFO (found_msg selector)].
           split; [| reflexivity].
           cbn [snd trace emit]. rewrite Htr. trace_eq.
        -- intros _. exists [Log INFO (found_msg selector)].
           cbn [snd trace emit]. rewrite Htr. trace_eq.
Qed.

(** A fake DOM in which only the third selector matches: the invite search
    looks up the first three selectors, clicks the match and returns it;
    the email search looks up the first three, clears the match, types the
    email into it and returns it.  Neither looks anything up afterwards. *)
Lemma first_match_is_acted_on_witness :
  (let run :=
     TrelloProvisioning.invite_search
       (only_selector third_invite_selector 42) example_self started in
   fst run = Ok (Some 42) /\
   exists evs,
     trace (snd run)
     = (lookups ["//button[contains(text(), 'Invite')]";
                 "//button[contains(text(), 'Members')]";
                 third_invite_selector]
          ++ [first_click_attempt example_self; Click 42] ++ evs)%list
     /\ forallb not_find_element evs = true)
  /\
  TrelloProvisioning.email_search
    (only_selector third_email_selector 7) "newuser@example.com" started
  = (Ok (Some 7),
     extend (lookups ["//input[@placeholder*='email']";
                      "//input[@id*='email']";
                      third_email_selector]
               ++ [Clear 7; SendKeys 7 "newuser@example.com";
                   Log INFO (email_found_msg third_email_selector)])
            started).
Proof.
  split.
  - destruct (first_match_is_acted_on
                (only_selector third_invite_selector 42) example_self
                invite_found_msg
                ["//button[contains(text(), 'Invite')]";
                 "//button[contains(text(), 'Members')]"]
                third_invite_selector
                ["//*[@data-testid='invite-button']";
                 "//*[@data-testid='members-button']";
                 "//button[contains(@class, 'invite')]";
                 "//button[contains(@title, 'Invite')]";
                 "//*[contains(@class, 'workspace-header')]//*[contains(text(), 'Invite')]"]
                42 started)
      as [(Htrace & Hreturn & _) _].
    + discriminate.
    + simpl. lia.
    + reflexivity.
    + reflexivity.
    + split; [exact (Hreturn eq_refl) | exact Htrace].
  - destruct (first_match_is_acted_on
                (only_selector third_email_selector 7) example_self
                email_found_msg
                ["//input[@placeholder*='email']"; "//input[@id*='email']"]
                third_email_selector
                ["//input[@type='email']";
                 "//*[@data-testid='invite-email-input']";
                 "//textarea[contains(@placeholder, 'email')]"]
                7 started)
      as [_ Hfill].
    + discriminate.
    + simpl. lia.
    + reflexivity.
    + reflexivity.
    + destruct (Hfill "newuser@example.com") as (_ & _ & Hreturn & _).
      exact (Hreturn eq_refl).
Defined.

(** C3 as stated does not hold of the search that fills.  The [try] around
    one selector also covers the filling: here the first email selector is
    the first that matches (element 7), but by the time the element is
    cleared it is gone and the browser answers element-not-found; the
    search takes the selector for a miss, goes on to the second selector
    and fills and returns element 8. *)
Lemma fill_claim_counterexample :
  env_element clear_not_found (trace started)
              (FindElement By_XPATH "//input[@placeholder*='email']") = Ok 7
  /\
  (let run := TrelloProvisioning.email_search clear_not_found
                "newuser@example.com" started in
   fst run = Ok (Some 8) /\
   trace (snd run)
   = [FindElement By_XPATH "//input[@placeholder*='email']"; Clear 7;
      FindElement By_XPATH "//input[@id*='email']"; Clear 8;
      SendKeys 8 "newuser@example.com";
      Log INFO "Email entered using selector: //input[@id*='email']"]).
Proof. repeat split; reflexivity. Qed.

(** * The steps wrap what their searches raise *)

Section Steps.

Variable env : Env.
Variable self : TrelloProvisioning.self_t.

Lemma navigate_wraps_search workspace_name st e st1 :
  TrelloProvisioning.workspace_search env self workspace_name
    (emit (Log INFO ("Navigating to workspace: " ++ workspace_name)) st)
  = (Raise e, st1) ->
  TrelloProvisioning.navigate_to_workspace env self workspace_name st
  = (Raise (navigate_error workspace_name e),
     logged_error (navigate_error workspace_name e) st1).
Proof.
  intros H. unfold TrelloProvisioning.navigate_to_workspace, try_except.
  unfold bind at 1, log at 1. unfold bind at 1. rewrite H.
  cbn [select_clause]. rewrite isinstance_Exception. reflexivity.
Qed.

(** Whatever stops the second pass, the step ends in "not found". *)
Lemma navigate_boards_failure workspace_name st st1 st2 :
  TrelloProvisioning.workspace_search env self workspace_name
    (emit (Log INFO ("Navigating to workspace: " ++ workspace_name)) st)
  = (Ok None, st1) ->
  TrelloProvisioning.workspace_search_boards env self workspace_name st1
  = (Ok false, st2) ->
  TrelloProvisioning.navigate_to_workspace env self workspace_name st
  = (Raise (navigate_error workspace_name
              (workspace_not_found workspace_name)),
     logged_error (navigate_error workspace_name
                     (workspace_not_found workspace_name))
       (logged_error (workspace_not_found workspace_name) st2)).
Proof.
  intros H1 H2. unfold TrelloProvisioning.navigate_to_workspace, try_except.
  unfold bind at 1, log at 1. unfold bind at 1. rewrite H1.
  unfold TrelloProvisioning.navigate_finish.
  cbn [TrelloProvisioning.is_some]. unfold bind at 1. rewrite H2.
  cbn [negb]. unfold bind at 1, bind at 1, log at 1, raise at 1.
  cbn [select_clause]. rewrite isinstance_Exception. reflexivity.
Qed.

Lemma boards_search_failure workspace_name st st1 e st2 :
  driver_get env TrelloProvisioning.boards_url st = (Ok tt, st1) ->
  TrelloProvisioning.fallback_search env
    (TrelloProvisioning._safe_click env self)
    (fun _ => "Workspace found in boards view")
    (TrelloProvisioning.workspace_selectors workspace_name)
    (emit (Sleep 3) st1)
  = (Raise e, st2) ->
  TrelloProvisioning.workspace_search_boards env self workspace_name st
  = (Ok false,
     emit (Log WARNING ("Failed to navigate to boards view: " ++ str e)) st2).
Proof.
  intros H1 H2. unfold TrelloProvisioning.workspace_search_boards, try_except.
  unfold bind at 1. rewrite H1. unfold bind at 1, sleep at 1.
  unfold bind at 1. rewrite H2.
  cbn [select_clause]. rewrite isinstance_Exception. reflexivity.
Qed.

Lemma add_new_user_wraps_invite_search email st e st1 :
  TrelloProvisioning.invite_search env self
    (emit (Log INFO ("Adding new user: " ++ email)) st)
  = (Raise e, st1) ->
  TrelloProvisioning.add_new_user env self email st
  = (Raise (add_user_error email e), logged_error (add_user_error email e) st1).
Proof.
  intros H. unfold TrelloProvisioning.add_new_user, try_except,
    TrelloProvisioning.add_new_user_body.
  unfold bind at 1, log at 1. unfold bind at 1. rewrite H.
  cbn [select_clause]. rewrite isinstance_Exception. reflexivity.
Qed.

Lemma add_new_user_wraps_email_search email st button st1 e st2 :
  TrelloProvisioning.invite_search env self
    (emit (Log INFO ("Adding new user: " ++ email)) st)
  = (Ok (Some button), st1) ->
  TrelloProvisioning.email_search env email (emit (Sleep 2) st1)
  = (Raise e, st2) ->
  TrelloProvisioning.add_new_user env self email st
  = (Raise (add_user_error email e), logged_error (add_user_error email e) st2).
Proof.
  intros H1 H2. unfold TrelloProvisioning.add_new_user, try_except,
    TrelloProvisioning.add_new_user_body.
  unfold bind at 1, log at 1. unfold bind at 1. rewrite H1.
  cbn [TrelloProvisioning.is_some negb].
  unfold bind at 1, ret at 1, bind at 1, sleep at 1. unfold bind at 1.
  rewrite H2. cbn [select_clause]. rewrite isinstance_Exception. reflexivity.
Qed.

Lemma add_new_user_wraps_submit_search email st button st1 input st2 e st3 :
  TrelloProvisioning.invite_search env self
    (emit (Log INFO ("Adding new user: " ++ email)) st)
  = (Ok (Some button), st1) ->
  TrelloProvisioning.email_search env email (emit (Sleep 2) st1)
  = (Ok (Some input), st2) ->
  TrelloProvisioning.submit_search env self st2 = (Raise e, st3) ->
  TrelloProvisioning.add_new_user env self email st
  = (Raise (add_user_error email e), logged_error (add_user_error email e) st3).
Proof.
  intros H1 H2 H3. unfold TrelloProvisioning.add_new_user, try_except,
    TrelloProvisioning.add_new_user_body.
  unfold bind at 1, log at 1. unfold bind at 1. rewrite H1.
  cbn [TrelloProvisioning.is_some negb].
  unfold bind at 1, ret at 1, bind at 1, sleep at 1. unfold bind at 1.
  rewrite H2. unfold bind at 1. rewrite H3.
  cbn [select_clause]. rewrite isinstance_Exception. reflexivity.
Qed.

(** A [try] whose only clause wraps every exception lets out nothing but
    the wrapper. *)
Lemma wrapped_raises_provisioning_error {A} (body : M A)
      (error_msg : exn -> string) st e st' :
  try_except body
    [(Exception_, fun e0 =>
        log ERROR (error_msg e0) ;;
        raise (mk_exn TrelloProvisioningError (error_msg e0)))] st
  = (Raise e, st') ->
  exn_type e = TrelloProvisioningError.
Proof.
  unfold try_except. destruct (body st) as [[a | e0] st1]; [discriminate |].
  cbn [select_clause]. rewrite isinstance_Exception.
  unfold bind, log, raise. now intros [= <- _].
Qed.

Lemma navigate_raises_provisioning_error workspace_name st e st' :
  TrelloProvisioning.navigate_to_workspace env self workspace_name st
  = (Raise e, st') ->
  exn_type e = TrelloProvisioningError.
Proof.
  apply (wrapped_raises_provisioning_error _
           (fun e0 => "Failed to navigate to workspace '" ++ workspace_name
                        ++ "': " ++ str e0)).
Qed.

Lemma add_new_user_raises_provisioning_error email st e st' :
  TrelloProvisioning.add_new_user env self email st = (Raise e, st') ->
  exn_type e = TrelloProvisioningError.
Proof.
  apply (wrapped_raises_provisioning_error _
           (fun e0 => "Failed to add user '" ++ email ++ "': " ++ str e0)).
Qed.

End Steps.

(** ** Failures that are not a miss *)

Section SearchBreaks.

Variable env : Env.
Variable self : TrelloProvisioning.self_t.

(** A lookup that fails with anything but element-not-found ends the
    search there. *)
Lemma search_breaks act found_msg pre selector post st e :
  driver st <> None ->
  misses env (trace st) pre = true ->
  env_element env (trace st ++ lookups pre)%list
              (FindElement By_XPATH selector) = Raise e ->
  isinstance e NoSuchElementException = false ->
  TrelloProvisioning.fallback_search env act found_msg
    (pre ++ selector :: post) st
  = (Raise e, extend (lookups pre ++ [FindElement By_XPATH selector]) st).
Proof.
  intros Hd Hm Hel He.
  rewrite (search_misses env act found_msg pre (selector :: post) st Hd Hm).
  rewrite (search_aborts env act found_msg selector post
             (extend (lookups pre) st) e
             (emit (FindElement By_XPATH selector) (extend (lookups pre) st))).
  - now rewrite extend_emit.
  - unfold TrelloProvisioning.try_selector, bind at 1.
    unfold find_element, on_driver, call_element.
    cbn [driver extend]. destruct (driver st); [| contradiction].
    rewrite trace_extend, Hel. reflexivity.
  - exact He.
Qed.

(** A failure of the filling that is not element-not-found ends the search
    there too. *)
Lemma fill_search_breaks email found_msg pre selector post st el :
  driver st <> None ->
  misses env (trace st) pre = true ->
  env_element env (trace st ++ lookups pre)%list
              (FindElement By_XPATH selector) = Ok el ->
  let st_k := extend (lookups pre ++ [FindElement By_XPATH selector]) st in
  (forall e,
      env_unit env (trace st_k) (Clear el) = Some e ->
      isinstance e NoSuchElementException = false ->
      TrelloProvisioning.fallback_search env
        (TrelloProvisioning.fill_email env email) found_msg
        (pre ++ selector :: post) st
      = (Raise e, extend [Clear el] st_k))
  /\ (forall e,
         env_unit env (trace st_k) (Clear el) = None ->
         env_unit env (trace st_k ++ [Clear el])%list (SendKeys el email)
         = Some e ->
         isinstance e NoSuchElementException = false ->
         TrelloProvisioning.fallback_search env
           (TrelloProvisioning.fill_email env email) found_msg
           (pre ++ selector :: post) st
         = (Raise e, extend [Clear el; SendKeys el email] st_k)).
Proof.
  intros Hd Hm Hel st_k.
  pose proof (try_selector_match env (TrelloProvisioning.fill_email env email)
                found_msg selector (extend (lookups pre) st) el Hd Hel)
    as Ht.
  rewrite extend_emit in Ht. fold st_k in Ht.
  rewrite fill_email_run in Ht.
  split.
  - intros e Hc He. rewrite Hc in Ht.
    rewrite (search_misses env _ found_msg pre (selector :: post) st Hd Hm).
    rewrite (search_aborts env _ found_msg selector post _ _ _ Ht He).
    now rewrite emit_as_extend.
  - intros e Hc Hs He. rewrite Hc, Hs in Ht.
    rewrite (search_misses env _ found_msg pre (selector :: post) st Hd Hm).
    rewrite (search_aborts env _ found_msg selector post _ _ _ Ht He).
    now rewrite (emit_as_extend (Clear el)), extend_emit.
Qed.

Lemma last_exception_repeat e n last :
  last_exception (repeat e (S n)) last = Some e.
Proof.
  unfold last_exception. revert last.
  induction n as [| n IH]; intros last; [reflexivity |].
  change (repeat e (S (S n))) with (e :: repeat e (S n)).
  cbn [fold_left]. apply IH.
Qed.

(** A click that fails every time, other than by being intercepted, fails
    every attempt of [_safe_click]. *)
Lemma click_fails_every_attempt el e n attempt st :
  (forall tr, env_unit env tr (Click el) = Some e) ->
  isinstance e ElementClickInterceptedException = false ->
  exists st',
    tp_fails self "click_operation"
             (TrelloProvisioning.click_operation env el) attempt st
             (repeat e n) st'.
Proof.
  intros Hc Hi. revert attempt st.
  induction n as [| n IH]; intros attempt st.
  - exists st. apply tp_fails_nil.
  - destruct (IH (S attempt)
                 (tp_after_failure self attempt e
                    (emit (Click el)
                          (tp_before_attempt self "click_operation" attempt
                             st)))) as (st' & Hf).
    exists st'. cbn [repeat]. eapply tp_fails_cons; [| exact Hf].
    unfold TrelloProvisioning.click_operation, try_except, click, call_unit.
    rewrite Hc. cbn [select_clause]. now rewrite Hi.
Qed.

Lemma safe_click_gives_up el e st :
  0 < TrelloProvisioning.max_retries self ->
  (forall tr, env_unit env tr (Click el) = Some e) ->
  isinstance e ElementClickInterceptedException = false ->
  exists st',
    TrelloProvisioning._safe_click env self el st
    = (Raise (click_error self e), st')
    /\ exists evs,
        trace st' = (trace st ++ evs)%list
        /\ forallb not_find_element evs = true.
Proof.
  intros Hn Hc Hi.
  destruct (click_fails_every_attempt el e
              (TrelloProvisioning.max_retries self) 0 st Hc Hi)
    as (st1 & Hf).
  pose proof (respects_safe_click not_find_element (fun _ _ => eq_refl)
                (fun _ => eq_refl) env self el eq_refl (fun _ => eq_refl) st)
    as (_ & _ & evs & Ht & Hok).
  unfold TrelloProvisioning._safe_click in *.
  rewrite (retry_operation_exhausted Hf (repeat_length e _)) in *.
  eexists. split.
  - unfold click_error.
    destruct (TrelloProvisioning.max_retries self) as [| n]; [lia |].
    rewrite last_exception_repeat. reflexivity.
  - exists evs. split; [exact Ht | exact Hok].
Qed.

(** So the clicking search ends there as well. *)
Lemma click_search_breaks found_msg pre selector post st el e :
  driver st <> None ->
  0 < TrelloProvisioning.max_retries self ->
  misses env (trace st) pre = true ->
  env_element env (trace st ++ lookups pre)%list
              (FindElement By_XPATH selector) = Ok el ->
  (forall tr, env_unit env tr (Click el) = Some e) ->
  isinstance e ElementClickInterceptedException = false ->
  exists st',
    TrelloProvisioning.fallback_search env
      (TrelloProvisioning._safe_click env self) found_msg
      (pre ++ selector :: post) st
    = (Raise (click_error self e), st')
    /\ exists evs,
        trace st'
        = (trace st ++ lookups pre ++ [FindElement By_XPATH selector]
             ++ evs)%list
        /\ forallb not_find_element evs = true.
Proof.
  intros Hd Hn Hm Hel Hc Hi.
  rewrite (search_first_match env _ found_msg pre selector post el st
             Hd Hm Hel (safe_click_raises_provisioning_error env self el)).
  destruct (safe_click_gives_up el e
              (extend (lookups pre ++ [FindElement By_XPATH selector]) st)
              Hn Hc Hi) as (st' & -> & evs & Ht & Hok).
  exists st'. split; [reflexivity |].
  exists evs. split; [| exact Hok].
  rewrite Ht, trace_extend, <- !app_assoc. reflexivity.
Qed.

End SearchBreaks.

(** C9.  In the ordered-fallback searches of script.py only
    element-not-found moves the search on: the selectors that miss are
    each followed by the lookup of the next one.  Every other failure ends
    the search at that selector, the remaining ones untried: a lookup that
    raises anything else; a click that fails, however it fails (a click that
    keeps failing makes [_safe_click] give up with a
    [TrelloProvisioningError] after its retries); clearing or typing that
    raises anything else.  The step then fails with a
    [TrelloProvisioningError] around that failure: [navigate_to_workspace]
    on the current page and [add_new_user] in its invite, email and submit
    searches; in the boards view the failure is logged as a warning and
    the step fails with "workspace not found".  Neither step ever raises
    anything but a [TrelloProvisioningError]. *)
Theorem search_advances_only_on_not_found
        (env : Env) (self : TrelloProvisioning.self_t)
        (act : element -> M unit) (found_msg : string -> string)
        (pre : list string) (selector : string) (post : list string)
        (workspace_name email : string) (st : state) :
  driver st <> None ->
  misses env (trace st) pre = true ->
  let lookup :=
    env_element env (trace st ++ lookups pre)%list
                (FindElement By_XPATH selector) in
  let st_k := extend (lookups pre ++ [FindElement By_XPATH selector]) st in
  (* element-not-found moves on *)
  TrelloProvisioning.fallback_search env act found_msg
    (pre ++ selector :: post) st
  = TrelloProvisioning.fallback_search env act found_msg (selector :: post)
      (extend (lookups pre) st)
  (* a lookup that breaks *)
  /\ (forall e,
         lookup = Raise e -> isinstance e NoSuchElementException = false ->
         TrelloProvisioning.fallback_search env act found_msg
           (pre ++ selector :: post) st
         = (Raise e, st_k))
  (* a click that keeps failing *)
  /\ (forall el e,
         0 < TrelloProvisioning.max_retries self ->
         lookup = Ok el ->
         (forall tr, env_unit env tr (Click el) = Some e) ->
         isinstance e ElementClickInterceptedException = false ->
         exists st',
           TrelloProvisioning.fallback_search env
             (TrelloProvisioning._safe_click env self) found_msg
             (pre ++ selector :: post) st
           = (Raise (click_error self e), st')
           /\ exists evs,
               trace st' = (trace st_k ++ evs)%list
               /\ forallb not_find_element evs = true)
  (* however the click fails *)
  /\ (forall el,
         lookup = Ok el ->
         let run :=
           TrelloProvisioning.fallback_search env
             (TrelloProvisioning._safe_click env self) found_msg
             (pre ++ selector :: post) st in
         (exists evs,
             trace (snd run) = (trace st_k ++ evs)%list
             /\ forallb not_find_element evs = true)
         /\ (fst run = Ok (Some el)
             \/ exists e, fst run = Raise e
                          /\ exn_type e = TrelloProvisioningError))
  (* clearing or typing that breaks *)
  /\ (forall el e,
         lookup = Ok el ->
         env_unit env (trace st_k) (Clear el) = Some e ->
         isinstance e NoSuchElementException = false ->
         TrelloProvisioning.fallback_search env
           (TrelloProvisioning.fill_email env email) found_msg
           (pre ++ selector :: post) st
         = (Raise e, extend [Clear el] st_k))
  /\ (forall el e,
         lookup = Ok el ->
         env_unit env (trace st_k) (Clear el) = None ->
         env_unit env (trace st_k ++ [Clear el])%list (SendKeys el email)
         = Some e ->
         isinstance e NoSuchElementException = false ->
         TrelloProvisioning.fallback_search env
           (TrelloProvisioning.fill_email env email) found_msg
           (pre ++ selector :: post) st
         = (Raise e, extend [Clear el; SendKeys el email] st_k))
  (* the workspace search on the current page *)
  /\ (forall st0,
         st = emit (Log INFO ("Navigating to workspace: " ++ workspace_name))
                   st0 ->
         TrelloProvisioning.workspace_selectors workspace_name
         = (pre ++ selector :: post)%list ->
         (forall e,
             lookup = Raise e ->
             isinstance e NoSuchElementException = false ->
             TrelloProvisioning.navigate_to_workspace env self workspace_name
               st0
             = (Raise (navigate_error workspace_name e),
                logged_error (navigate_error workspace_name e) st_k))
         /\ (forall el e,
                0 < TrelloProvisioning.max_retries self ->
                lookup = Ok el ->
                (forall tr, env_unit env tr (Click el) = Some e) ->
                isinstance e ElementClickInterceptedException = false ->
                fst (TrelloProvisioning.navigate_to_workspace env self
                       workspace_name st0)
                = Raise (navigate_error workspace_name (click_error self e))))
  (* the workspace search in the boards view *)
  /\ (forall st0 e,
         let selectors :=
           TrelloProvisioning.workspace_selectors workspace_name in
         let st1 :=
           emit (Log INFO ("Navigating to workspace: " ++ workspace_name))
                st0 in
         misses env (trace st1) selectors = true ->
         env_unit env (trace (extend (lookups selectors) st1))
                  (Get TrelloProvisioning.boards_url) = None ->
         st = emit (Sleep 3)
                   (emit (Get TrelloProvisioning.boards_url)
                         (extend (lookups selectors) st1)) ->
         selectors = (pre ++ selector :: post)%list ->
         lookup = Raise e ->
         isinstance e NoSuchElementException = false ->
         TrelloProvisioning.navigate_to_workspace env self workspace_name st0
         = (Raise (navigate_error workspace_name
                     (workspace_not_found workspace_name)),
            logged_error (navigate_error workspace_name
                            (workspace_not_found workspace_name))
              (logged_error (workspace_not_found workspace_name)
                 (emit (Log WARNING ("Failed to navigate to boards view: "
                                       ++ str e)) st_k))))
  (* the invite search *)
  /\ (forall st0,
         st = emit (Log INFO ("Adding new user: " ++ email)) st0 ->
         TrelloProvisioning.invite_selectors = (pre ++ selector :: post)%list ->
         (forall e,
             lookup = Raise e ->
             isinstance e NoSuchElementException = false ->
             TrelloProvisioning.add_new_user env self email st0
             = (Raise (add_user_error email e),
                logged_error (add_user_error email e) st_k))
         /\ (forall el e,
                0 < TrelloProvisioning.max_retries self ->
                lookup = Ok el ->
                (forall tr, env_unit env tr (Click el) = Some e) ->
                isinstance e ElementClickInterceptedException = false ->
                fst (TrelloProvisioning.add_new_user env self email st0)
                = Raise (add_user_error email (click_error self e))))
  (* the email search *)
  /\ (forall st0 button st1,
         TrelloProvisioning.invite_search env self
           (emit (Log INFO ("Adding new user: " ++ email)) st0)
         = (Ok (Some button), st1) ->
         st = emit (Sleep 2) st1 ->
         TrelloProvisioning.email_selectors = (pre ++ selector :: post)%list ->
         (forall e,
             lookup = Raise e ->
             isinstance e NoSuchElementException = false ->
             TrelloProvisioning.add_new_user env self email st0
             = (Raise (add_user_error email e),
                logged_error (add_user_error email e) st_k))
         /\ (forall el e,
                lookup = Ok el ->
                env_unit env (trace st_k) (Clear el) = Some e ->
                isinstance e NoSuchElementException = false ->
                TrelloProvisioning.add_new_user env self email st0
                = (Raise (add_user_error email e),
                   logged_error (add_user_error email e)
                                (extend [Clear el] st_k)))
         /\ (forall el e,
                lookup = Ok el ->
                env_unit env (trace st_k) (Clear el) = None ->
                env_unit env (trace st_k ++ [Clear el])%list
                         (SendKeys el email) = Some e ->
                isinstance e NoSuchElementException = false ->
                TrelloProvisioning.add_new_user env self email st0
                = (Raise (add_user_error email e),
                   logged_error (add_user_error email e)
                                (extend [Clear el; SendKeys el email] st_k))))
  (* the submit search *)
  /\ (forall st0 button st1 input,
         TrelloProvisioning.invite_search env self
           (emit (Log INFO ("Adding new user: " ++ email)) st0)
         = (Ok (Some button), st1) ->
         TrelloProvisioning.email_search env email (emit (Sleep 2) st1)
         = (Ok (Some input), st) ->
         TrelloProvisioning.submit_selectors = (pre ++ selector :: post)%list ->
         (forall e,
             lookup = Raise e ->
             isinstance e NoSuchElementException = false ->
             TrelloProvisioning.add_new_user env self email st0
             = (Raise (add_user_error email e),
                logged_error (add_user_error email e) st_k))
         /\ (forall el e,
                0 < TrelloProvisioning.max_retries self ->
                lookup = Ok el ->
                (forall tr, env_unit env tr (Click el) = Some e) ->
                isinstance e ElementClickInterceptedException = false ->
                fst (TrelloProvisioning.add_new_user env self email st0)
                = Raise (add_user_error email (click_error self e))))
  (* nothing else ever leaves the steps *)
  /\ (forall st0 e st',
         TrelloProvisioning.navigate_to_workspace env self workspace_name st0
         = (Raise e, st') ->
         exn_type e = TrelloProvisioningError)
  /\ (forall st0 e st',
         TrelloProvisioning.add_new_user env self email st0 = (Raise e, st') ->
         exn_type e = TrelloProvisioningError).
Proof.
  intros Hd Hm lookup st_k.
  split; [now apply search_misses |].
  split; [intros e Hl He; now apply search_breaks |].
  split.
  { intros el e Hn Hl Hc Hi.
    destruct (click_search_breaks env self found_msg pre selector post st el e
                Hd Hn Hm Hl Hc Hi) as (st' & Hrun & evs & Ht & Hok).
    exists st'. split; [exact Hrun |]. exists evs. split; [| exact Hok].
    unfold st_k. rewrite trace_extend, Ht, <- !app_assoc. reflexivity. }
  split.
  { intros el Hl run. unfold run.
    rewrite (search_first_match env _ found_msg pre selector post el st
               Hd Hm Hl (safe_click_raises_provisioning_error env self el)).
    fold st_k.
    pose proof (respects_safe_click not_find_element (fun _ _ => eq_refl)
                  (fun _ => eq_refl) env self el eq_refl (fun _ => eq_refl)
                  st_k) as (_ & _ & evs & Ht & Hok).
    destruct (TrelloProvisioning._safe_click env self el st_k)
      as [[[] | e] st1] eqn:Hclick; cbn [fst snd] in *.
    - split; [| now left].
      exists (evs ++ [Log INFO (found_msg selector)])%list. split.
      + cbn [trace emit]. rewrite Ht. now rewrite <- app_assoc.
      + now rewrite forallb_app, Hok.
    - split; [now exists evs | right].
      exists e. split; [reflexivity |].
      eapply retry_loop_raises_provisioning_error. exact Hclick. }
  split.
  { intros el e Hl.
    exact (proj1 (fill_search_breaks env email found_msg pre selector post st
                    el Hd Hm Hl) e). }
  split.
  { intros el e Hl.
    exact (proj2 (fill_search_breaks env email found_msg pre selector post st
                    el Hd Hm Hl) e). }
  split.
  { intros st0 Hst Hsel. split.
    - intros e Hl He. apply navigate_wraps_search.
      unfold TrelloProvisioning.workspace_search. rewrite Hsel, <- Hst.
      now apply search_breaks.
    - intros el e Hn Hl Hc Hi.
      destruct (click_search_breaks env self
                  (fun selector0 =>
                     "Workspace '" ++ workspace_name
                       ++ "' found and clicked using selector: " ++ selector0)
                  pre selector post st el e Hd Hn Hm Hl Hc Hi)
        as (st' & Hrun & _).
      rewrite (navigate_wraps_search env self workspace_name st0
                 (click_error self e) st'); [reflexivity |].
      unfold TrelloProvisioning.workspace_search. rewrite Hsel, <- Hst.
      exact Hrun. }
  split.
  { intros st0 e selectors st1 Hm1 Hg Hst Hsel Hl He.
    assert (Hd1 : driver st1 <> None).
    { rewrite Hst in Hd. exact Hd. }
    apply (navigate_boards_failure env self workspace_name st0
             (extend (lookups selectors) st1)).
    - unfold TrelloProvisioning.workspace_search. fold selectors st1.
      now apply search_exhausted.
    - apply (boards_search_failure env self workspace_name
               (extend (lookups selectors) st1)
               (emit (Get TrelloProvisioning.boards_url)
                     (extend (lookups selectors) st1)) e st_k).
      + unfold driver_get, on_driver, call_unit.
        destruct (driver (extend (lookups selectors) st1)) eqn:Hd2;
          [| exfalso; apply Hd1; exact Hd2].
        now rewrite Hg.
      + fold selectors. rewrite <- Hst, Hsel. now apply search_breaks. }
  split.
  { intros st0 Hst Hsel. split.
    - intros e Hl He. apply add_new_user_wraps_invite_search.
      unfold TrelloProvisioning.invite_search. rewrite Hsel, <- Hst.
      now apply search_breaks.
    - intros el e Hn Hl Hc Hi.
      destruct (click_search_breaks env self
                  (fun selector0 =>
                     "Invite button clicked using selector: " ++ selector0)
                  pre selector post st el e Hd Hn Hm Hl Hc Hi)
        as (st' & Hrun & _).
      rewrite (add_new_user_wraps_invite_search env self email st0
                 (click_error self e) st'); [reflexivity |].
      unfold TrelloProvisioning.invite_search. rewrite Hsel, <- Hst.
      exact Hrun. }
  split.
  { intros st0 button st1 Hinv Hst Hsel. split; [| split].
    - intros e Hl He.
      apply (add_new_user_wraps_email_search env self email st0 button st1).
      + exact Hinv.
      + unfold TrelloProvisioning.email_search. rewrite Hsel, <- Hst.
        now apply search_breaks.
    - intros el e Hl Hc He.
      apply (add_new_user_wraps_email_search env self email st0 button st1).
      + exact Hinv.
      + unfold TrelloProvisioning.email_search. rewrite Hsel, <- Hst.
        exact (proj1 (fill_search_breaks env email _ pre selector post st
                        el Hd Hm Hl) e Hc He).
    - intros el e Hl Hc Hs He.
      apply (add_new_user_wraps_email_search env self email st0 button st1).
      + exact Hinv.
      + unfold TrelloProvisioning.email_search. rewrite Hsel, <- Hst.
        exact (proj2 (fill_search_breaks env email _ pre selector post st
                        el Hd Hm Hl) e Hc Hs He). }
  split.
  { intros st0 button st1 input Hinv Hem Hsel. split.
    - intros e Hl He.
      apply (add_new_user_wraps_submit_search env self email st0 button st1
               input st).
      + exact Hinv.
      + exact Hem.
      + unfold TrelloProvisioning.submit_search. rewrite Hsel.
        now apply search_breaks.
    - intros el e Hn Hl Hc Hi.
      destruct (click_search_breaks env self
                  (fun selector0 =>
                     "Invite sent using submit button: " ++ selector0)
                  pre selector post st el e Hd Hn Hm Hl Hc Hi)
        as (st' & Hrun & _).
      rewrite (add_new_user_wraps_submit_search env self email st0 button st1
                 input st (click_error self e) st'); [reflexivity | | |].
      + exact Hinv.
      + exact Hem.
      + unfold TrelloProvisioning.submit_search. rewrite Hsel. exact Hrun. }
  split.
  - intros st0 e st'. apply navigate_raises_provisioning_error.
  - intros st0 e st'. apply add_new_user_raises_provisioning_error.
Qed.

(** Three pages.  The first invite lookup misses and the second finds the
    page gone stale: [add_new_user] fails with the wrapped error after two
    lookups in all.  The second invite selector matches a button on which
    no click lands: the step fails with the error of [_safe_click],
    wrapped.  The first email selector matches a field that cannot be
    cleared: the email search stops there with that error. *)
Lemma search_advances_only_on_not_found_witness :
  TrelloProvisioning.add_new_user (lookup_breaks 1 stale) example_self
    "newuser@example.com" started
  = (Raise (add_user_error "newuser@example.com" stale),
     extend
       [Log INFO "Adding new user: newuser@example.com";
        FindElement By_XPATH "//button[contains(text(), 'Invite')]";
        FindElement By_XPATH "//button[contains(text(), 'Members')]";
        Log ERROR
          "Failed to add user 'newuser@example.com': stale element reference"]
       started)
  /\ fst (TrelloProvisioning.add_new_user dead_button example_self
            "newuser@example.com" started)
     = Raise (add_user_error "newuser@example.com"
                (click_error example_self invalid_session))
  /\ TrelloProvisioning.email_search clear_breaks "newuser@example.com" started
     = (Raise stale,
        extend [FindElement By_XPATH "//input[@placeholder*='email']";
                Clear 7] started).
Proof.
  split; [| split].
  - pose proof (search_advances_only_on_not_found
                  (lookup_breaks 1 stale) example_self
                  (TrelloProvisioning._safe_click (lookup_breaks 1 stale)
                                                  example_self)
                  invite_found_msg
                  ["//button[contains(text(), 'Invite')]"]
                  "//button[contains(text(), 'Members')]"
                  (tl (tl TrelloProvisioning.invite_selectors))
                  "Project X" "newuser@example.com"
                  (emit (Log INFO "Adding new user: newuser@example.com")
                        started)
                  ltac:(discriminate) eq_refl)
      as (_ & _ & _ & _ & _ & _ & _ & _ & Hinvite & _).
    destruct (Hinvite started eq_refl eq_refl) as [Hlookup _].
    rewrite (Hlookup stale eq_refl eq_refl). reflexivity.
  - pose proof (search_advances_only_on_not_found
                  dead_button example_self
                  (TrelloProvisioning._safe_click dead_button example_self)
                  invite_found_msg
                  ["//button[contains(text(), 'Invite')]"]
                  "//button[contains(text(), 'Members')]"
                  (tl (tl TrelloProvisioning.invite_selectors))
                  "Project X" "newuser@example.com"
                  (emit (Log INFO "Adding new user: newuser@example.com")
                        started)
                  ltac:(discriminate) eq_refl)
      as (_ & _ & _ & _ & _ & _ & _ & _ & Hinvite & _).
    destruct (Hinvite started eq_refl eq_refl) as [_ Hclick].
    apply (Hclick 3 invalid_session).
    + cbn. lia.
    + reflexivity.
    + intros tr. reflexivity.
    + reflexivity.
  - pose proof (search_advances_only_on_not_found
                  clear_breaks example_self
                  (TrelloProvisioning.fill_email clear_breaks
                                                 "newuser@example.com")
                  email_found_msg
                  []
                  "//input[@placeholder*='email']"
                  (tl TrelloProvisioning.email_selectors)
                  "Project X" "newuser@example.com" started
                  ltac:(discriminate) eq_refl)
      as (_ & _ & _ & _ & Hclear & _).
    apply (Hclear 7 stale); reflexivity.
Defined.

(** * The run *)

Lemma try_except_bind_ok {A B} (m : M A) (k : A -> M B) cs st a st' :
  m st = (Ok a, st') ->
  try_except (bind m k) cs st = try_except (k a) cs st'.
Proof. intros H. unfold try_except, bind. now rewrite H. Qed.

Section Run.

Variable env : Env.
Variable self : TrelloProvisioning.self_t.

Lemma cleanup_returns st :
  exists st', TrelloProvisioning.cleanup env st = (Ok tt, st').
Proof.
  unfold TrelloProvisioning.cleanup. destruct (driver st) eqn:Hd.
  - unfold try_except, bind, driver_quit, on_driver, call_unit. rewrite Hd.
    destruct (env_unit env (trace st) Quit).
    + cbn [select_clause]. rewrite isinstance_Exception. now eexists.
    + now eexists.
  - now eexists.
Qed.

(** The outcome of [run_provisioning] from the outcome of its workflow:
    the value or [False], then [cleanup]. *)
Lemma run_provisioning_outcome email workspace st :
  TrelloProvisioning.run_provisioning env self email workspace st
  = match TrelloProvisioning.workflow env self email workspace st with
    | (Ok success, st1) =>
        (Ok success, snd (TrelloProvisioning.cleanup env st1))
    | (Raise e, st1) =>
        (Ok false,
         snd (TrelloProvisioning.cleanup env (emit (Log ERROR (report e)) st1)))
    end.
Proof.
  unfold TrelloProvisioning.run_provisioning, try_finally, try_except.
  destruct (TrelloProvisioning.workflow env self email workspace st)
    as [[success | e] st1].
  - destruct (cleanup_returns st1) as (st2 & ->). reflexivity.
  - cbn [select_clause]. unfold report.
    destruct (isinstance e CaptchaDetectedException).
    + unfold bind, log, ret.
      destruct (cleanup_returns
                  (emit (Log ERROR ("CAPTCHA intervention required: " ++ str e))
                        st1)) as (st2 & ->).
      reflexivity.
    + destruct (isinstance e TrelloProvisioningError).
      * unfold bind, log, ret.
        destruct (cleanup_returns
                    (emit (Log ERROR ("Provisioning failed: " ++ str e)) st1))
          as (st2 & ->).
        reflexivity.
      * rewrite isinstance_Exception. unfold bind, log, ret.
        destruct (cleanup_returns
                    (emit (Log ERROR ("Unexpected error during provisioning: "
                                        ++ str e)) st1))
          as (st2 & ->).
        reflexivity.
Qed.

Lemma run_provisioning_never_raises email workspace :
  never_raises (TrelloProvisioning.run_provisioning env self email workspace).
Proof.
  intros st. rewrite run_provisioning_outcome.
  destruct (TrelloProvisioning.workflow env self email workspace st)
    as [[success | e] st1]; now eexists; eexists.
Qed.

Lemma workflow_navigate_fails email workspace st st1 st2 e st3 :
  TrelloProvisioning._setup_driver env self st = (Ok tt, st1) ->
  TrelloProvisioning.login env self st1 = (Ok tt, st2) ->
  TrelloProvisioning.navigate_to_workspace env self workspace st2
  = (Raise e, st3) ->
  TrelloProvisioning.workflow env self email workspace st = (Raise e, st3).
Proof.
  intros H1 H2 H3. unfold TrelloProvisioning.workflow.
  rewrite (bind_ok _ _ _ H1), (bind_ok _ _ _ H2).
  now apply bind_raise.
Qed.

Lemma report_provisioning_error e :
  exn_type e = TrelloProvisioningError ->
  report e = "Provisioning failed: " ++ str e.
Proof. intros H. unfold report, isinstance. now rewrite H. Qed.

(** After a first pass that misses everywhere, the next call is the one
    that opens the boards listing. *)
Lemma navigate_opens_boards workspace_name st :
  driver st <> None ->
  misses env
    (trace (emit (Log INFO ("Navigating to workspace: " ++ workspace_name)) st))
    (TrelloProvisioning.workspace_selectors workspace_name) = true ->
  exists evs,
    trace (snd (TrelloProvisioning.navigate_to_workspace env self
                  workspace_name st))
    = (trace (extend (lookups (TrelloProvisioning.workspace_selectors
                                 workspace_name))
                (emit (Log INFO ("Navigating to workspace: "
                                   ++ workspace_name)) st))
         ++ [Get TrelloProvisioning.boards_url] ++ evs)%list.
Proof.
  intros Hd Hm.
  set (st1 := emit (Log INFO ("Navigating to workspace: " ++ workspace_name))
                   st) in *.
  set (st2 := extend (lookups (TrelloProvisioning.workspace_selectors
                                 workspace_name)) st1).
  set (cs := [(Exception_, fun e =>
                 let error_msg :=
                   "Failed to navigate to workspace '" ++ workspace_name
                     ++ "': " ++ str e in
                 log ERROR error_msg ;;
                 raise (mk_exn TrelloProvisioningError error_msg))]
             : list (clause unit)).
  assert (Hnav :
            TrelloProvisioning.navigate_to_workspace env self workspace_name st
            = try_except
                (TrelloProvisioning.navigate_finish env self workspace_name
                                                    None) cs st2).
  { unfold TrelloProvisioning.navigate_to_workspace. fold cs.
    rewrite (try_except_bind_ok
               (log INFO ("Navigating to workspace: " ++ workspace_name))
               _ cs st tt st1 eq_refl).
    apply try_except_bind_ok.
    unfold TrelloProvisioning.workspace_search.
    apply search_exhausted; assumption. }
  rewrite Hnav.
  assert (Hs : starts_at always [Get TrelloProvisioning.boards_url]
                 (try_except
                    (TrelloProvisioning.navigate_finish env self
                       workspace_name None) cs) st2).
  { apply starts_try_except_at; [| unfold cs; handlers; respects_all].
    unfold TrelloProvisioning.navigate_finish.
    cbn [TrelloProvisioning.is_some].
    apply starts_bind_at; [| intros a; respects_all].
    unfold TrelloProvisioning.workspace_search_boards.
    apply starts_try_except_at; [| handlers; respects_all].
    apply starts_bind_at; [apply starts_driver_get_at; exact Hd |].
    intros a. respects_all.
    apply respects_fallback_search; try reflexivity.
    intros el. apply respects_safe_click; reflexivity. }
  destruct Hs as (evs & Ht & _). now exists evs.
Qed.

End Run.

Section WorkspaceNotFound.

Variable env : Env.
Variable self : TrelloProvisioning.self_t.
Variable workspace_name : string.
Variable st : state.

Let selectors := TrelloProvisioning.workspace_selectors workspace_name.
Let st1 := emit (Log INFO ("Navigating to workspace: " ++ workspace_name)) st.
Let st2 := extend (lookups selectors) st1.

Hypothesis has_driver : driver st <> None.
Hypothesis first_pass_misses : misses env (trace st1) selectors = true.

Lemma first_pass_finds_nothing :
  TrelloProvisioning.workspace_search env self workspace_name st1
  = (Ok None, st2).
Proof.
  unfold TrelloProvisioning.workspace_search.
  apply search_exhausted; assumption.
Qed.

Lemma boards_unreachable e :
  env_unit env (trace st2) (Get TrelloProvisioning.boards_url) = Some e ->
  TrelloProvisioning.navigate_to_workspace env self workspace_name st
  = (Raise (navigate_error workspace_name
              (workspace_not_found workspace_name)),
     logged_error (navigate_error workspace_name
                     (workspace_not_found workspace_name))
       (logged_error (workspace_not_found workspace_name)
          (emit (Log WARNING ("Failed to navigate to boards view: " ++ str e))
             (emit (Get TrelloProvisioning.boards_url) st2)))).
Proof.
  intros Hg.
  apply (navigate_boards_failure env self workspace_name st st2 _
           first_pass_finds_nothing).
  unfold TrelloProvisioning.workspace_search_boards, try_except, bind at 1.
  unfold driver_get, on_driver, call_unit.
  destruct (driver st2) eqn:Hd2; [| exfalso; exact (has_driver Hd2)].
  rewrite Hg. cbn [select_clause]. rewrite isinstance_Exception. reflexivity.
Qed.

Lemma second_pass_misses :
  env_unit env (trace st2) (Get TrelloProvisioning.boards_url) = None ->
  misses env
    (trace (emit (Sleep 3) (emit (Get TrelloProvisioning.boards_url) st2)))
    selectors = true ->
  TrelloProvisioning.navigate_to_workspace env self workspace_name st
  = (Raise (navigate_error workspace_name
              (workspace_not_found workspace_name)),
     logged_error (navigate_error workspace_name
                     (workspace_not_found workspace_name))
       (logged_error (workspace_not_found workspace_name)
          (extend (lookups selectors)
             (emit (Sleep 3)
                (emit (Get TrelloProvisioning.boards_url) st2))))).
Proof.
  intros Hg Hm2.
  apply (navigate_boards_failure env self workspace_name st st2 _
           first_pass_finds_nothing).
  unfold TrelloProvisioning.workspace_search_boards, try_except, bind at 1.
  unfold driver_get, on_driver, call_unit.
  destruct (driver st2) eqn:Hd2; [| exfalso; exact (has_driver Hd2)].
  rewrite Hg. unfold bind at 1, sleep at 1. unfold bind at 1.
  rewrite search_exhausted; [reflexivity | | exact Hm2].
  cbn [driver emit]. now rewrite Hd2.
Qed.

End WorkspaceNotFound.

(** C6.  When no workspace selector matches on the current page,
    [navigate_to_workspace] next opens the boards listing.  When that
    page opens, it goes through the same selectors once more, and when
    they all miss again it raises the "workspace not found" error, having
    looked each selector up exactly twice; the same error results when the
    boards listing cannot be opened.  [run_provisioning] catches the
    error: it logs it, cleans up and returns [False]. *)
Theorem workspace_not_found_is_reported
        (env : Env) (self : TrelloProvisioning.self_t)
        (email workspace_name : string) (st : state) :
  let selectors := TrelloProvisioning.workspace_selectors workspace_name in
  let st1 :=
    emit (Log INFO ("Navigating to workspace: " ++ workspace_name)) st in
  let st2 := extend (lookups selectors) st1 in
  let st3 := emit (Sleep 3) (emit (Get TrelloProvisioning.boards_url) st2) in
  let not_found :=
    navigate_error workspace_name (workspace_not_found workspace_name) in
  driver st <> None ->
  misses env (trace st1) selectors = true ->
  (exists evs,
      trace (snd (TrelloProvisioning.navigate_to_workspace env self
                    workspace_name st))
      = (trace st2 ++ [Get TrelloProvisioning.boards_url] ++ evs)%list)
  /\ (env_unit env (trace st2) (Get TrelloProvisioning.boards_url) = None ->
      misses env (trace st3) selectors = true ->
      TrelloProvisioning.navigate_to_workspace env self workspace_name st
      = (Raise not_found,
         logged_error not_found
           (logged_error (workspace_not_found workspace_name)
              (extend (lookups selectors) st3))))
  /\ (forall e,
         env_unit env (trace st2) (Get TrelloProvisioning.boards_url) = Some e ->
         fst (TrelloProvisioning.navigate_to_workspace env self
                workspace_name st)
         = Raise not_found)
  /\ (forall st0 st_s e st_n,
         TrelloProvisioning._setup_driver env self st0 = (Ok tt, st_s) ->
         TrelloProvisioning.login env self st_s = (Ok tt, st) ->
         TrelloProvisioning.navigate_to_workspace env self workspace_name st
         = (Raise e, st_n) ->
         TrelloProvisioning.run_provisioning env self email workspace_name st0
         = (Ok false,
            snd (TrelloProvisioning.cleanup env
                   (emit (Log ERROR ("Provisioning failed: " ++ str e)) st_n)))).
Proof.
  intros selectors st1 st2 st3 not_found Hd Hm.
  split; [| split; [| split]].
  - now apply navigate_opens_boards.
  - intros Hg Hm2. now apply second_pass_misses.
  - intros e Hg.
    now rewrite (boards_unreachable env self workspace_name st Hd Hm e Hg).
  - intros st0 st_s e st_n Hs Hl Hn.
    rewrite run_provisioning_outcome.
    rewrite (workflow_navigate_fails env self email workspace_name
               st0 st_s st e st_n Hs Hl Hn).
    rewrite report_provisioning_error; [reflexivity |].
    eapply navigate_raises_provisioning_error. exact Hn.
Qed.

(** Logged in, with no workspace of that name anywhere: the navigator
    raises "workspace not found" after the two passes, and the run
    returns [False]. *)
Lemma workspace_not_found_is_reported_witness :
  fst (TrelloProvisioning.navigate_to_workspace no_workspace example_self
         "Project X" after_login)
  = Raise (navigate_error "Project X" (workspace_not_found "Project X"))
  /\ fst (TrelloProvisioning.run_provisioning no_workspace example_self
            "newuser@example.com" "Project X" fresh)
     = Ok false.
Proof.
  destruct (workspace_not_found_is_reported no_workspace example_self
              "newuser@example.com" "Project X" after_login)
    as (_ & Hnav & _ & Hrun).
  - vm_compute. discriminate.
  - vm_compute. reflexivity.
  - split.
    + rewrite Hnav; [reflexivity | vm_compute; reflexivity ..].
    + rewrite (Hrun fresh after_setup
                 (navigate_error "Project X" (workspace_not_found "Project X"))
                 (snd (TrelloProvisioning.navigate_to_workspace no_workspace
                         example_self "Project X" after_login)));
        [reflexivity | vm_compute; reflexivity ..].
Defined.

(** * Challenges *)

Section Captcha.

Variable env : Env.
Variable self : TrelloProvisioning.self_t.

Lemma handle_captcha_headless st st1 :
  TrelloProvisioning.headless self = true ->
  TrelloProvisioning._check_for_captcha env st = (Ok true, st1) ->
  TrelloProvisioning._handle_captcha_if_present env self st
  = (Raise captcha_blocked, emit captcha_warning st1).
Proof.
  intros Hh Hc. unfold TrelloProvisioning._handle_captcha_if_present.
  rewrite (bind_ok _ _ _ Hc). rewrite Hh. reflexivity.
Qed.

Lemma handle_captcha_interactive st st1 :
  TrelloProvisioning.headless self = false ->
  TrelloProvisioning._check_for_captcha env st = (Ok true, st1) ->
  TrelloProvisioning._handle_captcha_if_present env self st
  = match env_string env
            (trace st1 ++ [captcha_warning; captcha_instructions])%list
            (Input captcha_prompt) with
    | Ok _ =>
        (Ok tt,
         extend [captcha_warning; captcha_instructions; Input captcha_prompt]
                st1)
    | Raise e =>
        (Raise e,
         extend [captcha_warning; captcha_instructions; Input captcha_prompt]
                st1)
    end.
Proof.
  intros Hh Hc. unfold TrelloProvisioning._handle_captcha_if_present.
  rewrite (bind_ok _ _ _ Hc). rewrite Hh. cbn [negb].
  unfold bind, log, input, call_string, ret. cbn [trace emit].
  rewrite <- app_assoc. cbn [app].
  unfold extend, emit. cbn [trace driver wait].
  destruct (env_string env _ _);
    now rewrite <- !app_assoc.
Qed.

Lemma handle_captcha_absent st st1 :
  TrelloProvisioning._check_for_captcha env st = (Ok false, st1) ->
  TrelloProvisioning._handle_captcha_if_present env self st = (Ok tt, st1).
Proof.
  intros Hc. unfold TrelloProvisioning._handle_captcha_if_present.
  now rewrite (bind_ok _ _ _ Hc).
Qed.

Lemma captcha_blocked_propagates (body : M unit) st st' :
  body st = (Raise captcha_blocked, st') ->
  try_except body
    [(CaptchaDetectedException, fun e => raise e);
     (Exception_, fun e =>
        let error_msg := "Login failed: " ++ str e in
        log ERROR error_msg ;;
        raise (mk_exn TrelloProvisioningError error_msg))] st
  = (Raise captcha_blocked, st').
Proof. intros H. unfold try_except. now rewrite H. Qed.

Lemma login_blocked_on_arrival st st1 st2 :
  TrelloProvisioning.headless self = true ->
  TrelloProvisioning.login_open env st = (Ok tt, st1) ->
  TrelloProvisioning._check_for_captcha env st1 = (Ok true, st2) ->
  TrelloProvisioning.login env self st
  = (Raise captcha_blocked, emit captcha_warning st2).
Proof.
  intros Hh Ho Hc. unfold TrelloProvisioning.login.
  apply captcha_blocked_propagates. unfold TrelloProvisioning.login_body.
  rewrite (bind_ok _ _ _ Ho). apply bind_raise.
  now apply handle_captcha_headless.
Qed.

Lemma login_blocked_before_submit st st1 st2 st3 st4 :
  TrelloProvisioning.headless self = true ->
  TrelloProvisioning.login_open env st = (Ok tt, st1) ->
  TrelloProvisioning._check_for_captcha env st1 = (Ok false, st2) ->
  TrelloProvisioning.login_enter_credentials env self st2 = (Ok tt, st3) ->
  TrelloProvisioning._check_for_captcha env st3 = (Ok true, st4) ->
  TrelloProvisioning.login env self st
  = (Raise captcha_blocked, emit captcha_warning st4).
Proof.
  intros Hh Ho Hc1 He Hc2. unfold TrelloProvisioning.login.
  apply captcha_blocked_propagates. unfold TrelloProvisioning.login_body.
  rewrite (bind_ok _ _ _ Ho).
  rewrite (bind_ok _ _ _ (handle_captcha_absent st1 st2 Hc1)).
  rewrite (bind_ok _ _ _ He). apply bind_raise.
  now apply handle_captcha_headless.
Qed.

Lemma run_blocked email workspace st st1 st2 :
  TrelloProvisioning._setup_driver env self st = (Ok tt, st1) ->
  TrelloProvisioning.login env self st1 = (Raise captcha_blocked, st2) ->
  TrelloProvisioning.run_provisioning env self email workspace st
  = (Ok false,
     snd (TrelloProvisioning.cleanup env
            (emit (Log ERROR ("CAPTCHA intervention required: "
                                ++ str captcha_blocked)) st2))).
Proof.
  intros Hs Hl. rewrite run_provisioning_outcome.
  unfold TrelloProvisioning.workflow.
  rewrite (bind_ok _ _ _ Hs), (bind_raise _ _ _ Hl). reflexivity.
Qed.

End Captcha.

(** C5.  Headless, a detected challenge makes [_handle_captcha_if_present]
    raise [CaptchaDetectedException] right after the warning.  [login] lets
    that exception through unchanged and does nothing more: detected on
    arrival, before the user name; detected at the second check, after the
    password and before the form is submitted.  [run_provisioning] then
    skips the remaining steps, logs the challenge, cleans up and returns
    [False].  With the browser visible the program instead tells the
    operator, waits on [input] and goes on only when that returns. *)
Theorem captcha_blocks_headless_run
        (env : Env) (self : TrelloProvisioning.self_t)
        (email workspace : string) (st : state) :
  (TrelloProvisioning.headless self = true ->
   (forall st1,
       TrelloProvisioning._check_for_captcha env st = (Ok true, st1) ->
       TrelloProvisioning._handle_captcha_if_present env self st
       = (Raise captcha_blocked, emit captcha_warning st1))
   /\ (forall st1 st2,
          TrelloProvisioning.login_open env st = (Ok tt, st1) ->
          TrelloProvisioning._check_for_captcha env st1 = (Ok true, st2) ->
          TrelloProvisioning.login env self st
          = (Raise captcha_blocked, emit captcha_warning st2))
   /\ (forall st1 st2 st3 st4,
          TrelloProvisioning.login_open env st = (Ok tt, st1) ->
          TrelloProvisioning._check_for_captcha env st1 = (Ok false, st2) ->
          TrelloProvisioning.login_enter_credentials env self st2
          = (Ok tt, st3) ->
          TrelloProvisioning._check_for_captcha env st3 = (Ok true, st4) ->
          TrelloProvisioning.login env self st
          = (Raise captcha_blocked, emit captcha_warning st4))
   /\ (forall st1 st2,
          TrelloProvisioning._setup_driver env self st = (Ok tt, st1) ->
          TrelloProvisioning.login env self st1
          = (Raise captcha_blocked, st2) ->
          TrelloProvisioning.run_provisioning env self email workspace st
          = (Ok false,
             snd (TrelloProvisioning.cleanup env
                    (emit (Log ERROR ("CAPTCHA intervention required: "
                                        ++ str captcha_blocked)) st2)))))
  /\
  (TrelloProvisioning.headless self = false ->
   forall st1,
     TrelloProvisioning._check_for_captcha env st = (Ok true, st1) ->
     TrelloProvisioning._handle_captcha_if_present env self st
     = match env_string env
             (trace st1 ++ [captcha_warning; captcha_instructions])%list
             (Input captcha_prompt) with
       | Ok _ =>
           (Ok tt,
            extend [captcha_warning; captcha_instructions;
                    Input captcha_prompt] st1)
       | Raise e =>
           (Raise e,
            extend [captcha_warning; captcha_instructions;
                    Input captcha_prompt] st1)
       end).
Proof.
  split.
  - intros Hh. split; [| split; [| split]].
    + intros st1. now apply handle_captcha_headless.
    + intros st1 st2. now apply login_blocked_on_arrival.
    + intros st1 st2 st3 st4. now apply login_blocked_before_submit.
    + intros st1 st2. apply run_blocked.
  - intros Hh st1. now apply handle_captcha_interactive.
Qed.

(** A reCAPTCHA widget on the login page.  Headless, [login] stops at the
    first check, before any field is touched, and the run returns [False];
    when the widget shows up only after the password, [login] stops
    before looking for the submit button.  With the browser visible the
    handler waits on the operator and returns. *)
Lemma captcha_blocks_headless_run_witness :
  TrelloProvisioning.login captcha_page example_self started
  = (Raise captcha_blocked,
     extend
       [Log INFO "Starting Trello login process";
        Get "https://trello.com/login";
        Log INFO "Navigated to Trello login page";
        FindElements By_CSS_SELECTOR "iframe[src*='recaptcha']";
        FindElements By_CSS_SELECTOR ".g-recaptcha";
        Log WARNING "CAPTCHA detected using selector: .g-recaptcha";
        captcha_warning]
       started)
  /\ fst (TrelloProvisioning.run_provisioning captcha_page example_self
            "newuser@example.com" "Project X" fresh)
     = Ok false
  /\ (let run := TrelloProvisioning.login captcha_after_password example_self
                   started in
      fst run = Raise captcha_blocked
      /\ existsb is_password_entry (trace (snd run)) = true
      /\ existsb is_submission (trace (snd run)) = false)
  /\ TrelloProvisioning._handle_captcha_if_present captcha_page
       example_visible started
     = (Ok tt,
        extend
          [FindElements By_CSS_SELECTOR "iframe[src*='recaptcha']";
           FindElements By_CSS_SELECTOR ".g-recaptcha";
           Log WARNING "CAPTCHA detected using selector: .g-recaptcha";
           captcha_warning; captcha_instructions; Input captcha_prompt]
          started).
Proof.
  split; [| split; [| split]].
  - destruct (captcha_blocks_headless_run captcha_page example_self
                "newuser@example.com" "Project X" started)
      as [Hheadless _].
    destruct (Hheadless eq_refl) as (_ & Harrival & _).
    rewrite (Harrival
               (snd (TrelloProvisioning.login_open captcha_page started))
               (snd (TrelloProvisioning._check_for_captcha captcha_page
                       (snd (TrelloProvisioning.login_open captcha_page
                               started)))));
      reflexivity.
  - destruct (captcha_blocks_headless_run captcha_page example_self
                "newuser@example.com" "Project X" fresh)
      as [Hheadless _].
    destruct (Hheadless eq_refl) as (_ & _ & _ & Hrun).
    set (st1 := snd (TrelloProvisioning._setup_driver captcha_page
                       example_self fresh)).
    rewrite (Hrun st1
               (snd (TrelloProvisioning.login captcha_page example_self st1)));
      reflexivity.
  - destruct (captcha_blocks_headless_run captcha_after_password example_self
                "newuser@example.com" "Project X" started)
      as [Hheadless _].
    destruct (Hheadless eq_refl) as (_ & _ & Hsubmit & _).
    set (st1 := snd (TrelloProvisioning.login_open captcha_after_password
                       started)).
    set (st2 := snd (TrelloProvisioning._check_for_captcha
                       captcha_after_password st1)).
    set (st3 := snd (TrelloProvisioning.login_enter_credentials
                       captcha_after_password example_self st2)).
    set (st4 := snd (TrelloProvisioning._check_for_captcha
                       captcha_after_password st3)).
    rewrite (Hsubmit st1 st2 st3 st4); try reflexivity.
    repeat split; reflexivity.
  - destruct (captcha_blocks_headless_run captcha_page example_visible
                "newuser@example.com" "Project X" started)
      as [_ Hvisible].
    rewrite (Hvisible eq_refl
               (snd (TrelloProvisioning._check_for_captcha captcha_page
                       started)));
      reflexivity.
Defined.

(** * The session *)

Section Session.

Variable env : Env.
Variable self : TrelloProvisioning.self_t.





Lemma safe_click_in_session el :
  respects (quiet not_quit) (TrelloProvisioning._safe_click env self el).
Proof. apply respects_safe_click; reflexivity. Qed.


Lemma click_search_in_session found_msg selectors :
  respects (quiet not_quit)
           (TrelloProvisioning.fallback_search env
              (TrelloProvisioning._safe_click env self) found_msg selectors).
Proof.
  apply respects_fallback_search; try reflexivity.
  apply safe_click_in_session.
Qed.







End Session.

Lemma count_calls_app p (a b : list event) :
  count_calls p (a ++ b) = count_calls p a + count_calls p b.
Proof. unfold count_calls. now rewrite filter_app, length_app. Qed.


Lemma before_session_not_quit evs :
  forallb before_session evs = true -> forallb not_quit evs = true.
Proof.
  induction evs as [| ev evs IH]; [reflexivity |].
  cbn [forallb]. intros H. apply andb_prop in H as [H1 H2].
  rewrite (IH H2). now destruct ev.
Qed.

Section Release.

Variable env : Env.
Variable self : TrelloProvisioning.self_t.



End Release.

Section ReleaseOnce.

Variable env : Env.
Variable self : TrelloProvisioning.self_t.







End ReleaseOnce.


(** * What the verifiers look at *)

Section VerifierCalls.

Variable env : Env.

Lemma verify_user_loop_single_pass email selectors :
  respects (quiet single_pass)
           (TrelloProvisioning.verify_user_loop env email selectors).
Proof.
  induction selectors as [| selector rest IH];
    cbn [TrelloProvisioning.verify_user_loop]; respects_all; reflexivity.
Qed.

Lemma verify_success_loop_single_pass selectors :
  respects (quiet single_pass)
           (TrelloProvisioning.verify_success_loop env selectors).
Proof.
  induction selectors as [| selector rest IH];
    cbn [TrelloProvisioning.verify_success_loop]; respects_all; reflexivity.
Qed.

Lemma verify_user_added_single_pass email :
  respects (quiet single_pass) (TrelloProvisioning.verify_user_added env email).
Proof.
  unfold TrelloProvisioning.verify_user_added,
    TrelloProvisioning.verify_user_added_body.
  repeat first
         [ apply verify_user_loop_single_pass
         | apply verify_success_loop_single_pass
         | respects_step ]; reflexivity.
Qed.

Lemma single_pass_no_sleep evs :
  forallb single_pass evs = true -> sleeps evs = [].
Proof.
  induction evs as [| ev evs IH]; [reflexivity |].
  cbn [forallb]. intros H. apply andb_prop in H as [H1 H2].
  unfold sleeps in *. cbn [flat_map]. rewrite (IH H2).
  destruct ev; try discriminate; reflexivity.
Qed.

Variable user : TrelloUserProvisioning.self_t.

Lemma member_poll_wait t :
  member_poll user
    (WaitUntil t (presence_of_element_located By_XPATH
                    (TrelloUserProvisioning.member_xpath user))) = true.
Proof. cbn [member_poll by_eqb andb]. apply String.eqb_refl. Qed.

Lemma verify_loop_member_poll attempts :
  respects (quiet (member_poll user))
           (TrelloUserProvisioning.verify_loop env user attempts).
Proof.
  induction attempts as [| rest IH];
    cbn [TrelloUserProvisioning.verify_loop]; respects_all;
    try reflexivity; apply member_poll_wait.
Qed.

Lemma verify_user_addition_member_poll :
  respects (quiet (member_poll user))
           (TrelloUserProvisioning.verify_user_addition env user).
Proof.
  unfold TrelloUserProvisioning.verify_user_addition.
  repeat first [ apply verify_loop_member_poll | respects_step ];
    reflexivity.
Qed.

(** Nothing matches: every selector is looked up once, in order. *)
Hypothesis nothing_found :
  forall tr v, env_elements env tr (FindElements By_XPATH v) = Ok [].

Lemma verify_user_loop_nothing email selectors st :
  driver st <> None ->
  TrelloProvisioning.verify_user_loop env email selectors st
  = (Ok false, extend (find_all selectors) st).
Proof.
  revert st. induction selectors as [| selector rest IH]; intros st Hd.
  - cbn [TrelloProvisioning.verify_user_loop find_all map].
    now rewrite extend_nil.
  - cbn [TrelloProvisioning.verify_user_loop].
    unfold bind at 1, try_except, bind at 1.
    unfold find_elements, on_driver, call_elements.
    destruct (driver st) eqn:Hd'; [| contradiction].
    rewrite nothing_found. unfold ret at 1. rewrite IH.
    + rewrite emit_as_extend, extend_extend. reflexivity.
    + cbn [driver emit]. now rewrite Hd'.
Qed.

Lemma verify_success_loop_nothing selectors st :
  driver st <> None ->
  TrelloProvisioning.verify_success_loop env selectors st
  = (Ok false, extend (find_all selectors) st).
Proof.
  revert st. induction selectors as [| selector rest IH]; intros st Hd.
  - cbn [TrelloProvisioning.verify_success_loop find_all map].
    now rewrite extend_nil.
  - cbn [TrelloProvisioning.verify_success_loop].
    unfold bind at 1, try_except, bind at 1.
    unfold find_elements, on_driver, call_elements.
    destruct (driver st) eqn:Hd'; [| contradiction].
    rewrite nothing_found. unfold ret at 1. rewrite IH.
    + rewrite emit_as_extend, extend_extend. reflexivity.
    + cbn [driver emit]. now rewrite Hd'.
Qed.

Lemma verify_user_added_nothing email st :
  driver st <> None ->
  TrelloProvisioning.verify_user_added env email st
  = (Ok false,
     extend
       ([Log INFO ("Verifying user addition: " ++ email)]
          ++ find_all (TrelloProvisioning.user_verification_selectors email)
          ++ find_all TrelloProvisioning.success_selectors
          ++ [Log WARNING ("Could not verify user '" ++ email
                             ++ "' was added")])
       st).
Proof.
  intros Hd. unfold TrelloProvisioning.verify_user_added, try_except,
    TrelloProvisioning.verify_user_added_body.
  unfold bind at 1, log at 1. unfold bind at 1.
  rewrite verify_user_loop_nothing by exact Hd.
  unfold bind at 1. rewrite verify_success_loop_nothing by exact Hd.
  unfold bind, log, ret. cbv beta iota.
  rewrite extend_emit, (emit_as_extend _ st), !extend_extend.
  rewrite <- ?app_assoc. reflexivity.
Qed.

End VerifierCalls.

Section PollTimesOut.

Variable env : Env.
Variable user : TrelloUserProvisioning.self_t.

Hypothesis always_times_out :
  forall tr t v, exists e,
      env_element env tr
                  (WaitUntil t (presence_of_element_located By_XPATH v))
      = Raise e
      /\ isinstance e TimeoutException = true.

Lemma verify_loop_times_out attempts st w :
  wait st = Some w ->
  TrelloUserProvisioning.verify_loop env user attempts st
  = (Ok false, extend (concat (repeat (timed_out_attempt user w) attempts)) st).
Proof.
  revert st. induction attempts as [| rest IH]; intros st Hw.
  - cbn [TrelloUserProvisioning.verify_loop repeat concat].
    now rewrite extend_nil.
  - cbn [TrelloUserProvisioning.verify_loop].
    unfold bind at 1, try_except, bind at 1.
    unfold wait_until_element, call_element. rewrite Hw.
    destruct (always_times_out (trace st) (wait_seconds w)
                (TrelloUserProvisioning.member_xpath user))
      as (e & -> & Hto).
    cbn [select_clause]. rewrite Hto.
    unfold bind at 1, sleep at 1, ret at 1. cbv beta iota.
    rewrite IH by exact Hw.
    cbn [repeat concat]. unfold timed_out_attempt at 2.
    rewrite !emit_as_extend, !extend_extend. reflexivity.
Qed.

Lemma verify_user_addition_times_out st w :
  wait st = Some w ->
  TrelloUserProvisioning.verify_user_addition env user st
  = (Ok false,
     extend
       ([Log INFO ("Verifying user: "
                     ++ TrelloUserProvisioning.new_user_email user)]
          ++ timed_out_attempt user w
          ++ timed_out_attempt user w
          ++ timed_out_attempt user w
          ++ [Log WARNING ("Could not verify "
                             ++ TrelloUserProvisioning.new_user_email user
                             ++ " in member list")])
       st).
Proof.
  intros Hw. unfold TrelloUserProvisioning.verify_user_addition.
  unfold bind at 1, log at 1. unfold try_except, bind at 1.
  rewrite verify_loop_times_out with (w := w) by exact Hw.
  unfold bind, log, ret. cbv beta iota.
  rewrite extend_emit, (emit_as_extend _ st), !extend_extend.
  reflexivity.
Qed.

End PollTimesOut.

(** C8 (as amended).  [verify_user_added] of script.py makes a single
    pass: whatever the page, it only looks elements up by XPath (and reads
    the text of a success message) and never sleeps; when nothing is found
    it has looked up the four member selectors and then the four
    success-message selectors once each, in order, and reports [False].
    [verify_user_addition] of part_000 polls: whatever the page, it only
    waits for the invited email in the member list (never for a success
    message) and sleeps 2 seconds at a time; when every wait times out it
    has made exactly three attempts, each followed by a sleep of 2
    seconds, and reports [False]. *)
Theorem verifiers_look_for_evidence
        (env : Env) (user : TrelloUserProvisioning.self_t)
        (email : string) (st : state) :
  (exists evs,
      trace (snd (TrelloProvisioning.verify_user_added env email st))
      = (trace st ++ evs)%list
      /\ forallb single_pass evs = true /\ sleeps evs = [])
  /\ (driver st <> None ->
      (forall tr v, env_elements env tr (FindElements By_XPATH v) = Ok []) ->
      TrelloProvisioning.verify_user_added env email st
      = (Ok false,
         extend
           ([Log INFO ("Verifying user addition: " ++ email)]
              ++ find_all (TrelloProvisioning.user_verification_selectors email)
              ++ find_all TrelloProvisioning.success_selectors
              ++ [Log WARNING ("Could not verify user '" ++ email
                                 ++ "' was added")])
           st))
  /\ (exists evs,
         trace (snd (TrelloUserProvisioning.verify_user_addition env user st))
         = (trace st ++ evs)%list
         /\ forallb (member_poll user) evs = true)
  /\ (forall w,
         wait st = Some w ->
         (forall tr t v, exists e,
             env_element env tr
                         (WaitUntil t (presence_of_element_located By_XPATH v))
             = Raise e
             /\ isinstance e TimeoutException = true) ->
         TrelloUserProvisioning.verify_user_addition env user st
         = (Ok false,
            extend
              ([Log INFO ("Verifying user: "
                            ++ TrelloUserProvisioning.new_user_email user)]
                 ++ timed_out_attempt user w
                 ++ timed_out_attempt user w
                 ++ timed_out_attempt user w
                 ++ [Log WARNING ("Could not verify "
                                    ++ TrelloUserProvisioning.new_user_email user
                                    ++ " in member list")])
              st)).
Proof.
  split; [| split; [| split]].
  - destruct (verify_user_added_single_pass env email st)
      as (_ & _ & evs & Ht & Hok).
    exists evs. split; [exact Ht |]. split; [exact Hok |].
    now apply single_pass_no_sleep.
  - intros Hd Hn. now apply verify_user_added_nothing.
  - destruct (verify_user_addition_member_poll env user st)
      as (_ & _ & evs & Ht & Hok).
    now exists evs.
  - intros w Hw Hto. now apply verify_user_addition_times_out.
Qed.

(** On a page with nothing on it script.py looks each selector up once
    and reports [False] without a sleep; where every wait times out
    part_000 reports [False] after three waits and three sleeps of 2
    seconds. *)
Lemma verifiers_look_for_evidence_witness :
  (let st := snd (TrelloProvisioning.verify_user_added empty_page
                    "newuser@example.com" started) in
   count_calls is_find_elements (trace st) = 8 /\ sleeps (trace st) = [])
  /\
  (let st := snd (TrelloUserProvisioning.verify_user_addition never_there
                    example_user started) in
   count_calls is_wait_until (trace st) = 3 /\ sleeps (trace st) = [2; 2; 2]).
Proof.
  split.
  - destruct (verifiers_look_for_evidence empty_page example_user
                "newuser@example.com" started) as (_ & Hnothing & _).
    rewrite Hnothing.
    + split; reflexivity.
    + discriminate.
    + intros tr v. reflexivity.
  - destruct (verifiers_look_for_evidence never_there example_user
                "newuser@example.com" started) as (_ & _ & _ & Hpoll).
    rewrite (Hpoll (mk_wait 10)).
    + split; reflexivity.
    + reflexivity.
    + intros tr t v. exists timed_out. split; reflexivity.
Defined.

(** C8 as stated holds of neither verifier.  script.py does not poll: on a
    page with nothing on it, it reports [False] after one lookup per
    selector and no delay at all.  part_000 polls, but not for a success
    message: on a page that says "invited" while the member list never
    shows the user, it reports [False] without ever having looked for the
    message, where script.py reports [True]. *)
Lemma verifier_claim_counterexample :
  (let run := TrelloProvisioning.verify_user_added empty_page
                "newuser@example.com" started in
   fst run = Ok false
   /\ sleeps (trace (snd run)) = []
   /\ filter is_find_elements (trace (snd run))
      = find_all (TrelloProvisioning.user_verification_selectors
                    "newuser@example.com"
                    ++ TrelloProvisioning.success_selectors))
  /\
  (let run := TrelloUserProvisioning.verify_user_addition invited_banner
                example_user started in
   fst run = Ok false
   /\ count_calls is_find_elements (trace (snd run)) = 0
   /\ fst (TrelloProvisioning.verify_user_added invited_banner
             "newuser@example.com" started) = Ok true).
Proof. repeat split; reflexivity. Qed.

(** * Further properties: construction and setup *)

(** X1.  With both credential variables set to non-empty strings,
    [__init__] of either class returns the object: the credentials are the
    two values, the other fields are the arguments and the fixed settings,
    [driver] and [wait] are [None], and no call reached the browser.
    Conversely either constructor only ever returns an object whose
    credentials are the non-empty values of its two variables. *)
Theorem construction_keeps_the_credentials
        (env : Env) (headless : bool) (timeout : Z) (st : state) :
  (forall u p,
      truthy (env_getenv env "TRELLO_USERNAME") = Some u ->
      truthy (env_getenv env "TRELLO_PASSWORD") = Some p ->
      exists st',
        TrelloProvisioning.__init__ env headless timeout st
        = (Ok (TrelloProvisioning.mk_self headless timeout 3 1
                 (TrelloProvisioning.mk_credentials u p)), st')
        /\ driver st' = None /\ wait st' = None
        /\ exists evs,
            trace st' = (trace st ++ evs)%list
            /\ forallb not_browser_call evs = true)
  /\ (forall obj st',
         TrelloProvisioning.__init__ env headless timeout st = (Ok obj, st') ->
         env_getenv env "TRELLO_USERNAME"
         = Some (TrelloProvisioning.username (TrelloProvisioning.credentials obj))
         /\ env_getenv env "TRELLO_PASSWORD"
            = Some (TrelloProvisioning.password
                      (TrelloProvisioning.credentials obj))
         /\ TrelloProvisioning.username (TrelloProvisioning.credentials obj)
            <> ""
         /\ TrelloProvisioning.password (TrelloProvisioning.credentials obj)
            <> "")
  /\ (forall u p,
         truthy (env_getenv env "TRELL_USERNAME") = Some u ->
         truthy (env_getenv env "TRELL_PASSWORD") = Some p ->
         exists st',
           TrelloUserProvisioning.__init__ env headless timeout st
           = (Ok (TrelloUserProvisioning.mk_self headless timeout
                    "https://trello.com" "https://trello.com/login" u p
                    "Project X" "newuser@example.com" "Member"), st')
           /\ driver st' = None /\ wait st' = None
           /\ exists evs,
               trace st' = (trace st ++ evs)%list
               /\ forallb not_browser_call evs = true)
  /\ (forall obj st',
         TrelloUserProvisioning.__init__ env headless timeout st
         = (Ok obj, st') ->
         env_getenv env "TRELL_USERNAME"
         = Some (TrelloUserProvisioning.username obj)
         /\ env_getenv env "TRELL_PASSWORD"
            = Some (TrelloUserProvisioning.password obj)
         /\ TrelloUserProvisioning.username obj <> ""
         /\ TrelloUserProvisioning.password obj <> "").
Proof.
  split; [| split; [| split]].
  - intros u p Hu Hp.
    unfold TrelloProvisioning.__init__, TrelloProvisioning._load_credentials,
      TrelloProvisioning._setup_logging, bind, set_driver, set_wait, log,
      load_dotenv, getenv, ret.
    cbn [driver wait trace emit]. rewrite Hu, Hp.
    eexists. split; [reflexivity |]. split; [reflexivity |].
    split; [reflexivity |].
    eexists. split; [trace_ex | reflexivity].
  - intros obj st'.
    unfold TrelloProvisioning.__init__, TrelloProvisioning._load_credentials,
      TrelloProvisioning._setup_logging, bind, set_driver, set_wait, log,
      load_dotenv, getenv, ret, raise.
    cbn [driver wait trace emit].
    destruct (env_getenv env "TRELLO_USERNAME") as [u |]; cbn [truthy];
      [| discriminate].
    destruct (String.eqb_spec u "") as [-> | Hu]; [discriminate |].
    destruct (env_getenv env "TRELLO_PASSWORD") as [p |]; cbn [truthy];
      [| discriminate].
    destruct (String.eqb_spec p "") as [-> | Hp]; [discriminate |].
    intros [= <- _]. cbn. repeat split; assumption.
  - intros u p Hu Hp.
    unfold TrelloUserProvisioning.__init__, bind, set_driver, set_wait,
      getenv, ret.
    cbn [driver wait trace emit]. rewrite Hu, Hp.
    eexists. split; [reflexivity |]. split; [reflexivity |].
    split; [reflexivity |].
    eexists. split; [trace_ex | reflexivity].
  - intros obj st'.
    unfold TrelloUserProvisioning.__init__, bind, set_driver, set_wait,
      getenv, ret, raise.
    cbn [driver wait trace emit].
    destruct (env_getenv env "TRELL_USERNAME") as [u |]; cbn [truthy];
      [| discriminate].
    destruct (String.eqb_spec u "") as [-> | Hu]; [discriminate |].
    destruct (env_getenv env "TRELL_PASSWORD") as [p |]; cbn [truthy];
      [| discriminate].
    destruct (String.eqb_spec p "") as [-> | Hp]; [discriminate |].
    intros [= <- _]. cbn. repeat split; assumption.
Qed.

(** With both variables set, the two constructors return the object with
    those credentials. *)
Lemma construction_keeps_the_credentials_witness :
  fst (TrelloProvisioning.__init__ with_credentials true 10 fresh)
  = Ok example_self
  /\ fst (TrelloUserProvisioning.__init__ with_credentials true 30 fresh)
     = Ok example_user.
Proof.
  destruct (construction_keeps_the_credentials with_credentials true 10 fresh)
    as (Hs & _ & _ & _).
  destruct (construction_keeps_the_credentials with_credentials true 30 fresh)
    as (_ & _ & Hu & _).
  destruct (Hs "admin@example.com" "secret" eq_refl eq_refl) as (st1 & H1 & _).
  destruct (Hu "admin@example.com" "secret" eq_refl eq_refl) as (st2 & H2 & _).
  split; [now rewrite H1 | now rewrite H2].
Defined.



(** * Further properties: the challenge check *)

Section CaptchaCheck.

Variable env : Env.

Lemma check_for_captcha_loop_returns selectors st :
  exists b st',
    TrelloProvisioning.check_for_captcha_loop env selectors st = (Ok b, st').
Proof.
  revert st. induction selectors as [| selector rest IH]; intros st.
  - now exists false, st.
  - cbn [TrelloProvisioning.check_for_captcha_loop].
    unfold bind at 1, try_except, bind at 1.
    destruct (find_elements env By_CSS_SELECTOR selector st)
      as [[[| el els] | e] st1].
    + apply IH.
    + unfold bind, log, ret. now eexists; eexists.
    + cbn [select_clause]. rewrite isinstance_Exception. apply IH.
Qed.

Lemma check_for_captcha_loop_calls selectors :
  respects (quiet captcha_lookup)
           (TrelloProvisioning.check_for_captcha_loop env selectors).
Proof.
  induction selectors as [| selector rest IH];
    cbn [TrelloProvisioning.check_for_captcha_loop]; respects_all;
    reflexivity.
Qed.

Lemma check_for_captcha_loop_no_driver selectors st :
  driver st = None ->
  TrelloProvisioning.check_for_captcha_loop env selectors st = (Ok false, st).
Proof.
  intros Hd. induction selectors as [| selector rest IH]; [reflexivity |].
  cbn [TrelloProvisioning.check_for_captcha_loop].
  unfold bind at 1, try_except, bind at 1, find_elements, on_driver.
  rewrite Hd. cbn [select_clause]. exact IH.
Qed.

Lemma check_for_captcha_loop_nothing selectors st :
  driver st <> None ->
  (forall tr v,
      shows_nothing (env_elements env tr (FindElements By_CSS_SELECTOR v))
      = true) ->
  TrelloProvisioning.check_for_captcha_loop env selectors st
  = (Ok false, extend (css_lookups selectors) st).
Proof.
  intros Hd Hn. revert st Hd.
  induction selectors as [| selector rest IH]; intros st Hd.
  - cbn [TrelloProvisioning.check_for_captcha_loop css_lookups map].
    now rewrite extend_nil.
  - cbn [TrelloProvisioning.check_for_captcha_loop].
    unfold bind at 1, try_except, bind at 1, find_elements, on_driver,
      call_elements.
    destruct (driver st) eqn:Hd'; [| contradiction].
    specialize (Hn (trace st) selector).
    destruct (env_elements env (trace st)
                (FindElements By_CSS_SELECTOR selector))
      as [[| el els] | e]; [| discriminate |].
    + unfold ret at 1. rewrite IH.
      * rewrite emit_as_extend, extend_extend. reflexivity.
      * cbn [driver emit]. now rewrite Hd'.
    + cbn [select_clause]. rewrite isinstance_Exception.
      unfold ret at 1. rewrite IH.
      * rewrite emit_as_extend, extend_extend. reflexivity.
      * cbn [driver emit]. now rewrite Hd'.
Qed.

End CaptchaCheck.

(** X3.  [_check_for_captcha] never raises and only looks elements up by
    CSS selector (and warns).  Without a driver it answers [False] without
    a single call.  And when no lookup shows an element, be it because the
    lists are empty or because the lookups themselves fail, it tries all
    six selectors and answers [False]: a browser that cannot be queried is
    taken for a page without a challenge. *)
Theorem check_for_captcha_swallows_failures (env : Env) (st : state) :
  (exists b st',
      TrelloProvisioning._check_for_captcha env st = (Ok b, st')
      /\ quiet captcha_lookup st st')
  /\ (driver st = None ->
      TrelloProvisioning._check_for_captcha env st = (Ok false, st))
  /\ (driver st <> None ->
      (forall tr v,
          shows_nothing (env_elements env tr (FindElements By_CSS_SELECTOR v))
          = true) ->
      TrelloProvisioning._check_for_captcha env st
      = (Ok false, extend (css_lookups TrelloProvisioning.captcha_selectors) st)).
Proof.
  unfold TrelloProvisioning._check_for_captcha. split; [| split].
  - destruct (check_for_captcha_loop_returns env
                TrelloProvisioning.captcha_selectors st) as (b & st' & H).
    exists b, st'. split; [exact H |].
    pose proof (check_for_captcha_loop_calls env
                  TrelloProvisioning.captcha_selectors st) as Hq.
    now rewrite H in Hq.
  - apply check_for_captcha_loop_no_driver.
  - apply check_for_captcha_loop_nothing.
Qed.

(** A browser whose every lookup fails: six lookups, and the answer is
    "no challenge". *)
Lemma check_for_captcha_swallows_failures_witness :
  TrelloProvisioning._check_for_captcha broken_lookups started
  = (Ok false, extend (css_lookups TrelloProvisioning.captcha_selectors) started)
  /\ TrelloProvisioning._check_for_captcha broken_lookups fresh
     = (Ok false, fresh).
Proof.
  split.
  - apply (proj2 (proj2 (check_for_captcha_swallows_failures broken_lookups
                           started))).
    + discriminate.
    + intros tr v. reflexivity.
  - apply (proj1 (proj2 (check_for_captcha_swallows_failures broken_lookups
                           fresh))).
    reflexivity.
Defined.

(** * Further properties: login *)

Lemma captcha_is_provisioning_error (e : exn) :
  isinstance e CaptchaDetectedException = true ->
  isinstance e TrelloProvisioningError = true.
Proof. destruct e as [c m]; destruct c; cbn; congruence. Qed.

(** X4.  Whatever goes wrong inside [login], what leaves it is a
    [TrelloProvisioningError].  A [CaptchaDetectedException] raised inside
    passes unchanged: the same exception leaves [login], with nothing
    logged after it.  Every other exception raised inside is replaced by
    the error "Login failed: ..." around it, after that error is logged. *)
Theorem login_raises_only_provisioning_errors
        (env : Env) (self : TrelloProvisioning.self_t) (st : state) :
  (forall e st',
      TrelloProvisioning.login env self st = (Raise e, st') ->
      isinstance e TrelloProvisioningError = true
      /\ (isinstance e CaptchaDetectedException = false ->
          exists cause st1,
            TrelloProvisioning.login_body env self st = (Raise cause, st1)
            /\ e = login_error cause
            /\ st' = emit (Log ERROR (str (login_error cause))) st1))
  /\ (forall c st1,
         TrelloProvisioning.login_body env self st = (Raise c, st1) ->
         isinstance c CaptchaDetectedException = true ->
         TrelloProvisioning.login env self st = (Raise c, st1))
  /\ (forall c st1,
         TrelloProvisioning.login_body env self st = (Raise c, st1) ->
         isinstance c CaptchaDetectedException = false ->
         TrelloProvisioning.login env self st
         = (Raise (login_error c),
            emit (Log ERROR (str (login_error c))) st1)).
Proof.
  unfold TrelloProvisioning.login, try_except.
  destruct (TrelloProvisioning.login_body env self st) as [[[] | e0] st1].
  - split; [discriminate |]. split; discriminate.
  - cbn [select_clause].
    destruct (isinstance e0 CaptchaDetectedException) eqn:Hc.
    + split; [| split].
      * unfold raise. intros e st' [= <- <-]. split.
        -- now apply captcha_is_provisioning_error.
        -- congruence.
      * intros c st2 [= <- <-] _. reflexivity.
      * intros c st2 [= <- <-]. congruence.
    + rewrite isinstance_Exception. unfold bind, log, raise.
      split; [| split].
      * intros e st' [= <- <-]. split; [reflexivity |].
        intros _. now exists e0, st1.
      * intros c st2 [= <- <-]. congruence.
      * intros c st2 [= <- <-] _. reflexivity.
Qed.

(** A challenge on arrival in a headless run leaves [login] as it was
    raised; logging in without a browser, the attribute error of the first
    call comes out as "Login failed: ...". *)
Lemma login_raises_only_provisioning_errors_witness :
  fst (TrelloProvisioning.login captcha_page example_self started)
  = Raise captcha_blocked
  /\ fst (TrelloProvisioning.login empty_page example_self fresh)
     = Raise (login_error (none_has_no_attribute "get")).
Proof.
  split.
  - destruct (login_raises_only_provisioning_errors captcha_page example_self
                started) as (_ & Hpass & _).
    rewrite (Hpass captcha_blocked
               (snd (TrelloProvisioning.login_body captcha_page example_self
                       started)) eq_refl eq_refl).
    reflexivity.
  - destruct (login_raises_only_provisioning_errors empty_page example_self
                fresh) as (_ & _ & Hwrap).
    rewrite (Hwrap (none_has_no_attribute "get")
               (snd (TrelloProvisioning.login_body empty_page example_self
                       fresh)) eq_refl eq_refl).
    reflexivity.
Defined.

(** X5.  When the landing page does not show within the wait, [login]
    judges by the address: still a login URL, and the step fails with
    "Login appears to have failed - still on login page"; any other
    address, and the login is taken to have succeeded. *)
Theorem login_timeout_is_judged_by_the_url
        (env : Env) (self : TrelloProvisioning.self_t)
        (st : state) (button : element) (st1 st2 : state)
        (e : exn) (st3 : state) (url : string) (st4 : state) :
  TrelloProvisioning._wait_and_find_element env self By_ID "login-submit" None st
  = (Ok button, st1) ->
  TrelloProvisioning._safe_click env self button st1 = (Ok tt, st2) ->
  wait_until env login_landed st2 = (Raise e, st3) ->
  isinstance e TimeoutException = true ->
  current_url env st3 = (Ok url, st4) ->
  TrelloProvisioning.login_submit env self st
  = if contains "login" url
    then (Raise still_on_login_page,
          emit (Log ERROR (str still_on_login_page)) st4)
    else (Ok tt,
          emit (Log INFO "Login appears successful (page changed)") st4).
Proof.
  intros Hf Hc Hw He Hu. unfold TrelloProvisioning.login_submit.
  rewrite (bind_ok _ _ _ Hf), (bind_ok _ _ _ Hc).
  unfold try_except. rewrite (bind_raise _ _ _ Hw).
  cbn [select_clause]. rewrite He. rewrite (bind_ok _ _ _ Hu).
  destruct (contains "login" url); reflexivity.
Qed.

(** The landing page never shows.  With the address still at the login
    page the step fails; with the address somewhere else it returns. *)
Lemma login_timeout_is_judged_by_the_url_witness :
  fst (TrelloProvisioning.login_submit (never_lands "https://trello.com/login")
         example_self started)
  = Raise still_on_login_page
  /\ fst (TrelloProvisioning.login_submit
            (never_lands "https://trello.com/u/admin") example_self started)
     = Ok tt.
Proof.
  split.
  - set (env := never_lands "https://trello.com/login").
    set (st1 := snd (TrelloProvisioning._wait_and_find_element env example_self
                       By_ID "login-submit" None started)).
    set (st2 := snd (TrelloProvisioning._safe_click env example_self 1 st1)).
    set (st3 := snd (wait_until env login_landed st2)).
    set (st4 := snd (current_url env st3)).
    rewrite (login_timeout_is_judged_by_the_url env example_self started 1
               st1 st2 timed_out st3 "https://trello.com/login" st4);
      reflexivity.
  - set (env := never_lands "https://trello.com/u/admin").
    set (st1 := snd (TrelloProvisioning._wait_and_find_element env example_self
                       By_ID "login-submit" None started)).
    set (st2 := snd (TrelloProvisioning._safe_click env example_self 1 st1)).
    set (st3 := snd (wait_until env login_landed st2)).
    set (st4 := snd (current_url env st3)).
    rewrite (login_timeout_is_judged_by_the_url env example_self started 1
               st1 st2 timed_out st3 "https://trello.com/u/admin" st4);
      reflexivity.
Defined.

(** * Further properties: clicking and retrying *)

(** X6.  A click that is intercepted is made again by script within the
    same attempt: when [element.click()] raises
    [ElementClickInterceptedException] and the JavaScript click returns,
    [_safe_click] returns after that one attempt, without a retry and
    without a sleep. *)
Theorem intercepted_click_falls_back_to_script
        (env : Env) (self : TrelloProvisioning.self_t)
        (el : element) (st : state) (e : exn) :
  let st1 := tp_before_attempt self "click_operation" 0 st in
  0 < TrelloProvisioning.max_retries self ->
  driver st <> None ->
  env_unit env (trace st1) (Click el) = Some e ->
  isinstance e ElementClickInterceptedException = true ->
  env_unit env (trace st1 ++ [Click el])%list
           (ExecuteScript "arguments[0].click();" el) = None ->
  TrelloProvisioning._safe_click env self el st
  = (Ok tt,
     extend [Click el; ExecuteScript "arguments[0].click();" el] st1).
Proof.
  intros st1 Hn Hd Hc He Hx. unfold TrelloProvisioning._safe_click.
  apply (@retry_operation_succeeds unit self "click_operation" _ st [] st).
  - apply tp_fails_nil.
  - exact Hn.
  - cbn [length]. fold st1.
    unfold TrelloProvisioning.click_operation, try_except, click, call_unit.
    rewrite Hc. cbn [select_clause]. rewrite He.
    unfold execute_script, on_driver, call_unit. cbn [driver emit trace].
    destruct (driver st1) eqn:Hd1; [| exfalso; exact (Hd Hd1)].
    rewrite Hx. rewrite (emit_as_extend (Click el)), extend_emit.
    reflexivity.
Qed.

(** On a page covered by a banner the click goes through by script at the
    first attempt. *)
Lemma intercepted_click_falls_back_to_script_witness :
  TrelloProvisioning._safe_click covered_page example_self 7 started
  = (Ok tt,
     extend [Log DEBUG "Attempt 1/3 for click_operation"; Click 7;
             ExecuteScript "arguments[0].click();" 7] started).
Proof.
  rewrite (intercepted_click_falls_back_to_script covered_page example_self 7
             started intercepted); try reflexivity.
  - cbn. lia.
  - discriminate.
Defined.

Lemma at_most_refl p st : at_most p 0 st st.
Proof. exists []. split; [now rewrite app_nil_r | reflexivity]. Qed.

Lemma at_most_trans p a b s1 s2 s3 :
  at_most p a s1 s2 -> at_most p b s2 s3 -> at_most p (a + b) s1 s3.
Proof.
  intros (e1 & H1 & C1) (e2 & H2 & C2). exists (e1 ++ e2)%list. split.
  - now rewrite H2, H1, app_assoc.
  - rewrite count_calls_app. lia.
Qed.

Lemma at_most_weaken p a b s1 s2 :
  a <= b -> at_most p a s1 s2 -> at_most p b s1 s2.
Proof. intros Hab (e1 & H1 & C1). exists e1. split; [exact H1 | lia]. Qed.

Lemma at_most_emit p ev st :
  at_most p (if p ev then 1 else 0) st (emit ev st).
Proof.
  exists [ev]. split; [reflexivity |].
  unfold count_calls. cbn [filter]. destruct (p ev); cbn; lia.
Qed.

Lemma at_most_same_calls p n st st' evs :
  at_most p n st st' ->
  trace st' = (trace st ++ evs)%list ->
  count_calls p evs <= n.
Proof.
  intros (evs' & Ht & Hc) Hevs. rewrite Ht in Hevs.
  apply app_inv_head in Hevs. now subst.
Qed.

Section RetryBound.

Variable p : event -> bool.
Variable h : nat.
Hypothesis p_log : forall l m, p (Log l m) = false.
Hypothesis p_sleep : forall d, (if p (Sleep d) then 1 else 0) <= h.

Variable self : TrelloProvisioning.self_t.

Lemma at_most_log l m st : at_most p 0 st (emit (Log l m) st).
Proof.
  pose proof (at_most_emit p (Log l m) st) as H. now rewrite p_log in H.
Qed.

Lemma at_most_sleep d st : at_most p h st (emit (Sleep d) st).
Proof.
  eapply at_most_weaken; [apply (p_sleep d) | apply at_most_emit].
Qed.

(** Every attempt costs at most the [k] calls of the operation and the
    sleep after its failure. *)
Lemma retry_loop_at_most {A} name (operation : M A) k attempts last st :
  (forall st0, at_most p k st0 (snd (operation st0))) ->
  at_most p ((k + h) * length attempts) st
          (snd (TrelloProvisioning.retry_loop self name operation attempts
                  last st)).
Proof.
  intros Hop. revert last st.
  induction attempts as [| attempt rest IH]; intros last st.
  - cbn [TrelloProvisioning.retry_loop length]. unfold bind, log, raise.
    cbn [snd]. rewrite Nat.mul_0_r. apply at_most_log.
  - cbn [TrelloProvisioning.retry_loop length].
    unfold bind at 1, try_except, bind at 1, log at 1, bind at 1.
    pose proof (Hop (emit (Log DEBUG
                             ("Attempt " ++ str_of_nat (attempt + 1) ++ "/"
                                ++ str_of_nat
                                     (TrelloProvisioning.max_retries self)
                                ++ " for " ++ name)) st)) as H1.
    destruct (operation _) as [[a | e] st1]; cbn [snd] in H1.
    + cbn [snd]. eapply at_most_weaken;
        [| eapply at_most_trans; [apply at_most_log | exact H1]].
      rewrite Nat.mul_succ_r. lia.
    + cbn [select_clause]. rewrite isinstance_Exception.
      unfold bind at 1, log at 1, bind at 1, sleep at 1, ret at 1.
      eapply at_most_weaken;
        [| eapply at_most_trans;
           [eapply at_most_trans; [apply at_most_log | exact H1] |
            eapply at_most_trans;
            [eapply at_most_trans; [apply at_most_log | apply at_most_sleep] |
             apply IH]]].
      rewrite Nat.mul_succ_r. lia.
Qed.

End RetryBound.

Lemma click_operation_at_most env el p st :
  at_most p ((if p (Click el) then 1 else 0)
             + (if p (ExecuteScript "arguments[0].click();" el) then 1 else 0))
          st (snd (TrelloProvisioning.click_operation env el st)).
Proof.
  unfold TrelloProvisioning.click_operation, try_except, click, call_unit.
  destruct (env_unit env (trace st) (Click el)) as [e |].
  - cbn [select_clause].
    destruct (isinstance e ElementClickInterceptedException).
    + unfold execute_script, on_driver, call_unit.
      destruct (driver (emit (Click el) st)).
      * eapply at_most_trans; [apply at_most_emit |].
        destruct (env_unit env _ _); apply at_most_emit.
      * cbn [snd]. eapply at_most_weaken; [| apply at_most_emit]. lia.
    + cbn [snd]. eapply at_most_weaken; [| apply at_most_emit]. lia.
  - cbn [snd]. eapply at_most_weaken; [| apply at_most_emit]. lia.
Qed.

(** X7.  [_safe_click] is bounded by [max_retries]: whatever the browser
    does, it makes at most that many plain clicks, at most that many
    clicks by script and at most that many sleeps; and when it fails it
    fails with a [TrelloProvisioningError]. *)
Theorem safe_click_is_bounded
        (env : Env) (self : TrelloProvisioning.self_t)
        (el : element) (st : state) :
  let run := TrelloProvisioning._safe_click env self el st in
  (exists evs,
      trace (snd run) = (trace st ++ evs)%list
      /\ count_calls is_click evs <= TrelloProvisioning.max_retries self
      /\ count_calls is_execute_script evs
         <= TrelloProvisioning.max_retries self
      /\ count_calls is_sleep evs <= TrelloProvisioning.max_retries self)
  /\ (forall e, fst run = Raise e -> exn_type e = TrelloProvisioningError).
Proof.
  intros run. unfold run, TrelloProvisioning._safe_click,
    TrelloProvisioning._retry_operation. split.
  - set (attempts := seq 0 (TrelloProvisioning.max_retries self)).
    assert (Hlen : length attempts = TrelloProvisioning.max_retries self)
      by apply length_seq.
    pose proof (retry_loop_at_most is_click 0 (fun _ _ => eq_refl)
                  (fun _ => le_n 0) self "click_operation"
                  (TrelloProvisioning.click_operation env el) 1 attempts None
                  st (fun st0 => click_operation_at_most env el is_click st0))
      as Hclick.
    pose proof (retry_loop_at_most is_execute_script 0 (fun _ _ => eq_refl)
                  (fun _ => le_n 0) self "click_operation"
                  (TrelloProvisioning.click_operation env el) 1 attempts None
                  st
                  (fun st0 =>
                     click_operation_at_most env el is_execute_script st0))
      as Hscript.
    pose proof (retry_loop_at_most is_sleep 1 (fun _ _ => eq_refl)
                  (fun _ => le_n 1) self "click_operation"
                  (TrelloProvisioning.click_operation env el) 0 attempts None
                  st (fun st0 => click_operation_at_most env el is_sleep st0))
      as Hsleep.
    rewrite Hlen in Hclick, Hscript, Hsleep.
    destruct Hclick as (evs & Ht & Hc). exists evs.
    split; [exact Ht |]. split; [lia |]. split.
    + pose proof (at_most_same_calls _ _ _ _ evs Hscript Ht). lia.
    + pose proof (at_most_same_calls _ _ _ _ evs Hsleep Ht). lia.
  - intros e He.
    destruct (TrelloProvisioning.retry_loop self "click_operation"
                (TrelloProvisioning.click_operation env el)
                (seq 0 (TrelloProvisioning.max_retries self)) None st)
      as [r st'] eqn:Hr.
    cbn [fst] in He. subst r.
    eapply retry_loop_raises_provisioning_error. exact Hr.
Qed.

Lemma list_sum_backoff base n :
  list_sum (backoff base 0 n) + base = base * 2 ^ n.
Proof.
  unfold backoff. induction n as [| n IH].
  - simpl. rewrite Nat.pow_0_r. lia.
  - rewrite seq_S, map_app, list_sum_app. simpl.
    rewrite Nat.pow_succ_r'. lia.
Qed.

(** X8.  Giving up has a fixed price.  When the operation fails at every
    attempt (and does not sleep itself), [_retry_operation] has slept
    [retry_delay_base * (2 ^ max_retries - 1)] seconds in all before it
    raises, and [retry_action] [delay * (2 ^ max_attempts - 1)]: 7 and 14
    seconds with the values the scripts use. *)
Theorem giving_up_costs_the_whole_backoff (A : Type)
        (self : TrelloProvisioning.self_t) (name : string)
        (operation : M A) (max_attempts delay : nat)
        (st st' : state) (es : list exn) :
  respects (quiet not_sleep) operation ->
  (tp_fails self name operation 0 st es st' ->
   length es = TrelloProvisioning.max_retries self ->
   exists evs,
     trace (snd (TrelloProvisioning._retry_operation self name operation st))
     = (trace st ++ evs)%list
     /\ list_sum (sleeps evs) + TrelloProvisioning.retry_delay_base self
        = TrelloProvisioning.retry_delay_base self
          * 2 ^ TrelloProvisioning.max_retries self)
  /\
  (tup_fails operation delay 0 st es st' ->
   length es = max_attempts ->
   exists evs,
     trace (snd (TrelloUserProvisioning.retry_action operation max_attempts
                   delay st))
     = (trace st ++ evs)%list
     /\ list_sum (sleeps evs) + delay = delay * 2 ^ max_attempts).
Proof.
  intros Hq. split; intros Hf Hlen.
  - rewrite (retry_operation_exhausted Hf Hlen). cbn [snd].
    destruct (retry_operation_backoff Hf Hq) as (evs & Ht & Hs).
    exists (evs ++ [Log ERROR (tp_error_msg self name)])%list. split.
    + cbn [trace emit]. now rewrite Ht, app_assoc.
    + rewrite sleeps_app, Hs. cbn [sleeps flat_map]. rewrite app_nil_r.
      rewrite Hlen. apply list_sum_backoff.
  - rewrite (retry_action_exhausted Hf Hlen). cbn [snd].
    destruct (retry_action_backoff Hf Hq) as (evs & Ht & Hs).
    exists evs. split; [exact Ht |].
    rewrite Hs, Hlen. apply list_sum_backoff.
Qed.

(** A session that is gone: three clicks fail and 1 + 2 + 4 seconds are
    slept; three waits time out and 2 + 4 + 8 seconds are slept. *)
Lemma giving_up_costs_the_whole_backoff_witness :
  (exists evs,
      trace (snd (TrelloProvisioning._retry_operation example_self
                    "click_operation"
                    (click (click_fails 3 invalid_session) 7) started))
      = (trace started ++ evs)%list
      /\ list_sum (sleeps evs) + 1 = 8)
  /\
  (exists evs,
      trace (snd (TrelloUserProvisioning.retry_action
                    (click (click_fails 3 stale) 7) 3 2 started))
      = (trace started ++ evs)%list
      /\ list_sum (sleeps evs) + 2 = 16).
Proof.
  assert (Hq : forall env el, respects (quiet not_sleep) (click env el)).
  { intros env el. unfold click. respects_all. }
  split.
  - refine (proj1 (@giving_up_costs_the_whole_backoff unit example_self
                     "click_operation"
                     (click (click_fails 3 invalid_session) 7) 3 2 started _
                     [invalid_session; invalid_session; invalid_session]
                     (Hq _ _)) _ eq_refl).
    eapply tp_fails_cons; [reflexivity |].
    eapply tp_fails_cons; [reflexivity |].
    eapply tp_fails_cons; [reflexivity |].
    apply tp_fails_nil.
  - refine (proj2 (@giving_up_costs_the_whole_backoff unit example_self
                     "click_operation" (click (click_fails 3 stale) 7) 3 2
                     started _ [stale; stale; stale] (Hq _ _)) _ eq_refl).
    eapply tup_fails_cons; [reflexivity | reflexivity |].
    eapply tup_fails_cons; [reflexivity | reflexivity |].
    eapply tup_fails_cons; [reflexivity | reflexivity |].
    apply tup_fails_nil.
Defined.

(** * Further properties: the invitation *)

Section Invitation.

Variable env : Env.
Variable self : TrelloProvisioning.self_t.
Variable email : string.
Variable st : state.

Let st0 := emit (Log INFO ("Adding new user: " ++ email)) st.

Lemma add_new_user_after_invite button st1 :
  TrelloProvisioning.invite_search env self st0 = (Ok (Some button), st1) ->
  TrelloProvisioning.add_new_user_body env self email st
  = (found_input <- TrelloProvisioning.email_search env email ;;
     match found_input with
     | None => TrelloProvisioning.fail_with "Could not find email input field"
     | Some email_input =>
         submit_button <- TrelloProvisioning.submit_search env self ;;
         submit_button_found <-
           (if TrelloProvisioning.is_some submit_button then ret true
            else
              try_except
                (send_keys env email_input Keys_ENTER ;;
                 log INFO "Invite sent using Enter key" ;;
                 ret true)
                [(Exception_, fun _ => ret false)]) ;;
         (if negb submit_button_found
          then TrelloProvisioning.fail_with
                 "Could not find submit button to send invitation"
          else ret tt) ;;
         sleep 3 ;;
         log INFO ("User invitation sent successfully for: " ++ email)
     end) (emit (Sleep 2) st1).
Proof.
  intros H. unfold TrelloProvisioning.add_new_user_body.
  unfold bind at 1, log at 1. fold st0. unfold bind at 1. rewrite H.
  cbn [TrelloProvisioning.is_some negb].
  unfold bind at 1, ret at 1. unfold bind at 1, sleep at 1. reflexivity.
Qed.

Lemma add_new_user_wraps_body e st1 :
  TrelloProvisioning.add_new_user_body env self email st = (Raise e, st1) ->
  TrelloProvisioning.add_new_user env self email st
  = (Raise (add_user_error email e), logged_error (add_user_error email e) st1).
Proof.
  intros H. unfold TrelloProvisioning.add_new_user, try_except. rewrite H.
  cbn [select_clause]. rewrite isinstance_Exception. reflexivity.
Qed.

Lemma add_new_user_returns_body st1 :
  TrelloProvisioning.add_new_user_body env self email st = (Ok tt, st1) ->
  TrelloProvisioning.add_new_user env self email st = (Ok tt, st1).
Proof.
  intros H. unfold TrelloProvisioning.add_new_user, try_except.
  now rewrite H.
Qed.

End Invitation.

(** X9.  With the invite button clicked and the email typed into a field
    but no submit control matching, [add_new_user] presses the commit key
    in that same field.  When the key press returns the invitation counts
    as sent and the step returns; when it raises, whatever it raises, the
    step fails with "Could not find submit button to send invitation". *)
Theorem missing_submit_falls_back_to_enter
        (env : Env) (self : TrelloProvisioning.self_t) (email : string)
        (st : state) (button : element) (st1 : state)
        (input : element) (st2 st3 : state) :
  TrelloProvisioning.invite_search env self
    (emit (Log INFO ("Adding new user: " ++ email)) st)
  = (Ok (Some button), st1) ->
  TrelloProvisioning.email_search env email (emit (Sleep 2) st1)
  = (Ok (Some input), st2) ->
  TrelloProvisioning.submit_search env self st2 = (Ok None, st3) ->
  TrelloProvisioning.add_new_user env self email st
  = match env_unit env (trace st3) (SendKeys input Keys_ENTER) with
    | None =>
        (Ok tt,
         extend [SendKeys input Keys_ENTER;
                 Log INFO "Invite sent using Enter key";
                 Sleep 3;
                 Log INFO ("User invitation sent successfully for: " ++ email)]
                st3)
    | Some _ =>
        (Raise (add_user_error email no_submit_button),
         extend [SendKeys input Keys_ENTER;
                 Log ERROR (str no_submit_button);
                 Log ERROR (str (add_user_error email no_submit_button))]
                st3)
    end.
Proof.
  intros Hi He Hs.
  pose proof (add_new_user_after_invite env self email st button st1 Hi) as Hb.
  rewrite (bind_ok _ _ _ He), (bind_ok _ _ _ Hs) in Hb.
  cbn [TrelloProvisioning.is_some] in Hb.
  unfold bind at 1, try_except, bind at 1, send_keys, call_unit in Hb.
  destruct (env_unit env (trace st3) (SendKeys input Keys_ENTER)) as [e |].
  - cbn [select_clause] in Hb. rewrite isinstance_Exception in Hb.
    unfold ret at 1 in Hb. cbn [negb] in Hb.
    unfold bind, TrelloProvisioning.fail_with, log, raise in Hb.
    cbv beta iota in Hb.
    rewrite (add_new_user_wraps_body env self email st _ _ Hb).
    unfold logged_error.
    rewrite (emit_as_extend (SendKeys input Keys_ENTER)), !extend_emit.
    reflexivity.
  - unfold bind, log, sleep, ret in Hb. cbv beta iota in Hb.
    cbn [negb] in Hb. cbv beta iota in Hb.
    rewrite (add_new_user_returns_body env self email st _ Hb).
    rewrite (emit_as_extend (SendKeys input Keys_ENTER)), !extend_emit.
    reflexivity.
Qed.

(** A form without a submit control: with a working commit key the
    invitation goes out; with a field gone stale the step fails. *)
Lemma missing_submit_falls_back_to_enter_witness :
  fst (TrelloProvisioning.add_new_user (form_without_submit None) example_self
         "newuser@example.com" started) = Ok tt
  /\ fst (TrelloProvisioning.add_new_user (form_without_submit (Some stale))
            example_self "newuser@example.com" started)
     = Raise (add_user_error "newuser@example.com" no_submit_button).
Proof.
  split.
  - set (env := form_without_submit None).
    set (st1 := snd (TrelloProvisioning.invite_search env example_self
                       (emit (Log INFO "Adding new user: newuser@example.com")
                             started))).
    set (st2 := snd (TrelloProvisioning.email_search env "newuser@example.com"
                       (emit (Sleep 2) st1))).
    set (st3 := snd (TrelloProvisioning.submit_search env example_self st2)).
    rewrite (missing_submit_falls_back_to_enter env example_self
               "newuser@example.com" started 3 st1 4 st2 st3);
      reflexivity.
  - set (env := form_without_submit (Some stale)).
    set (st1 := snd (TrelloProvisioning.invite_search env example_self
                       (emit (Log INFO "Adding new user: newuser@example.com")
                             started))).
    set (st2 := snd (TrelloProvisioning.email_search env "newuser@example.com"
                       (emit (Sleep 2) st1))).
    set (st3 := snd (TrelloProvisioning.submit_search env example_self st2)).
    rewrite (missing_submit_falls_back_to_enter env example_self
               "newuser@example.com" started 3 st1 4 st2 st3);
      reflexivity.
Defined.

(** X10.  [add_new_user] says what it could not find.  When every invite
    selector misses it fails with "Could not find invite/members button"
    after those eight lookups: it does not sleep and nothing is typed.
    When the invite button was clicked and every email selector misses it
    fails with "Could not find email input field" and no submit control is
    looked for. *)
Theorem add_new_user_reports_what_is_missing
        (env : Env) (self : TrelloProvisioning.self_t) (email : string)
        (st : state) :
  let st0 := emit (Log INFO ("Adding new user: " ++ email)) st in
  driver st <> None ->
  (misses env (trace st0) TrelloProvisioning.invite_selectors = true ->
   TrelloProvisioning.add_new_user env self email st
   = (Raise (add_user_error email no_invite_button),
      extend (lookups TrelloProvisioning.invite_selectors
                ++ [Log ERROR (str no_invite_button);
                    Log ERROR (str (add_user_error email no_invite_button))])
             st0))
  /\ (forall button st1,
         TrelloProvisioning.invite_search env self st0
         = (Ok (Some button), st1) ->
         misses env (trace (emit (Sleep 2) st1))
                TrelloProvisioning.email_selectors = true ->
         TrelloProvisioning.add_new_user env self email st
         = (Raise (add_user_error email no_email_input),
            extend ([Sleep 2] ++ lookups TrelloProvisioning.email_selectors
                      ++ [Log ERROR (str no_email_input);
                          Log ERROR (str (add_user_error email no_email_input))])
                   st1)).
Proof.
  intros st0 Hd. split.
  - intros Hm.
    assert (Hb : TrelloProvisioning.add_new_user_body env self email st
                 = (Raise no_invite_button,
                    emit (Log ERROR (str no_invite_button))
                         (extend (lookups TrelloProvisioning.invite_selectors)
                                 st0))).
    { unfold TrelloProvisioning.add_new_user_body.
      unfold bind at 1, log at 1. fold st0. unfold bind at 1.
      unfold TrelloProvisioning.invite_search.
      rewrite search_exhausted by assumption. reflexivity. }
    rewrite (add_new_user_wraps_body env self email st _ _ Hb).
    unfold logged_error. rewrite !extend_emit.
    rewrite <- ?app_assoc. reflexivity.
  - intros button st1 Hi Hm.
    assert (Hd1 : driver (emit (Sleep 2) st1) <> None).
    { pose proof (click_search_in_session env self
                    (fun selector =>
                       "Invite button clicked using selector: " ++ selector)
                    TrelloProvisioning.invite_selectors st0) as Hq.
      unfold TrelloProvisioning.invite_search in Hi. rewrite Hi in Hq.
      destruct Hq as (Hdr & _). cbn [snd] in Hdr. cbn [driver emit].
      now rewrite Hdr. }
    pose proof (add_new_user_after_invite env self email st button st1 Hi)
      as Hb.
    unfold bind at 1, TrelloProvisioning.email_search in Hb.
    rewrite search_exhausted in Hb by assumption.
    unfold TrelloProvisioning.fail_with, bind, log, raise in Hb.
    cbv beta iota in Hb.
    rewrite (add_new_user_wraps_body env self email st _ _ Hb).
    unfold logged_error.
    rewrite (emit_as_extend (Sleep 2)), !extend_extend, !extend_emit.
    rewrite <- ?app_assoc. reflexivity.
Qed.

(** A page without an invite button: the step fails after the eight
    lookups; and a page with the button but no email field. *)
Lemma add_new_user_reports_what_is_missing_witness :
  fst (TrelloProvisioning.add_new_user empty_page example_self
         "newuser@example.com" started)
  = Raise (add_user_error "newuser@example.com" no_invite_button)
  /\ fst (TrelloProvisioning.add_new_user
            (only_selector third_invite_selector 42) example_self
            "newuser@example.com" started)
     = Raise (add_user_error "newuser@example.com" no_email_input).
Proof.
  split.
  - destruct (add_new_user_reports_what_is_missing empty_page example_self
                "newuser@example.com" started) as [Hinvite _].
    + discriminate.
    + rewrite Hinvite; reflexivity.
  - destruct (add_new_user_reports_what_is_missing
                (only_selector third_invite_selector 42) example_self
                "newuser@example.com" started) as [_ Hemail].
    + discriminate.
    + rewrite (Hemail 42
                 (snd (TrelloProvisioning.invite_search
                         (only_selector third_invite_selector 42) example_self
                         (emit (Log INFO "Adding new user: newuser@example.com")
                               started))));
        reflexivity.
Defined.

(** * Further properties: the run and the entry point *)

(** X11.  [run_provisioning] returns [True] exactly when the five steps
    ran to the end in order, each from the state the one before left, and
    the verifier answered [True]; in every other case (a step raised, or
    the verifier answered [False]) it returns [False]. *)
Theorem run_succeeds_exactly_when_verified
        (env : Env) (self : TrelloProvisioning.self_t)
        (email workspace : string) (st : state) :
  let result :=
    fst (TrelloProvisioning.run_provisioning env self email workspace st) in
  (result = Ok true <->
   exists st1 st2 st3 st4 st5,
     TrelloProvisioning._setup_driver env self st = (Ok tt, st1)
     /\ TrelloProvisioning.login env self st1 = (Ok tt, st2)
     /\ TrelloProvisioning.navigate_to_workspace env self workspace st2
        = (Ok tt, st3)
     /\ TrelloProvisioning.add_new_user env self email st3 = (Ok tt, st4)
     /\ TrelloProvisioning.verify_user_added env email st4 = (Ok true, st5))
  /\ (result = Ok true \/ result = Ok false).
Proof.
  intros r.
  assert (Hr : r = fst (TrelloProvisioning.run_provisioning
                          env self email workspace st)) by reflexivity.
  clearbody r. rewrite run_provisioning_outcome in Hr.
  unfold TrelloProvisioning.workflow in Hr.
  unfold bind at 1 in Hr.
  destruct (TrelloProvisioning._setup_driver env self st)
    as [[[] | e] st1] eqn:H1; cbv beta iota in Hr.
  2:{ cbn [fst] in Hr. subst r. split; [| now right].
      split; [discriminate |].
      intros (a & b & c & d & f & E1 & _). congruence. }
  unfold bind at 1 in Hr.
  destruct (TrelloProvisioning.login env self st1)
    as [[[] | e] st2] eqn:H2; cbv beta iota in Hr.
  2:{ cbn [fst] in Hr. subst r. split; [| now right].
      split; [discriminate |].
      intros (a & b & c & d & f & E1 & E2 & _). congruence. }
  unfold bind at 1 in Hr.
  destruct (TrelloProvisioning.navigate_to_workspace env self workspace st2)
    as [[[] | e] st3] eqn:H3; cbv beta iota in Hr.
  2:{ cbn [fst] in Hr. subst r. split; [| now right].
      split; [discriminate |].
      intros (a & b & c & d & f & E1 & E2 & E3 & _). congruence. }
  unfold bind at 1 in Hr.
  destruct (TrelloProvisioning.add_new_user env self email st3)
    as [[[] | e] st4] eqn:H4; cbv beta iota in Hr.
  2:{ cbn [fst] in Hr. subst r. split; [| now right].
      split; [discriminate |].
      intros (a & b & c & d & f & E1 & E2 & E3 & E4 & _). congruence. }
  unfold bind at 1 in Hr.
  destruct (TrelloProvisioning.verify_user_added env email st4)
    as [[[|] | e] st5] eqn:H5; cbv beta iota in Hr.
  - unfold bind, log, ret in Hr. cbn [fst] in Hr. subst r.
    split; [| now left].
    split; [| reflexivity]. intros _. now exists st1, st2, st3, st4, st5.
  - unfold bind, log, ret in Hr. cbn [fst] in Hr. subst r.
    split; [| now right]. split; [discriminate |].
    intros (a & b & c & d & f & E1 & E2 & E3 & E4 & E5). congruence.
  - cbn [fst] in Hr. subst r. split; [| now right].
    split; [discriminate |].
    intros (a & b & c & d & f & E1 & E2 & E3 & E4 & E5). congruence.
Qed.

(** What the constructor can do: return the object built from its
    arguments, or raise the configuration error; either way the driver is
    [None] and nothing reached the browser. *)
Lemma init_outcome (env : Env) (headless : bool) (timeout : Z) (st : state) :
  exists st',
    ((exists c,
         TrelloProvisioning.__init__ env headless timeout st
         = (Ok (TrelloProvisioning.mk_self headless timeout 3 1 c), st'))
     \/ TrelloProvisioning.__init__ env headless timeout st
        = (Raise credentials_error, st'))
    /\ driver st' = None
    /\ exists evs,
        trace st' = (trace st ++ evs)%list
        /\ forallb not_browser_call evs = true.
Proof.
  unfold TrelloProvisioning.__init__, TrelloProvisioning._load_credentials,
    TrelloProvisioning._setup_logging, bind, set_driver, set_wait, log,
    load_dotenv, getenv, ret, raise.
  cbn [driver wait trace emit].
  destruct (truthy (env_getenv env "TRELLO_USERNAME")) as [u |];
    [destruct (truthy (env_getenv env "TRELLO_PASSWORD")) as [p |] |];
    (eexists; split; [first [left; eexists; reflexivity | right; reflexivity] |];
     split; [reflexivity |];
     eexists; split; [trace_ex | reflexivity]).
Qed.

(** X12.  [main] builds the object with [headless = not args.no_headless]
    and the timeout given, runs the provisioning for the email and the
    workspace given, and exits with status 0 when the run returned [True]
    and 1 when it returned [False].  The one exception that leaves [main]
    is the configuration error of the constructor, and then no call
    reached the browser. *)
Theorem main_exit_status
        (env : Env) (args : TrelloProvisioning.Namespace) (st : state) :
  (forall n st',
      TrelloProvisioning.main env args st = (Ok n, st') ->
      exists provisioning st1,
        TrelloProvisioning.__init__
          env (negb (TrelloProvisioning.no_headless args))
          (TrelloProvisioning.timeout args) st
        = (Ok provisioning, st1)
        /\ TrelloProvisioning.headless provisioning
           = negb (TrelloProvisioning.no_headless args)
        /\ TrelloProvisioning.wait_timeout provisioning
           = TrelloProvisioning.timeout args
        /\ TrelloProvisioning.run_provisioning
             env provisioning (TrelloProvisioning.email args)
             (TrelloProvisioning.workspace args) st1
           = (Ok (Nat.eqb n 0), st')
        /\ (n = 0 \/ n = 1))
  /\ (forall e st',
         TrelloProvisioning.main env args st = (Raise e, st') ->
         e = credentials_error
         /\ driver st' = None
         /\ exists evs,
             trace st' = (trace st ++ evs)%list
             /\ forallb not_browser_call evs = true).
Proof.
  destruct (init_outcome env (negb (TrelloProvisioning.no_headless args))
              (TrelloProvisioning.timeout args) st)
    as (st1 & [[c Hinit] | Hinit] & Hd & evs & Ht & Hevs);
    unfold TrelloProvisioning.main, bind, ret; rewrite Hinit;
    cbv beta iota.
  -     pose proof (run_provisioning_outcome env
                  (TrelloProvisioning.mk_self
                     (negb (TrelloProvisioning.no_headless args))
                     (TrelloProvisioning.timeout args) 3 1 c)
                  (TrelloProvisioning.email args)
                  (TrelloProvisioning.workspace args) st1) as Hrun.
    destruct (TrelloProvisioning.run_provisioning
                env
                (TrelloProvisioning.mk_self
                   (negb (TrelloProvisioning.no_headless args))
                   (TrelloProvisioning.timeout args) 3 1 c)
                (TrelloProvisioning.email args)
                (TrelloProvisioning.workspace args) st1)
      as [[success | e] st2] eqn:Hr.
    + cbv beta iota. split; [| intros ? ? ?; discriminate].
      intros n st' [= <- <-].
      eexists; eexists. split; [reflexivity |].
      split; [reflexivity |]. split; [reflexivity |].
      rewrite Hr.
      destruct success; split; [reflexivity | now left | reflexivity | now right].
    + destruct (TrelloProvisioning.workflow
                  env
                  (TrelloProvisioning.mk_self
                     (negb (TrelloProvisioning.no_headless args))
                     (TrelloProvisioning.timeout args) 3 1 c)
                  (TrelloProvisioning.email args)
                  (TrelloProvisioning.workspace args) st1)
        as [[? | ?] ?]; discriminate.
  - split; [intros ? ? ?; discriminate |].
    intros e st' [= <- <-]. split; [reflexivity |].
    split; [exact Hd |]. now exists evs.
Qed.

Lemma main_exit_status_witness :
  (exists st',
      TrelloProvisioning.main happy_path TrelloProvisioning.default_args fresh
      = (Ok 0, st')
      /\ exists provisioning st1,
          TrelloProvisioning.run_provisioning
            happy_path provisioning "newuser@example.com" "Project X" st1
          = (Ok true, st'))
  /\ (exists st',
         TrelloProvisioning.main only_username TrelloProvisioning.default_args
                                 fresh
         = (Raise credentials_error, st')
         /\ driver st' = None).
Proof.
  split.
  - eexists. split; [vm_compute; reflexivity |].
    destruct (proj1 (main_exit_status happy_path
                       TrelloProvisioning.default_args fresh)
                    0 _ ltac:(vm_compute; reflexivity))
      as (provisioning & st1 & _ & _ & _ & Hrun & _).
    exists provisioning, st1. exact Hrun.
  - eexists. split; [vm_compute; reflexivity |].
    exact (proj1 (proj2 (proj2 (main_exit_status only_username
                                  TrelloProvisioning.default_args fresh)
                               credentials_error _
                               ltac:(vm_compute; reflexivity)))).
Defined.

(** * Further properties: part_000's navigation and invitation *)

(** How the two handlers of [navigate_to_workspace_settings] answer. *)
Lemma settings_handlers (e : exn) (st : state) :
  match select_clause e
          [(TimeoutException, fun _ : exn =>
              log ERROR "Timeout during workspace navigation" ;;
              ret false);
           (Exception_, fun e : exn =>
              log ERROR ("Navigation failed: " ++ str e) ;;
              ret false)] with
  | Some h => h st
  | None => (Raise e, st)
  end
  = (Ok false, emit (Log ERROR (settings_error_msg e)) st).
Proof.
  cbn [select_clause]. unfold settings_error_msg.
  destruct (isinstance e TimeoutException); [reflexivity |].
  rewrite isinstance_Exception. reflexivity.
Qed.

Section SettingsNavigation.

Variable env : Env.
Variable user : TrelloUserProvisioning.self_t.

(** The body of its [try]. *)
Let settings_body : M bool :=
  _ <- wait_until_element env
         (presence_of_element_located By_CSS_SELECTOR
            "[data-testid='header']") ;;
  TrelloUserProvisioning.await_and_click env By_CSS_SELECTOR
    "[data-testid='header-workspace-switcher-button']" ;;
  TrelloUserProvisioning.await_and_click env By_XPATH
    (TrelloUserProvisioning.workspace_xpath user) ;;
  TrelloUserProvisioning.await_and_click env By_CSS_SELECTOR
    "[data-testid='workspace-navigation-members-tab']" ;;
  log INFO "Reached workspace members section" ;;
  ret true.

(** It returns [True] after the whole sequence, or raises at the first
    call that fails. *)
Lemma settings_body_outcome (st : state) :
  (exists w switcher link tab,
      wait st = Some w /\ driver st <> None
      /\ settings_body st
         = (Ok true,
            extend (settings_calls user w switcher link tab
                      ++ [Log INFO "Reached workspace members section"])%list
                   st))
  \/ (exists e evs w switcher link tab rest,
         settings_body st = (Raise e, extend evs st)
         /\ settings_calls user w switcher link tab = (evs ++ rest)%list).
Proof.
  unfold settings_body, TrelloUserProvisioning.await_and_click, bind, log, ret,
    wait_until_element, execute_script, on_driver, call_element, call_unit,
    extend, emit.
  destruct st as [d w tr]. cbn [driver wait trace].
  destruct w as [w |];
    [| right; exists (none_has_no_attribute "until"), [], (mk_wait 0), 0, 0, 0;
       eexists; split; [now rewrite app_nil_r | reflexivity]].
  repeat
    (cbn [driver wait trace];
     match goal with
     | |- context [env_element env ?t ?ev] =>
         destruct (env_element env t ev) as [? | ?]
     | |- context [env_unit env ?t ?ev] =>
         destruct (env_unit env t ev) as [? | ]
     | |- context [match d with _ => _ end] => destruct d as [? |]
     end).
  all: cbn [driver wait trace]; rewrite <- ?app_assoc; cbn [app].
  all: try (left; do 4 eexists; split; [reflexivity |];
            split; [discriminate | unfold settings_calls; reflexivity]).
  all: right; do 7 eexists; split; [reflexivity | reflexivity].
  Unshelve. all: exact 0.
Qed.

Lemma settings_navigation_runs_body (st : state) :
  TrelloUserProvisioning.navigate_to_workspace_settings env user st
  = match settings_body
            (emit (Log INFO ("Navigating to '"
                               ++ TrelloUserProvisioning.workspace_name user
                               ++ "' settings...")) st) with
    | (Ok b, st1) => (Ok b, st1)
    | (Raise e, st1) =>
        (Ok false, emit (Log ERROR (settings_error_msg e)) st1)
    end.
Proof.
  unfold TrelloUserProvisioning.navigate_to_workspace_settings.
  unfold bind at 1, log at 1, try_except. fold settings_body.
  destruct (settings_body _) as [[b | e] st1]; [reflexivity |].
  apply settings_handlers.
Qed.

End SettingsNavigation.

(** X13.  [navigate_to_workspace_settings] of part_000 never raises and
    leaves [driver] and [wait] as they were.  With a wait, it makes its
    seven calls in order (the wait for the header, then for the switcher,
    the workspace link and the members tab, each clicked by script as the
    element its wait returned) and stops at the first one that fails:
    nothing more is called, the failure is logged ("Timeout during
    workspace navigation" for a timeout, "Navigation failed: ..." for
    anything else) and the answer is [False].  Only when all seven
    returned is the answer [True].  Without a wait, or without a driver
    when the first click is due, the attribute error is logged as any
    other failure. *)
Theorem settings_navigation_outcome
        (env : Env) (user : TrelloUserProvisioning.self_t) (st : state) :
  let st0 :=
    emit (Log INFO ("Navigating to '"
                      ++ TrelloUserProvisioning.workspace_name user
                      ++ "' settings...")) st in
  let fail (e : exn) (evs : list event) : result bool * state :=
    (Ok false, emit (Log ERROR (settings_error_msg e)) (extend evs st0)) in
  (exists b st',
      TrelloUserProvisioning.navigate_to_workspace_settings env user st
      = (Ok b, st')
      /\ driver st' = driver st /\ wait st' = wait st)
  /\ (wait st = None ->
      TrelloUserProvisioning.navigate_to_workspace_settings env user st
      = fail (none_has_no_attribute "until") [])
  /\ (forall w,
         wait st = Some w ->
         let tr := trace st0 in
         let header :=
           WaitUntil (wait_seconds w)
             (presence_of_element_located By_CSS_SELECTOR
                "[data-testid='header']") in
         let switcher_wait :=
           WaitUntil (wait_seconds w)
             (element_to_be_clickable By_CSS_SELECTOR
                "[data-testid='header-workspace-switcher-button']") in
         let link_wait :=
           WaitUntil (wait_seconds w)
             (element_to_be_clickable By_XPATH
                (TrelloUserProvisioning.workspace_xpath user)) in
         let tab_wait :=
           WaitUntil (wait_seconds w)
             (element_to_be_clickable By_CSS_SELECTOR
                "[data-testid='workspace-navigation-members-tab']") in
         let click := ExecuteScript TrelloUserProvisioning.click_script in
         TrelloUserProvisioning.navigate_to_workspace_settings env user st
         = match env_element env tr header with
           | Raise e => fail e [header]
           | Ok _ =>
           match env_element env (tr ++ [header])%list switcher_wait with
           | Raise e => fail e [header; switcher_wait]
           | Ok switcher =>
           match driver st with
           | None =>
               fail (none_has_no_attribute "execute_script")
                    [header; switcher_wait]
           | Some _ =>
           match env_unit env (tr ++ [header; switcher_wait])%list
                          (click switcher) with
           | Some e => fail e [header; switcher_wait; click switcher]
           | None =>
           match env_element env
                   (tr ++ [header; switcher_wait; click switcher])%list
                   link_wait with
           | Raise e =>
               fail e [header; switcher_wait; click switcher; link_wait]
           | Ok link =>
           match env_unit env
                   (tr ++ [header; switcher_wait; click switcher;
                           link_wait])%list
                   (click link) with
           | Some e =>
               fail e [header; switcher_wait; click switcher; link_wait;
                       click link]
           | None =>
           match env_element env
                   (tr ++ [header; switcher_wait; click switcher;
                           link_wait; click link])%list
                   tab_wait with
           | Raise e =>
               fail e [header; switcher_wait; click switcher; link_wait;
                       click link; tab_wait]
           | Ok tab =>
           match env_unit env
                   (tr ++ [header; switcher_wait; click switcher;
                           link_wait; click link; tab_wait])%list
                   (click tab) with
           | Some e => fail e (settings_calls user w switcher link tab)
           | None =>
               (Ok true,
                extend (settings_calls user w switcher link tab
                          ++ [Log INFO "Reached workspace members section"])
                       st0)
           end end end end end end end end).
Proof.
  intros st0 fail. split; [| split].
  - rewrite settings_navigation_runs_body. fold st0.
    destruct (settings_body_outcome env user st0)
      as [(w & switcher & link & tab & Hw & Hd & ->)
         | (e & evs & w & switcher & link & tab & rest & -> & Hp)].
    + exists true. eexists. repeat split.
    + exists false. eexists. repeat split.
  - intros Hw. rewrite settings_navigation_runs_body. fold st0.
    unfold TrelloUserProvisioning.await_and_click, bind, wait_until_element.
    assert (Hw0 : wait st0 = None) by exact Hw.
    rewrite Hw0. unfold fail, settings_error_msg.
    rewrite attribute_error_isinstance, extend_nil. reflexivity.
  - intros w Hw tr header switcher_wait link_wait tab_wait click.
    rewrite settings_navigation_runs_body. fold st0.
    unfold fail, tr, header, switcher_wait, link_wait, tab_wait, click,
      settings_calls.
    unfold TrelloUserProvisioning.await_and_click, bind, log, ret,
      wait_until_element, execute_script, on_driver, call_element, call_unit,
      extend, emit.
    subst st0. destruct st as [d w0 tr0].
    cbn [driver wait trace emit] in *. subst w0.
    repeat
      (cbn [driver wait trace]; rewrite <- ?app_assoc; cbn [app];
       match goal with
       | |- _ = match env_element env ?t ?ev with _ => _ end =>
           destruct (env_element env t ev) as [? | ?]
       | |- _ = match env_unit env ?t ?ev with _ => _ end =>
           destruct (env_unit env t ev) as [? | ]
       | |- _ = match d with _ => _ end => destruct d as [? |]
       end).
    all: cbn [driver wait trace]; rewrite <- ?app_assoc; cbn [app];
      try reflexivity.
    all: unfold settings_error_msg; rewrite attribute_error_isinstance;
      reflexivity.
Qed.

(** The workspace is not in the switcher's list: the navigation stops at
    the third wait with the timeout line, the members tab untouched. *)
Lemma settings_navigation_outcome_witness :
  TrelloUserProvisioning.navigate_to_workspace_settings
    workspace_not_listed example_user started
  = (Ok false,
     extend
       [Log INFO "Navigating to 'Project X' settings...";
        WaitUntil 10
          (presence_of_element_located By_CSS_SELECTOR
             "[data-testid='header']");
        WaitUntil 10
          (element_to_be_clickable By_CSS_SELECTOR
             "[data-testid='header-workspace-switcher-button']");
        ExecuteScript TrelloUserProvisioning.click_script 1;
        WaitUntil 10
          (element_to_be_clickable By_XPATH
             (TrelloUserProvisioning.workspace_xpath example_user));
        Log ERROR "Timeout during workspace navigation"]
       started).
Proof.
  destruct (settings_navigation_outcome workspace_not_listed example_user
              started) as (_ & _ & Hrun).
  rewrite (Hrun (mk_wait 10) eq_refl). reflexivity.
Defined.

Lemma invitation_failure_shift env tr pre evs e :
  invitation_failure env (tr ++ pre)%list evs e ->
  invitation_failure env tr (pre ++ evs)%list e.
Proof.
  intros [H | [H | (before & call & -> & Hr)]].
  - now left.
  - right. now left.
  - right. right. exists (pre ++ before)%list, call.
    rewrite <- !app_assoc in *. now split.
Qed.

(** [retry_action] around a wait: it returns what a wait returned, after
    waiting in vain before; or it gives up. *)
Lemma retry_wait_outcome env value max_attempts attempts st r st1 :
  TrelloUserProvisioning.retry_action_loop
    (wait_until_element env (element_to_be_clickable By_CSS_SELECTOR value))
    max_attempts 2 attempts st
  = (r, st1) ->
  match r with
  | Ok el =>
      exists w evs,
        wait st = Some w
        /\ st1 = extend (evs ++ [clickable_wait w value]) st
        /\ forallb (waiting_for value) evs = true
        /\ env_element env (trace st ++ evs)%list (clickable_wait w value)
           = Ok el
  | Raise e =>
      exists evs,
        st1 = extend evs st
        /\ (e = mk_exn Exception_
                  ("Failed after " ++ str_of_nat max_attempts ++ " attempts")
            \/ (exists attr, e = none_has_no_attribute attr)
            \/ exists before call,
                evs = (before ++ [call])%list
                /\ page_call_raised env (trace st ++ before)%list call
                   = Some e)
  end.
Proof.
  revert st r st1. induction attempts as [| attempt rest IH]; intros st r st1.
  - cbn [TrelloUserProvisioning.retry_action_loop]. unfold raise.
    intros [= <- <-]. exists []. rewrite extend_nil. split; [reflexivity |].
    now left.
  - cbn [TrelloUserProvisioning.retry_action_loop].
    unfold bind at 1, try_except, bind at 1, wait_until_element, call_element.
    destruct (wait st) as [w |] eqn:Hw.
    2:{ cbn [select_clause]. rewrite !attribute_error_isinstance.
        intros [= <- <-]. exists []. rewrite extend_nil.
        split; [reflexivity |]. right. left. now eexists. }
    fold (clickable_wait w value).
    destruct (env_element env (trace st) (clickable_wait w value))
      as [el | e] eqn:He.
    + unfold ret. intros [= <- <-]. exists w, []. cbn [app].
      rewrite app_nil_r, <- emit_as_extend. repeat split. exact He.
    + assert (Hretry :
                forall msg,
                  (let (r0, st') :=
                     (log WARNING msg ;;
                      sleep (2 * 2 ^ attempt) ;;
                      ret (@None element))
                       (emit (clickable_wait w value) st) in
                   match r0 with
                   | Ok a =>
                       match a with
                       | Some a0 => ret a0
                       | None =>
                           TrelloUserProvisioning.retry_action_loop
                             (wait_until_element env
                                (element_to_be_clickable By_CSS_SELECTOR
                                   value))
                             max_attempts 2 rest
                       end st'
                   | Raise e0 => (Raise e0, st')
                   end)
                  = (r, st1) ->
                  match r with
                  | Ok el =>
                      exists w0 evs,
                        Some w = Some w0
                        /\ st1 = extend (evs ++ [clickable_wait w0 value]) st
                        /\ forallb (waiting_for value) evs = true
                        /\ env_element env (trace st ++ evs)%list
                                       (clickable_wait w0 value) = Ok el
                  | Raise e1 =>
                      exists evs,
                        st1 = extend evs st
                        /\ (e1 = mk_exn Exception_
                                   ("Failed after "
                                      ++ str_of_nat max_attempts
                                      ++ " attempts")
                            \/ (exists attr, e1 = none_has_no_attribute attr)
                            \/ exists before call,
                                evs = (before ++ [call])%list
                                /\ page_call_raised env
                                     (trace st ++ before)%list call
                                   = Some e1)
                  end).
      { intros msg. unfold bind, log, sleep, ret.
        set (pre := [clickable_wait w value; Log WARNING msg;
                     Sleep (2 * 2 ^ attempt)]).
        assert (Hpre : emit (Sleep (2 * 2 ^ attempt))
                            (emit (Log WARNING msg)
                                  (emit (clickable_wait w value) st))
                       = extend pre st).
        { rewrite (emit_as_extend _ st), !extend_emit. reflexivity. }
        rewrite Hpre. intros H. apply IH in H.
        destruct r as [el | e1].
        - destruct H as (w0 & evs & Hw0 & -> & Hok & Hel).
          exists w0, (pre ++ evs)%list.
          split; [cbn [wait extend] in Hw0; congruence |]. split; [| split].
          + rewrite extend_extend, <- app_assoc. reflexivity.
          + rewrite forallb_app, Hok. cbn. now rewrite String.eqb_refl.
          + rewrite trace_extend, <- app_assoc in Hel. exact Hel.
        - destruct H as (evs & -> & Hwhy).
          exists (pre ++ evs)%list.
          split; [now rewrite extend_extend |].
          destruct Hwhy as [H | [H | (before & call & -> & Hr)]].
          + now left.
          + right. now left.
          + right. right. exists (pre ++ before)%list, call.
            rewrite trace_extend, <- !app_assoc in *. now split. }
      cbn [select_clause].
      destruct (isinstance e TimeoutException); [apply Hretry |].
      destruct (isinstance e StaleElementReferenceException);
        [apply Hretry |].
      destruct (isinstance e ElementClickInterceptedException);
        [apply Hretry |].
      intros [= <- <-]. exists [clickable_wait w value].
      rewrite <- emit_as_extend. split; [reflexivity |].
      right. right. exists [], (clickable_wait w value).
      rewrite app_nil_r. split; [reflexivity |].
      unfold page_call_raised, clickable_wait in *. now rewrite He.
Qed.

Lemma await_clickable_outcome env value st :
  (exists w el evs,
      wait st = Some w
      /\ TrelloUserProvisioning.await_clickable env value st
         = (Ok el, extend (evs ++ [clickable_wait w value]) st)
      /\ forallb (waiting_for value) evs = true
      /\ env_element env (trace st ++ evs)%list (clickable_wait w value)
         = Ok el)
  \/ (exists e evs,
         TrelloUserProvisioning.await_clickable env value st
         = (Raise e, extend evs st)
         /\ invitation_failure env (trace st) evs e).
Proof.
  unfold TrelloUserProvisioning.await_clickable,
    TrelloUserProvisioning.retry_action.
  destruct (TrelloUserProvisioning.retry_action_loop _ 3 2 (seq 0 3) st)
    as [[el | e] st1] eqn:H; apply retry_wait_outcome in H.
  - destruct H as (w & evs & Hw & -> & Hok & Hel).
    left. now exists w, el, evs.
  - destruct H as (evs & -> & Hwhy).
    right. now exists e, evs.
Qed.

Lemma call_unit_outcome env ev st :
  (forall t c, ev <> WaitUntil t c) ->
  call_unit env ev st = (Ok tt, emit ev st)
  \/ exists e,
      call_unit env ev st = (Raise e, extend [ev] st)
      /\ invitation_failure env (trace st) [ev] e.
Proof.
  intros Hev. unfold call_unit.
  destruct (env_unit env (trace st) ev) as [e |] eqn:He; [right | now left].
  exists e. split; [now rewrite <- emit_as_extend |].
  right. right. exists [], ev. rewrite app_nil_r. split; [reflexivity |].
  destruct ev; try exact He. now destruct (Hev timeout c).
Qed.

Lemma execute_script_outcome env script el st :
  execute_script env script el st = (Ok tt, emit (ExecuteScript script el) st)
  \/ exists e evs,
      execute_script env script el st = (Raise e, extend evs st)
      /\ invitation_failure env (trace st) evs e.
Proof.
  unfold execute_script, on_driver. destruct (driver st).
  - destruct (call_unit_outcome env (ExecuteScript script el) st)
      as [-> | (e & -> & Hwhy)]; [discriminate | now left |].
    right. now exists e, [ExecuteScript script el].
  - right. eexists. exists []. rewrite extend_nil.
    split; [reflexivity |]. right. left. now eexists.
Qed.

Section Invitation000.

Variable env : Env.
Variable user : TrelloUserProvisioning.self_t.

(** The body of the [try] of part_000's [add_new_user]. *)
Let invitation_body : M bool :=
  invite_button <-
    TrelloUserProvisioning.await_clickable env
      "[data-testid='invite-to-workspace-button']" ;;
  execute_script env TrelloUserProvisioning.click_script invite_button ;;
  email_input <-
    TrelloUserProvisioning.await_clickable env
      "[data-testid='invite-to-workspace-email-input']" ;;
  clear env email_input ;;
  send_keys env email_input (TrelloUserProvisioning.new_user_email user) ;;
  submit_button <-
    TrelloUserProvisioning.await_clickable env
      "[data-testid='invite-to-workspace-submit']" ;;
  execute_script env TrelloUserProvisioning.click_script submit_button ;;
  log INFO "User invitation sent" ;;
  ret true.

Lemma invitation_runs_body (st : state) :
  TrelloUserProvisioning.add_new_user env user st
  = match invitation_body
            (emit (Log INFO ("Adding user: "
                               ++ TrelloUserProvisioning.new_user_email user))
                  st) with
    | (Ok b, st1) => (Ok b, st1)
    | (Raise e, st1) =>
        (Ok false, emit (Log ERROR ("Failed to add user: " ++ str e)) st1)
    end.
Proof.
  unfold TrelloUserProvisioning.add_new_user.
  unfold bind at 1, log at 1, try_except. fold invitation_body.
  destruct (invitation_body _) as [[b | e] st1]; [reflexivity |].
  cbn [select_clause]. rewrite isinstance_Exception. reflexivity.
Qed.

Lemma invitation_body_outcome (st : state) :
  (exists w w1 w2 w3 button input submit,
      wait st = Some w
      /\ forallb (waiting_for invite_control) w1 = true
      /\ forallb (waiting_for email_control) w2 = true
      /\ forallb (waiting_for submit_control) w3 = true
      /\ env_element env (trace st ++ w1)%list
                     (clickable_wait w invite_control) = Ok button
      /\ env_element env
           (trace st ++ w1
              ++ [clickable_wait w invite_control;
                  ExecuteScript TrelloUserProvisioning.click_script button]
              ++ w2)%list
           (clickable_wait w email_control) = Ok input
      /\ env_element env
           (trace st ++ w1
              ++ [clickable_wait w invite_control;
                  ExecuteScript TrelloUserProvisioning.click_script button]
              ++ w2
              ++ [clickable_wait w email_control; Clear input;
                  SendKeys input (TrelloUserProvisioning.new_user_email user)]
              ++ w3)%list
           (clickable_wait w submit_control) = Ok submit
      /\ invitation_body st
         = (Ok true,
            extend (w1
                      ++ [clickable_wait w invite_control;
                          ExecuteScript TrelloUserProvisioning.click_script
                            button]
                      ++ w2
                      ++ [clickable_wait w email_control; Clear input;
                          SendKeys input
                            (TrelloUserProvisioning.new_user_email user)]
                      ++ w3
                      ++ [clickable_wait w submit_control;
                          ExecuteScript TrelloUserProvisioning.click_script
                            submit;
                          Log INFO "User invitation sent"])%list
                   st))
  \/ (exists e evs,
         invitation_body st = (Raise e, extend evs st)
         /\ invitation_failure env (trace st) evs e).
Proof.
  unfold invitation_body.
  (* the invite button *)
  destruct (await_clickable_outcome env invite_control st)
    as [(w & button & w1 & Hw & H1 & Hw1 & Hb) | (e & evs & H1 & Hwhy)].
  2:{ right. exists e, evs. unfold invite_control in H1.
      now rewrite (bind_raise _ _ _ H1). }
  unfold invite_control in H1 at 1. rewrite (bind_ok _ _ _ H1).
  set (p1 := (w1 ++ [clickable_wait w invite_control])%list) in *.
  destruct (execute_script_outcome env TrelloUserProvisioning.click_script
              button (extend p1 st)) as [H2 | (e & evs & H2 & Hwhy)].
  2:{ right. exists e, (p1 ++ evs)%list.
      rewrite (bind_raise _ _ _ H2), extend_extend. split; [reflexivity |].
      apply invitation_failure_shift. now rewrite <- trace_extend. }
  rewrite (bind_ok _ _ _ H2), extend_emit.
  set (p2 := (p1 ++ [ExecuteScript TrelloUserProvisioning.click_script
                       button])%list) in *.
  (* the email field *)
  destruct (await_clickable_outcome env email_control (extend p2 st))
    as [(w' & input & w2 & Hw' & H3 & Hw2 & Hi) | (e & evs & H3 & Hwhy)].
  2:{ right. exists e, (p2 ++ evs)%list. unfold email_control in H3.
      rewrite (bind_raise _ _ _ H3), extend_extend. split; [reflexivity |].
      apply invitation_failure_shift. now rewrite <- trace_extend. }
  assert (w' = w) by (cbn [wait extend] in Hw'; congruence). subst w'.
  unfold email_control in H3 at 1.
  rewrite (bind_ok _ _ _ H3), extend_extend.
  set (p3 := (p2 ++ w2 ++ [clickable_wait w email_control])%list) in *.
  unfold clear, send_keys.
  destruct (call_unit_outcome env (Clear input) (extend p3 st))
    as [H4 | (e & H4 & Hwhy)]; [discriminate | |].
  2:{ right. exists e, (p3 ++ [Clear input])%list.
      rewrite (bind_raise _ _ _ H4), extend_extend. split; [reflexivity |].
      apply invitation_failure_shift. now rewrite <- trace_extend. }
  rewrite (bind_ok _ _ _ H4), extend_emit.
  set (p4 := (p3 ++ [Clear input])%list) in *.
  destruct (call_unit_outcome env
              (SendKeys input (TrelloUserProvisioning.new_user_email user))
              (extend p4 st))
    as [H5 | (e & H5 & Hwhy)]; [discriminate | |].
  2:{ right. eexists e, (p4 ++ [_])%list.
      rewrite (bind_raise _ _ _ H5), extend_extend. split; [reflexivity |].
      apply invitation_failure_shift. now rewrite <- trace_extend. }
  rewrite (bind_ok _ _ _ H5), extend_emit.
  set (p5 := (p4 ++ [SendKeys input
                       (TrelloUserProvisioning.new_user_email user)])%list)
    in *.
  (* the submit control *)
  destruct (await_clickable_outcome env submit_control (extend p5 st))
    as [(w'' & submit & w3 & Hw'' & H6 & Hw3 & Hs) | (e & evs & H6 & Hwhy)].
  2:{ right. exists e, (p5 ++ evs)%list. unfold submit_control in H6.
      rewrite (bind_raise _ _ _ H6), extend_extend. split; [reflexivity |].
      apply invitation_failure_shift. now rewrite <- trace_extend. }
  assert (w'' = w) by (cbn [wait extend] in Hw''; congruence). subst w''.
  unfold submit_control in H6 at 1.
  rewrite (bind_ok _ _ _ H6), extend_extend.
  set (p6 := (p5 ++ w3 ++ [clickable_wait w submit_control])%list) in *.
  destruct (execute_script_outcome env TrelloUserProvisioning.click_script
              submit (extend p6 st)) as [H7 | (e & evs & H7 & Hwhy)].
  2:{ right. exists e, (p6 ++ evs)%list.
      rewrite (bind_raise _ _ _ H7), extend_extend. split; [reflexivity |].
      apply invitation_failure_shift. now rewrite <- trace_extend. }
  rewrite (bind_ok _ _ _ H7), extend_emit.
  left. exists w, w1, w2, w3, button, input, submit.
  split; [exact Hw |]. split; [exact Hw1 |]. split; [exact Hw2 |].
  split; [exact Hw3 |]. split; [exact Hb |].
  split.
  { rewrite trace_extend in Hi. unfold p2, p1 in Hi.
    rewrite <- !app_assoc in Hi. exact Hi. }
  split.
  { rewrite trace_extend in Hs. unfold p5, p4, p3, p2, p1 in Hs.
    rewrite <- !app_assoc in Hs. exact Hs. }
  unfold bind, log, ret. rewrite extend_emit.
  unfold p6, p5, p4, p3, p2, p1. rewrite <- !app_assoc. reflexivity.
Qed.

End Invitation000.

(** X14.  [add_new_user] of part_000 never raises and leaves [driver] and
    [wait] as they were.  It returns [True] only on one path: the invite
    button is waited for, and the element that wait returned is clicked by
    script; then the email field is waited for, and the element that wait
    returned is cleared and filled with the new user's email; then the
    submit control is waited for, and the element that wait returned is
    clicked by script; with nothing in between but waiting in vain for the
    control concerned (waits that timed out, log lines and sleeps).  On
    every other path it returns [False]; the last thing it did is log
    "Failed to add user: ..." with the failure, which is the plain
    exception of three used-up attempts, the attribute error of a missing
    wait or driver, or what the last call made raised. *)
Theorem invitation_outcome
        (env : Env) (user : TrelloUserProvisioning.self_t) (st : state) :
  exists b st',
    TrelloUserProvisioning.add_new_user env user st = (Ok b, st')
    /\ driver st' = driver st /\ wait st' = wait st
    /\ (b = true ->
        exists w w1 w2 w3 button input submit,
          wait st = Some w
          /\ forallb (waiting_for invite_control) w1 = true
          /\ forallb (waiting_for email_control) w2 = true
          /\ forallb (waiting_for submit_control) w3 = true
          /\ st' = extend (invitation_calls user w w1 w2 w3 button input
                             submit) st
          /\ env_element env
               (trace st
                  ++ [Log INFO ("Adding user: "
                                  ++ TrelloUserProvisioning.new_user_email
                                       user)]
                  ++ w1)%list
               (clickable_wait w invite_control) = Ok button
          /\ env_element env
               (trace st ++ invite_calls user w w1 button ++ w2)%list
               (clickable_wait w email_control) = Ok input
          /\ env_element env
               (trace st ++ email_calls user w w1 button w2 input ++ w3)%list
               (clickable_wait w submit_control) = Ok submit)
    /\ (b = false ->
        exists evs e,
          st' = emit (Log ERROR ("Failed to add user: " ++ str e))
                     (extend evs st)
          /\ invitation_failure env (trace st) evs e).
Proof.
  rewrite invitation_runs_body.
  set (line := Log INFO ("Adding user: "
                           ++ TrelloUserProvisioning.new_user_email user)).
  destruct (invitation_body_outcome env user (emit line st))
    as [(w & w1 & w2 & w3 & button & input & submit & Hw & H1 & H2 & H3
         & Hb & Hi & Hs & ->)
       | (e & evs & -> & Hwhy)].
  - exists true. eexists. split; [reflexivity |].
    split; [reflexivity |]. split; [reflexivity |].
    split; [| discriminate].
    intros _. exists w, w1, w2, w3, button, input, submit.
    split; [exact Hw |]. split; [exact H1 |]. split; [exact H2 |].
    split; [exact H3 |].
    cbn [trace emit] in Hb, Hi, Hs.
    unfold invitation_calls, email_calls, invite_calls. fold line.
    split; [| split; [| split]].
    + rewrite (emit_as_extend _ st), extend_extend, <- !app_assoc.
      reflexivity.
    + rewrite <- !app_assoc in *. exact Hb.
    + rewrite <- !app_assoc in *. exact Hi.
    + rewrite <- !app_assoc in *. exact Hs.
  - exists false. eexists. split; [reflexivity |].
    split; [reflexivity |]. split; [reflexivity |].
    split; [discriminate |].
    intros _. exists ([line] ++ evs)%list, e.
    split.
    + rewrite (emit_as_extend _ st), extend_extend. reflexivity.
    + apply invitation_failure_shift. exact Hwhy.
Qed.

(** The invite button takes two waits to show: the invitation goes out
    after one sleep of 2 seconds, the button clicked being the element
    the second wait returned. *)
Lemma invitation_outcome_witness :
  exists w1 w2 w3 button input submit,
    TrelloUserProvisioning.add_new_user slow_invite_button example_user started
    = (Ok true,
       extend (invitation_calls example_user (mk_wait 10) w1 w2 w3
                 button input submit) started)
    /\ env_element slow_invite_button
         (trace started
            ++ [Log INFO "Adding user: newuser@example.com"] ++ w1)%list
         (clickable_wait (mk_wait 10) invite_control) = Ok button
    /\ sleeps (trace (snd (TrelloUserProvisioning.add_new_user
                             slow_invite_button example_user started)))
       = [2].
Proof.
  destruct (invitation_outcome slow_invite_button example_user started)
    as (b & st' & Hrun & _ & _ & Htrue & _).
  assert (Hb : b = true).
  { apply (f_equal fst) in Hrun. vm_compute in Hrun. congruence. }
  subst b.
  destruct (Htrue eq_refl)
    as (w & w1 & w2 & w3 & button & input & submit & Hw & _ & _ & _ & Hst
        & Hbutton & _).
  injection Hw as <-.
  exists w1, w2, w3, button, input, submit.
  split; [rewrite Hrun, Hst; reflexivity |].
  split; [exact Hbutton | vm_compute; reflexivity].
Defined.

Lemma cost_app weight (a b : list event) :
  cost weight (a ++ b) = cost weight a + cost weight b.
Proof. unfold cost. now rewrite map_app, list_sum_app. Qed.

Lemma cost_one_per p evs : cost (one_per p) evs = count_calls p evs.
Proof.
  unfold cost, count_calls, one_per.
  induction evs as [| ev evs IH]; [reflexivity |].
  cbn [map filter]. destruct (p ev); simpl in *; lia.
Qed.

Lemma cost_seconds_slept evs : cost seconds_slept evs = list_sum (sleeps evs).
Proof.
  unfold cost, sleeps.
  induction evs as [| ev evs IH]; [reflexivity |].
  cbn [map flat_map]. rewrite list_sum_app.
  destruct ev; simpl in *; lia.
Qed.

Section Costs.

Variable weight : event -> nat.

Lemma within_refl st : within weight 0 st st.
Proof. exists []. split; [now rewrite app_nil_r | reflexivity]. Qed.

Lemma within_trans a b s1 s2 s3 :
  within weight a s1 s2 -> within weight b s2 s3 ->
  within weight (a + b) s1 s3.
Proof.
  intros (e1 & H1 & C1) (e2 & H2 & C2). exists (e1 ++ e2)%list. split.
  - now rewrite H2, H1, app_assoc.
  - rewrite cost_app. lia.
Qed.

Lemma within_weaken a b s1 s2 :
  a <= b -> within weight a s1 s2 -> within weight b s1 s2.
Proof. intros Hab (e1 & H1 & C1). exists e1. split; [exact H1 | lia]. Qed.

Lemma within_emit ev st : within weight (weight ev) st (emit ev st).
Proof.
  exists [ev]. split; [reflexivity |]. unfold cost. simpl. lia.
Qed.

Lemma costs_weaken {A} a b (m : M A) :
  a <= b -> costs weight a m -> costs weight b m.
Proof. intros Hab H st. eapply within_weaken; [exact Hab | apply H]. Qed.

Lemma costs_ret {A} (a : A) : costs weight 0 (ret a).
Proof. intros st. apply within_refl. Qed.

Lemma costs_raise {A} (e : exn) : costs weight 0 (@raise A e).
Proof. intros st. apply within_refl. Qed.

Lemma costs_bind {A B} a b (m : M A) (k : A -> M B) :
  costs weight a m -> (forall x, costs weight b (k x)) ->
  costs weight (a + b) (bind m k).
Proof.
  intros Hm Hk st. unfold bind. specialize (Hm st).
  destruct (m st) as [[x | e] st1]; cbn [snd] in *.
  - eapply within_trans; [exact Hm | apply Hk].
  - eapply within_weaken; [| exact Hm]. lia.
Qed.

Lemma costs_try_except {A} a b (m : M A) (cs : list (clause A)) :
  costs weight a m ->
  Forall (fun c => forall e, costs weight b (snd c e)) cs ->
  costs weight (a + b) (try_except m cs).
Proof.
  intros Hm Hcs st. unfold try_except. specialize (Hm st).
  destruct (m st) as [[x | e] st1]; cbn [snd] in *.
  - eapply within_weaken; [| exact Hm]. lia.
  - destruct (select_clause e cs) as [h |] eqn:Hs.
    + eapply within_trans; [exact Hm |].
      clear Hm. induction Hcs as [| [c hc] cs' Hc _ IH]; simpl in Hs.
      * discriminate.
      * destruct (isinstance e c).
        -- injection Hs as <-. apply Hc.
        -- auto.
    + cbn [snd]. eapply within_weaken; [| exact Hm]. lia.
Qed.

Lemma costs_log l m : costs weight (weight (Log l m)) (log l m).
Proof. intros st. apply within_emit. Qed.

Lemma costs_sleep n : costs weight (weight (Sleep n)) (sleep n).
Proof. intros st. apply within_emit. Qed.

Variable env : Env.

Lemma costs_call_unit ev : costs weight (weight ev) (call_unit env ev).
Proof.
  intros st. unfold call_unit.
  destruct (env_unit env (trace st) ev); apply within_emit.
Qed.

Lemma costs_execute_script script el :
  costs weight (weight (ExecuteScript script el))
        (execute_script env script el).
Proof.
  intros st. unfold execute_script, on_driver.
  destruct (driver st); [apply costs_call_unit |].
  eapply within_weaken; [| apply within_refl]. lia.
Qed.

Lemma costs_wait_until_element k c :
  (forall t, weight (WaitUntil t c) <= k) ->
  costs weight k (wait_until_element env c).
Proof.
  intros Hk st. unfold wait_until_element, call_element.
  destruct (wait st) as [w |]; cbn [snd].
  - eapply within_weaken; [apply Hk | apply within_emit].
  - eapply within_weaken; [| apply within_refl]. lia.
Qed.

Hypothesis weight_log : forall l m, weight (Log l m) = 0.

(** Every attempt of [retry_action] costs at most the action and the sleep
    after its failure. *)
Lemma retry_action_loop_costs {A} (action : M A) k max_attempts delay
      attempts :
  costs weight k action ->
  costs weight
        (list_sum (map (fun a => k + weight (Sleep (delay * 2 ^ a))) attempts))
        (TrelloUserProvisioning.retry_action_loop action max_attempts delay
           attempts).
Proof.
  intros Hact. induction attempts as [| attempt rest IH].
  - cbn [TrelloUserProvisioning.retry_action_loop map list_sum fold_right].
    apply costs_raise.
  - cbn [TrelloUserProvisioning.retry_action_loop map].
    change (list_sum (?x :: ?l)) with (x + list_sum l).
    eapply costs_weaken;
      [| apply costs_bind with
           (a := k + weight (Sleep (delay * 2 ^ attempt)))
           (b := list_sum
                   (map (fun a => k + weight (Sleep (delay * 2 ^ a))) rest))].
    + lia.
    + apply costs_try_except.
      * eapply costs_weaken;
          [| apply costs_bind; [exact Hact | intros x; apply costs_ret]].
        lia.
      * handlers;
          (eapply costs_weaken;
           [| apply costs_bind;
              [apply costs_log
              | intros ?; apply costs_bind;
                [apply costs_sleep | intros ?; apply costs_ret]]];
           rewrite weight_log; lia).
    + intros [x |]; [| exact IH].
      eapply costs_weaken; [| apply costs_ret]. lia.
Qed.

Variables W S C K : nat.
Hypothesis weight_wait : forall t c, weight (WaitUntil t c) <= W.
Hypothesis weight_script : forall s e, weight (ExecuteScript s e) <= S.
Hypothesis weight_clear : forall e, weight (Clear e) <= C.
Hypothesis weight_keys : forall e s, weight (SendKeys e s) <= K.

Lemma await_clickable_costs value :
  costs weight
        (3 * W + (weight (Sleep 2) + weight (Sleep 4) + weight (Sleep 8)))
        (TrelloUserProvisioning.await_clickable env value).
Proof.
  unfold TrelloUserProvisioning.await_clickable,
    TrelloUserProvisioning.retry_action.
  eapply costs_weaken;
    [| apply retry_action_loop_costs with (k := W);
       apply costs_wait_until_element; intros t; apply weight_wait].
  cbn [seq map]. 
  change (2 * 2 ^ 0) with 2. change (2 * 2 ^ 1) with 4.
  change (2 * 2 ^ 2) with 8. simpl. lia.
Qed.

Lemma add_new_user_costs (user : TrelloUserProvisioning.self_t) :
  costs weight
        (3 * (3 * W + (weight (Sleep 2) + weight (Sleep 4) + weight (Sleep 8)))
         + 2 * S + C + K)
        (TrelloUserProvisioning.add_new_user env user).
Proof.
  set (B := 3 * W + (weight (Sleep 2) + weight (Sleep 4) + weight (Sleep 8))).
  unfold TrelloUserProvisioning.add_new_user.
  eapply costs_weaken;
    [| apply costs_bind; [apply costs_log | intros _];
       apply costs_try_except with (a := 3 * B + 2 * S + C + K) (b := 0)].
  - rewrite weight_log. lia.
  - eapply costs_weaken;
      [| apply costs_bind; [apply await_clickable_costs | intros button];
         apply costs_bind with (a := S);
         [eapply costs_weaken; [apply weight_script
                               | apply costs_execute_script] | intros _];
         apply costs_bind; [apply await_clickable_costs | intros input];
         apply costs_bind with (a := C);
         [eapply costs_weaken; [apply weight_clear | apply costs_call_unit]
         | intros _];
         apply costs_bind with (a := K);
         [eapply costs_weaken; [apply weight_keys | apply costs_call_unit]
         | intros _];
         apply costs_bind; [apply await_clickable_costs | intros submit];
         apply costs_bind with (a := S);
         [eapply costs_weaken; [apply weight_script
                               | apply costs_execute_script] | intros _];
         apply costs_bind; [apply costs_log | intros _];
         apply costs_ret].
    rewrite weight_log. fold B. lia.
  - handlers.
    eapply costs_weaken;
      [| apply costs_bind; [apply costs_log | intros _; apply costs_ret]].
    rewrite weight_log. lia.
Qed.

End Costs.

(** X15.  [add_new_user] of part_000 is bounded, whatever the page does:
    it makes at most nine waits (three per control), at most two clicks by
    script, clears and fills a field at most once, and sleeps at most 42
    seconds in all (2 + 4 + 8 per control). *)
Theorem invitation_is_bounded
        (env : Env) (user : TrelloUserProvisioning.self_t) (st : state) :
  exists evs,
    trace (snd (TrelloUserProvisioning.add_new_user env user st))
    = (trace st ++ evs)%list
    /\ count_calls is_wait_until evs <= 9
    /\ count_calls is_execute_script evs <= 2
    /\ count_calls is_send_keys evs <= 1
    /\ list_sum (sleeps evs) <= 42.
Proof.
  destruct (add_new_user_costs (one_per is_wait_until) env
              (fun _ _ => eq_refl) 1 0 0 0
              (fun _ _ => le_n 1) (fun _ _ => le_n 0) (fun _ => le_n 0)
              (fun _ _ => le_n 0) user st) as (evs & Ht & Hwaits).
  destruct (add_new_user_costs (one_per is_execute_script) env
              (fun _ _ => eq_refl) 0 1 0 0
              (fun _ _ => le_n 0) (fun _ _ => le_n 1) (fun _ => le_n 0)
              (fun _ _ => le_n 0) user st) as (evs1 & Ht1 & Hscripts).
  destruct (add_new_user_costs (one_per is_send_keys) env
              (fun _ _ => eq_refl) 0 0 0 1
              (fun _ _ => le_n 0) (fun _ _ => le_n 0) (fun _ => le_n 0)
              (fun _ _ => le_n 1) user st) as (evs2 & Ht2 & Hkeys).
  destruct (add_new_user_costs seconds_slept env
              (fun _ _ => eq_refl) 0 0 0 0
              (fun _ _ => le_n 0) (fun _ _ => le_n 0) (fun _ => le_n 0)
              (fun _ _ => le_n 0) user st) as (evs3 & Ht3 & Hslept).
  rewrite Ht in Ht1, Ht2, Ht3.
  apply app_inv_head in Ht1, Ht2, Ht3. subst evs1 evs2 evs3.
  rewrite cost_one_per in Hwaits, Hscripts, Hkeys.
  rewrite cost_seconds_slept in Hslept.
  exists evs. split; [exact Ht |].
  cbn in Hwaits, Hscripts, Hkeys, Hslept.
  repeat split; lia.
Qed.

(** * Further properties: what counts as evidence *)

Section Evidence.

Variable env : Env.

Lemma verify_user_loop_skips email pre rest st :
  driver st <> None ->
  all_lookups not_there env (trace st) pre = true ->
  TrelloProvisioning.verify_user_loop env email (pre ++ rest) st
  = TrelloProvisioning.verify_user_loop env email rest
      (extend (find_all pre) st).
Proof.
  revert st. induction pre as [| selector pre IH]; intros st Hd Hm.
  - cbn [app find_all map]. now rewrite extend_nil.
  - cbn [all_lookups] in Hm. apply andb_prop in Hm. destruct Hm as [Hs Hm].
    cbn [app TrelloProvisioning.verify_user_loop].
    unfold bind at 1, try_except, bind at 1.
    unfold find_elements, on_driver, call_elements.
    destruct (driver st) eqn:Hd'; [| contradiction].
    destruct (env_elements env (trace st) (FindElements By_XPATH selector))
      as [[| found others] | e]; cbn [not_there] in Hs; try discriminate.
    + unfold ret at 1. rewrite IH.
      * rewrite emit_as_extend, extend_extend. reflexivity.
      * cbn [driver emit]. now rewrite Hd'.
      * exact Hm.
    + cbn [select_clause]. rewrite Hs. unfold ret at 1. rewrite IH.
      * rewrite emit_as_extend, extend_extend. reflexivity.
      * cbn [driver emit]. now rewrite Hd'.
      * exact Hm.
Qed.

Lemma verify_user_loop_finds email selector rest st found others :
  driver st <> None ->
  env_elements env (trace st) (FindElements By_XPATH selector)
  = Ok (found :: others) ->
  TrelloProvisioning.verify_user_loop env email (selector :: rest) st
  = (Ok true,
     extend [FindElements By_XPATH selector;
             Log INFO ("User '" ++ email
                         ++ "' verified successfully using selector: "
                         ++ selector)] st).
Proof.
  intros Hd Hf. cbn [TrelloProvisioning.verify_user_loop].
  unfold bind at 1, try_except, bind at 1.
  unfold find_elements, on_driver, call_elements.
  destruct (driver st) eqn:Hd'; [| contradiction].
  rewrite Hf. unfold bind, log, ret.
  rewrite (emit_as_extend _ st), extend_emit. reflexivity.
Qed.

Lemma verify_user_loop_breaks email selector rest st e :
  driver st <> None ->
  env_elements env (trace st) (FindElements By_XPATH selector) = Raise e ->
  isinstance e NoSuchElementException = false ->
  TrelloProvisioning.verify_user_loop env email (selector :: rest) st
  = (Raise e, extend [FindElements By_XPATH selector] st).
Proof.
  intros Hd Hf Hi. cbn [TrelloProvisioning.verify_user_loop].
  unfold bind at 1, try_except, bind at 1.
  unfold find_elements, on_driver, call_elements.
  destruct (driver st) eqn:Hd'; [| contradiction].
  rewrite Hf. cbn [select_clause]. rewrite Hi.
  now rewrite emit_as_extend.
Qed.

Lemma verify_success_loop_skips pre rest st :
  driver st <> None ->
  all_lookups shows_nothing env (trace st) pre = true ->
  TrelloProvisioning.verify_success_loop env (pre ++ rest) st
  = TrelloProvisioning.verify_success_loop env rest
      (extend (find_all pre) st).
Proof.
  revert st. induction pre as [| selector pre IH]; intros st Hd Hm.
  - cbn [app find_all map]. now rewrite extend_nil.
  - cbn [all_lookups] in Hm. apply andb_prop in Hm. destruct Hm as [Hs Hm].
    cbn [app TrelloProvisioning.verify_success_loop].
    unfold bind at 1, try_except, bind at 1.
    unfold find_elements, on_driver, call_elements.
    destruct (driver st) eqn:Hd'; [| contradiction].
    destruct (env_elements env (trace st) (FindElements By_XPATH selector))
      as [[| found others] | e]; cbn [shows_nothing] in Hs; try discriminate.
    + unfold ret at 1. rewrite IH.
      * rewrite emit_as_extend, extend_extend. reflexivity.
      * cbn [driver emit]. now rewrite Hd'.
      * exact Hm.
    + cbn [select_clause]. rewrite isinstance_Exception.
      unfold ret at 1. rewrite IH.
      * rewrite emit_as_extend, extend_extend. reflexivity.
      * cbn [driver emit]. now rewrite Hd'.
      * exact Hm.
Qed.

Lemma verify_success_loop_reads selector rest st first others :
  driver st <> None ->
  env_elements env (trace st) (FindElements By_XPATH selector)
  = Ok (first :: others) ->
  TrelloProvisioning.verify_success_loop env (selector :: rest) st
  = match env_string env (trace st ++ [FindElements By_XPATH selector])%list
                     (ElementText first) with
    | Ok text =>
        (Ok true,
         extend [FindElements By_XPATH selector; ElementText first;
                 Log INFO ("Success message found: " ++ text)] st)
    | Raise _ =>
        TrelloProvisioning.verify_success_loop env rest
          (extend [FindElements By_XPATH selector; ElementText first] st)
    end.
Proof.
  intros Hd Hf. cbn [TrelloProvisioning.verify_success_loop].
  unfold bind at 1, try_except, bind at 1.
  unfold find_elements, on_driver, call_elements.
  destruct (driver st) eqn:Hd'; [| contradiction].
  rewrite Hf. unfold bind at 1, text_of, call_string.
  cbn [trace emit].
  destruct (env_string env (trace st ++ [FindElements By_XPATH selector])%list
                       (ElementText first)) as [text | e].
  - unfold bind, log, ret.
    rewrite (emit_as_extend _ st), !extend_emit. reflexivity.
  - cbn [select_clause]. rewrite isinstance_Exception. unfold ret at 1.
    rewrite (emit_as_extend _ st), !extend_emit. reflexivity.
Qed.

End Evidence.

(** X16.  In [verify_user_added] the member lookups decide first.  At the
    first member selector whose lookup returns a non-empty list the answer
    is [True]: no further selector is looked up and no success message is
    looked for.  A member lookup that raises anything other than
    element-not-found ends the verification at once with [False], the
    error logged: the success messages are not consulted either. *)
Theorem member_lookup_decides
        (env : Env) (email : string) (st : state)
        (pre : list string) (selector : string) (post : list string) :
  let st0 := emit (Log INFO ("Verifying user addition: " ++ email)) st in
  let st1 := extend (find_all pre) st0 in
  driver st <> None ->
  TrelloProvisioning.user_verification_selectors email
  = (pre ++ selector :: post)%list ->
  all_lookups not_there env (trace st0) pre = true ->
  (forall found others,
      env_elements env (trace st1) (FindElements By_XPATH selector)
      = Ok (found :: others) ->
      TrelloProvisioning.verify_user_added env email st
      = (Ok true,
         extend [FindElements By_XPATH selector;
                 Log INFO ("User '" ++ email
                             ++ "' verified successfully using selector: "
                             ++ selector)] st1))
  /\ (forall e,
         env_elements env (trace st1) (FindElements By_XPATH selector)
         = Raise e ->
         isinstance e NoSuchElementException = false ->
         TrelloProvisioning.verify_user_added env email st
         = (Ok false,
            extend [FindElements By_XPATH selector;
                    Log ERROR ("Error during user verification: " ++ str e)]
                   st1)).
Proof.
  intros st0 st1 Hd Hsel Hpre.
  assert (Hd1 : driver st1 <> None) by exact Hd.
  split.
  - intros found others Hf.
    unfold TrelloProvisioning.verify_user_added, try_except,
      TrelloProvisioning.verify_user_added_body.
    unfold bind at 1, log at 1. fold st0. unfold bind at 1.
    rewrite Hsel, (verify_user_loop_skips env email pre _ st0 Hd Hpre).
    fold st1.
    rewrite (verify_user_loop_finds env email selector post st1 found others
               Hd1 Hf).
    reflexivity.
  - intros e Hf Hi.
    unfold TrelloProvisioning.verify_user_added, try_except,
      TrelloProvisioning.verify_user_added_body.
    unfold bind at 1, log at 1. fold st0. unfold bind at 1.
    rewrite Hsel, (verify_user_loop_skips env email pre _ st0 Hd Hpre).
    fold st1.
    rewrite (verify_user_loop_breaks env email selector post st1 e Hd1 Hf Hi).
    cbn [select_clause]. rewrite isinstance_Exception.
    unfold bind, log, ret. rewrite extend_emit. reflexivity.
Qed.

(** The member is listed under the second selector: two lookups and
    [True]; the session dies at the second lookup: two lookups and
    [False]. *)
Lemma member_lookup_decides_witness :
  (exists st',
      TrelloProvisioning.verify_user_added listed_by_title
        "newuser@example.com" started = (Ok true, st')
      /\ count_calls is_find_elements (trace st') = 2)
  /\ (exists st',
         TrelloProvisioning.verify_user_added session_lost
           "newuser@example.com" started = (Ok false, st')
         /\ count_calls is_find_elements (trace st') = 2).
Proof.
  split.
  - eexists. split.
    + apply (proj1 (member_lookup_decides listed_by_title
                      "newuser@example.com" started
                      ["//*[contains(text(), 'newuser@example.com')]"]
                      "//span[contains(@title, 'newuser@example.com')]"
                      ["//*[@data-testid='member'][contains(., 'newuser@example.com')]";
                       "//*[contains(@class, 'member')][contains(., 'newuser@example.com')]"]
                      ltac:(discriminate) eq_refl eq_refl) 8 []).
      reflexivity.
    + reflexivity.
  - eexists. split.
    + apply (proj2 (member_lookup_decides session_lost
                      "newuser@example.com" started
                      ["//*[contains(text(), 'newuser@example.com')]"]
                      "//span[contains(@title, 'newuser@example.com')]"
                      ["//*[@data-testid='member'][contains(., 'newuser@example.com')]";
                       "//*[contains(@class, 'member')][contains(., 'newuser@example.com')]"]
                      ltac:(discriminate) eq_refl eq_refl) invalid_session);
        reflexivity.
    + reflexivity.
Defined.

(** X17.  When no member selector shows the user, a success message is
    evidence enough: at the first success selector whose lookup returns
    elements, the text of the first one is read; when it can be read the
    answer is [True] and nothing more is looked up.  When reading it
    raises, whatever it raises, that selector counts as a miss and the
    loop goes on with the next one. *)
Theorem success_message_is_evidence
        (env : Env) (email : string) (st : state)
        (pre : list string) (selector : string) (post : list string)
        (first : element) (others : list element) :
  let st0 := emit (Log INFO ("Verifying user addition: " ++ email)) st in
  let st1 :=
    extend (find_all (TrelloProvisioning.user_verification_selectors email))
           st0 in
  let st2 := extend (find_all pre) st1 in
  driver st <> None ->
  all_lookups not_there env (trace st0)
              (TrelloProvisioning.user_verification_selectors email) = true ->
  TrelloProvisioning.success_selectors = (pre ++ selector :: post)%list ->
  all_lookups shows_nothing env (trace st1) pre = true ->
  env_elements env (trace st2) (FindElements By_XPATH selector)
  = Ok (first :: others) ->
  (forall text,
      env_string env (trace st2 ++ [FindElements By_XPATH selector])%list
                 (ElementText first) = Ok text ->
      TrelloProvisioning.verify_user_added env email st
      = (Ok true,
         extend [FindElements By_XPATH selector; ElementText first;
                 Log INFO ("Success message found: " ++ text)] st2))
  /\ (forall e,
         env_string env (trace st2 ++ [FindElements By_XPATH selector])%list
                    (ElementText first) = Raise e ->
         TrelloProvisioning.verify_success_loop env (selector :: post) st2
         = TrelloProvisioning.verify_success_loop env post
             (extend [FindElements By_XPATH selector; ElementText first] st2)).
Proof.
  intros st0 st1 st2 Hd Hmembers Hsel Hpre Hf.
  assert (Hd2 : driver st2 <> None) by exact Hd.
  pose proof (verify_success_loop_reads env selector post st2 first others
                Hd2 Hf) as Hread.
  split.
  - intros text Ht. rewrite Ht in Hread.
    unfold TrelloProvisioning.verify_user_added, try_except,
      TrelloProvisioning.verify_user_added_body.
    unfold bind at 1, log at 1. fold st0. unfold bind at 1.
    rewrite <- (app_nil_r (TrelloProvisioning.user_verification_selectors
                             email)).
    rewrite (verify_user_loop_skips env email _ [] st0 Hd Hmembers).
    fold st1.
    cbn [TrelloProvisioning.verify_user_loop]. unfold ret at 1.
    unfold bind at 1.
    rewrite Hsel, (verify_success_loop_skips env pre _ st1 Hd Hpre).
    fold st2. rewrite Hread. reflexivity.
  - intros e He. now rewrite He in Hread.
Qed.

(** The page says "sent": with a readable banner the answer is [True];
    with an unreadable one the selector is passed over. *)
Lemma success_message_is_evidence_witness :
  fst (TrelloProvisioning.verify_user_added
         (sent_banner (Ok "Invitation sent")) "newuser@example.com" started)
  = Ok true
  /\ fst (TrelloProvisioning.verify_user_added
            (sent_banner (Raise stale)) "newuser@example.com" started)
     = Ok false.
Proof.
  split.
  - rewrite (proj1 (success_message_is_evidence
                      (sent_banner (Ok "Invitation sent"))
                      "newuser@example.com" started
                      ["//*[contains(text(), 'invited')]"]
                      "//*[contains(text(), 'sent')]"
                      ["//*[contains(text(), 'added')]";
                       "//*[contains(@class, 'success')]"]
                      9 []
                      ltac:(discriminate) eq_refl eq_refl eq_refl eq_refl)
                   "Invitation sent" eq_refl).
    reflexivity.
  - reflexivity.
Defined.

(** * Further properties: the steps and the session *)

(** X18.  The steps need the browser that [_setup_driver] starts.  Called
    on an object whose [driver] is still [None], [login],
    [navigate_to_workspace] and [add_new_user] each fail at their first
    use of the driver with a [TrelloProvisioningError] that wraps the
    attribute error, after their opening log line and the error line and
    nothing else; [verify_user_added] answers [False]; and nothing was
    asked of a browser. *)
Theorem steps_need_a_browser
        (env : Env) (self : TrelloProvisioning.self_t)
        (email workspace : string) (st : state) :
  driver st = None ->
  TrelloProvisioning.login env self st
  = (Raise (login_error (none_has_no_attribute "get")),
     extend [Log INFO "Starting Trello login process";
             Log ERROR (str (login_error (none_has_no_attribute "get")))] st)
  /\ TrelloProvisioning.navigate_to_workspace env self workspace st
     = (Raise (navigate_error workspace
                 (none_has_no_attribute "find_element")),
        extend [Log INFO ("Navigating to workspace: " ++ workspace);
                Log ERROR (str (navigate_error workspace
                                  (none_has_no_attribute "find_element")))]
               st)
  /\ TrelloProvisioning.add_new_user env self email st
     = (Raise (add_user_error email (none_has_no_attribute "find_element")),
        extend [Log INFO ("Adding new user: " ++ email);
                Log ERROR (str (add_user_error email
                                  (none_has_no_attribute "find_element")))]
               st)
  /\ TrelloProvisioning.verify_user_added env email st
     = (Ok false,
        extend [Log INFO ("Verifying user addition: " ++ email);
                Log ERROR ("Error during user verification: "
                             ++ str (none_has_no_attribute "find_elements"))]
               st).
Proof.
  intros Hd. destruct st as [d w tr]. cbn [driver] in Hd. subst d.
  repeat split.
  - unfold TrelloProvisioning.login, TrelloProvisioning.login_body,
      TrelloProvisioning.login_open, try_except, bind, log, driver_get,
      on_driver, extend, emit.
    cbn [driver wait trace select_clause].
    rewrite !attribute_error_isinstance. unfold bind, log, raise, emit.
    cbn [driver wait trace]. rewrite <- ?app_assoc. reflexivity.
  - unfold TrelloProvisioning.navigate_to_workspace,
      TrelloProvisioning.workspace_search, try_except, extend.
    unfold bind at 1, log at 1. unfold bind at 1.
    cbn [TrelloProvisioning.workspace_selectors
           TrelloProvisioning.fallback_search].
    unfold bind at 1, TrelloProvisioning.try_selector, try_except, bind at 1,
      find_element, on_driver, emit.
    cbn [driver wait trace select_clause].
    rewrite !attribute_error_isinstance. unfold bind, log, raise, emit.
    cbn [driver wait trace]. rewrite <- ?app_assoc. reflexivity.
  - unfold TrelloProvisioning.add_new_user,
      TrelloProvisioning.add_new_user_body,
      TrelloProvisioning.invite_search, try_except, extend.
    unfold bind at 1, log at 1. unfold bind at 1.
    cbn [TrelloProvisioning.invite_selectors
           TrelloProvisioning.fallback_search].
    unfold bind at 1, TrelloProvisioning.try_selector, try_except, bind at 1,
      find_element, on_driver, emit.
    cbn [driver wait trace select_clause].
    rewrite !attribute_error_isinstance. unfold bind, log, raise, emit.
    cbn [driver wait trace]. rewrite <- ?app_assoc. reflexivity.
  - unfold TrelloProvisioning.verify_user_added,
      TrelloProvisioning.verify_user_added_body, try_except, extend.
    unfold bind at 1, log at 1. unfold bind at 1.
    cbn [TrelloProvisioning.user_verification_selectors
           TrelloProvisioning.verify_user_loop].
    unfold bind at 1, try_except, bind at 1, find_elements, on_driver, emit.
    cbn [driver wait trace select_clause].
    rewrite !attribute_error_isinstance. unfold bind, log, raise, emit.
    cbn [driver wait trace]. rewrite <- ?app_assoc. reflexivity.
Qed.

(** An object fresh from the constructor. *)
Lemma steps_need_a_browser_witness :
  fst (TrelloProvisioning.login happy_path example_self fresh)
  = Raise (login_error (none_has_no_attribute "get"))
  /\ fst (TrelloProvisioning.verify_user_added happy_path
            "newuser@example.com" fresh) = Ok false.
Proof.
  destruct (steps_need_a_browser happy_path example_self
              "newuser@example.com" "Project X" fresh eq_refl)
    as (Hlogin & _ & _ & Hverify).
  rewrite Hlogin, Hverify. split; reflexivity.
Defined.

Section PageCalls.

Variable env : Env.
Variable self : TrelloProvisioning.self_t.

Let ok : event -> bool :=
  page_call (negb (TrelloProvisioning.headless self)).

Ltac on_page := respects_all; try reflexivity.

Lemma check_for_captcha_on_page b selectors :
  respects (quiet (page_call b))
           (TrelloProvisioning.check_for_captcha_loop env selectors).
Proof.
  induction selectors as [| selector rest IH];
    cbn [TrelloProvisioning.check_for_captcha_loop]; on_page.
Qed.

Lemma handle_captcha_on_page :
  respects (quiet ok) (TrelloProvisioning._handle_captcha_if_present env self).
Proof.
  unfold ok, TrelloProvisioning._handle_captcha_if_present,
    TrelloProvisioning._check_for_captcha.
  apply respects_bind; [apply check_for_captcha_on_page |].
  intros detected. on_page.
Qed.

Lemma wait_and_find_element_on_page b value timeout :
  respects (quiet ok)
           (TrelloProvisioning._wait_and_find_element env self b value timeout).
Proof. unfold TrelloProvisioning._wait_and_find_element. on_page. Qed.

Lemma safe_click_on_page el :
  respects (quiet ok) (TrelloProvisioning._safe_click env self el).
Proof. apply respects_safe_click; reflexivity. Qed.

Lemma login_on_page :
  respects (quiet ok) (TrelloProvisioning.login env self).
Proof.
  unfold TrelloProvisioning.login, TrelloProvisioning.login_body,
    TrelloProvisioning.login_open, TrelloProvisioning.login_enter_credentials,
    TrelloProvisioning.login_submit.
  repeat first
         [ apply handle_captcha_on_page
         | apply wait_and_find_element_on_page
         | apply safe_click_on_page
         | respects_step ]; reflexivity.
Qed.

Lemma click_search_on_page found_msg selectors :
  respects (quiet ok)
           (TrelloProvisioning.fallback_search env
              (TrelloProvisioning._safe_click env self) found_msg selectors).
Proof.
  apply respects_fallback_search; try reflexivity.
  apply safe_click_on_page.
Qed.

Lemma fill_search_on_page email found_msg selectors :
  respects (quiet ok)
           (TrelloProvisioning.fallback_search env
              (TrelloProvisioning.fill_email env email) found_msg selectors).
Proof.
  apply respects_fallback_search; try reflexivity.
  intros el. unfold TrelloProvisioning.fill_email. on_page.
Qed.

Lemma navigate_on_page workspace_name :
  respects (quiet ok)
           (TrelloProvisioning.navigate_to_workspace env self workspace_name).
Proof.
  unfold TrelloProvisioning.navigate_to_workspace,
    TrelloProvisioning.navigate_finish,
    TrelloProvisioning.workspace_search_boards,
    TrelloProvisioning.workspace_search.
  repeat first [ apply click_search_on_page | respects_step ];
    reflexivity.
Qed.

Lemma add_new_user_on_page email :
  respects (quiet ok) (TrelloProvisioning.add_new_user env self email).
Proof.
  unfold TrelloProvisioning.add_new_user,
    TrelloProvisioning.add_new_user_body, TrelloProvisioning.invite_search,
    TrelloProvisioning.email_search, TrelloProvisioning.submit_search,
    TrelloProvisioning.fail_with.
  repeat first
         [ apply click_search_on_page
         | apply fill_search_on_page
         | respects_step ]; reflexivity.
Qed.

End PageCalls.

(** X19.  The four steps only address the page.  Each of [login],
    [navigate_to_workspace], [add_new_user] and [verify_user_added] leaves
    [self.driver] and [self.wait] as they were, and apart from log lines
    and sleeps calls nothing but the page: no browser is started or quit,
    no driver setting is changed and the environment is not read.  The
    operator is asked for input in a visible run only, never in a headless
    one. *)
Theorem steps_only_address_the_page
        (env : Env) (self : TrelloProvisioning.self_t)
        (email workspace : string) (st : state) :
  let ok := page_call (negb (TrelloProvisioning.headless self)) in
  quiet ok st (snd (TrelloProvisioning.login env self st))
  /\ quiet ok st
           (snd (TrelloProvisioning.navigate_to_workspace env self workspace
                   st))
  /\ quiet ok st (snd (TrelloProvisioning.add_new_user env self email st))
  /\ quiet (page_call false) st
           (snd (TrelloProvisioning.verify_user_added env email st)).
Proof.
  intros ok. split; [apply login_on_page |].
  split; [apply navigate_on_page |].
  split; [apply add_new_user_on_page |].
  destruct (verify_user_added_single_pass env email st)
    as (Hd & Hw & evs & Ht & Hok).
  split; [exact Hd |]. split; [exact Hw |].
  exists evs. split; [exact Ht |].
  rewrite forallb_forall in *. intros ev Hin. specialize (Hok ev Hin).
  destruct ev; try discriminate; try reflexivity.
Qed.

(** * Further properties: where the workspace is found *)

(** A clicking search whose [k]-th selector matches and whose click lands
    at once. *)
Lemma click_search_succeeds env self found_msg pre selector post el st :
  driver st <> None ->
  0 < TrelloProvisioning.max_retries self ->
  misses env (trace st) pre = true ->
  env_element env (trace st ++ lookups pre)%list
              (FindElement By_XPATH selector) = Ok el ->
  env_unit env
           (trace st ++ lookups pre
              ++ [FindElement By_XPATH selector; first_click_attempt self])%list
           (Click el) = None ->
  TrelloProvisioning.fallback_search env
    (TrelloProvisioning._safe_click env self) found_msg
    (pre ++ selector :: post) st
  = (Ok (Some el),
     extend (found_and_clicked self pre selector el
               ++ [Log INFO (found_msg selector)]) st).
Proof.
  intros Hd Hn Hm Hel Hc.
  rewrite (search_first_match env _ found_msg pre selector post el st
             Hd Hm Hel (safe_click_raises_provisioning_error env self el)).
  rewrite safe_click_returns; [| exact Hn |].
  - unfold tp_before_attempt, found_and_clicked, first_click_attempt.
    rewrite !extend_emit. cbn [Nat.add].
    rewrite <- !app_assoc. reflexivity.
  - unfold tp_before_attempt. rewrite extend_emit, trace_extend.
    rewrite <- !app_assoc. exact Hc.
Qed.

(** X20.  [navigate_to_workspace] returns as soon as the workspace is
    found.  Found on the current page (the [k]-th selector matches and the
    click lands), it returns after those [k] lookups, the click, and the
    closing sleep of 3 seconds: the boards listing is never opened.  Found
    only in the boards view (every selector missed on the current page,
    the listing opened), it returns after the second pass the same way. *)
Theorem workspace_found_where_it_shows
        (env : Env) (self : TrelloProvisioning.self_t)
        (workspace_name : string) (st : state)
        (pre : list string) (selector : string) (post : list string)
        (el : element) :
  let selectors := TrelloProvisioning.workspace_selectors workspace_name in
  let st1 :=
    emit (Log INFO ("Navigating to workspace: " ++ workspace_name)) st in
  let st3 :=
    emit (Sleep 3)
         (emit (Get TrelloProvisioning.boards_url)
               (extend (lookups selectors) st1)) in
  let finish :=
    [Sleep 3;
     Log INFO ("Successfully navigated to workspace: " ++ workspace_name)] in
  driver st <> None ->
  0 < TrelloProvisioning.max_retries self ->
  selectors = (pre ++ selector :: post)%list ->
  (misses env (trace st1) pre = true ->
   env_element env (trace st1 ++ lookups pre)%list
               (FindElement By_XPATH selector) = Ok el ->
   env_unit env
            (trace st1 ++ lookups pre
               ++ [FindElement By_XPATH selector; first_click_attempt self])%list
            (Click el) = None ->
   TrelloProvisioning.navigate_to_workspace env self workspace_name st
   = (Ok tt,
      extend (found_and_clicked self pre selector el
                ++ [Log INFO ("Workspace '" ++ workspace_name
                                ++ "' found and clicked using selector: "
                                ++ selector)]
                ++ finish)
             st1))
  /\ (misses env (trace st1) selectors = true ->
      env_unit env (trace (extend (lookups selectors) st1))
               (Get TrelloProvisioning.boards_url) = None ->
      misses env (trace st3) pre = true ->
      env_element env (trace st3 ++ lookups pre)%list
                  (FindElement By_XPATH selector) = Ok el ->
      env_unit env
               (trace st3 ++ lookups pre
                  ++ [FindElement By_XPATH selector;
                      first_click_attempt self])%list
               (Click el) = None ->
      TrelloProvisioning.navigate_to_workspace env self workspace_name st
      = (Ok tt,
         extend (found_and_clicked self pre selector el
                   ++ [Log INFO "Workspace found in boards view"]
                   ++ finish)
                st3)).
Proof.
  intros selectors st1 st3 finish Hd Hn Hsel.
  assert (Hd1 : driver st1 <> None) by exact Hd.
  assert (Hd3 : driver st3 <> None) by exact Hd.
  split.
  - intros Hm Hel Hc.
    unfold TrelloProvisioning.navigate_to_workspace, try_except.
    unfold bind at 1, log at 1. fold st1. unfold bind at 1.
    unfold TrelloProvisioning.workspace_search. fold selectors.
    rewrite Hsel.
    rewrite (click_search_succeeds env self _ pre selector post el st1
               Hd1 Hn Hm Hel Hc).
    unfold TrelloProvisioning.navigate_finish.
    cbn [TrelloProvisioning.is_some]. unfold bind, ret, sleep, log.
    cbn [negb]. rewrite !extend_emit, <- !app_assoc. reflexivity.
  - intros Hm1 Hg Hm Hel Hc.
    unfold TrelloProvisioning.navigate_to_workspace, try_except.
    unfold bind at 1, log at 1. fold st1. unfold bind at 1.
    unfold TrelloProvisioning.workspace_search. fold selectors.
    rewrite (search_exhausted env _ _ selectors st1 Hd1 Hm1).
    unfold TrelloProvisioning.navigate_finish.
    cbn [TrelloProvisioning.is_some].
    unfold bind at 1, TrelloProvisioning.workspace_search_boards, try_except.
    unfold bind at 1, driver_get, on_driver, call_unit.
    destruct (driver (extend (lookups selectors) st1)) eqn:Hd2;
      [| contradiction].
    rewrite Hg. unfold bind at 1, sleep at 1. fold st3. unfold bind at 1.
    fold selectors. rewrite Hsel.
    rewrite (click_search_succeeds env self _ pre selector post el st3
               Hd3 Hn Hm Hel Hc).
    cbn [TrelloProvisioning.is_some]. unfold bind, ret, sleep, log.
    cbn [negb]. rewrite !extend_emit, <- !app_assoc. reflexivity.
Qed.

(** The workspace shows as the second selector has it, in the boards view
    only: seven lookups, one page load and one click. *)
Lemma workspace_found_where_it_shows_witness :
  exists st',
    TrelloProvisioning.navigate_to_workspace listed_in_boards_view
      example_self "Project X" started = (Ok tt, st')
    /\ count_calls is_find_element (trace st') = 7
    /\ count_calls is_click (trace st') = 1.
Proof.
  eexists. split.
  - apply (proj2 (workspace_found_where_it_shows listed_in_boards_view
                    example_self "Project X" started
                    ["//a[contains(text(), 'Project X')]"]
                    "//div[contains(text(), 'Project X')]"
                    ["//span[contains(text(), 'Project X')]";
                     "//*[@data-testid='workspace-name'][contains(text(), 'Project X')]";
                     "//*[contains(@class, 'workspace')]//*[contains(text(), 'Project X')]"]
                    2 ltac:(discriminate) ltac:(cbn; lia) eq_refl));
      reflexivity.
  - split; reflexivity.
Defined.
